(** * Klondike solitaire: the rule engine of klondike_solitaire.tsx

    A shallow embedding of the game-state part of the React component
    (deck creation, shuffle, deal, the two legality rules and the three
    event handlers [handleStock], [moveCards] and [handleCardClick]),
    followed by the properties the specification states about them.  The
    same file holds a photo editor; the handlers of its state cells are
    embedded in the module [Editor].

    Conventions.
    - A JavaScript array is a [list] in array order: index 0 is the head,
      the "top" of a pile is the last element.
    - A JavaScript number used as an array index or as a start position is
      an integer of [Z]: a value that is no integer (NaN, a fraction)
      selects no array element, exactly like a negative one, and is
      represented by any out-of-range integer.
    - A pile id such as "tableau-3" is given in the split form the first two
      lines of each handler compute: the type string and the numeric index.
    - A handler either throws (only [TypeError], from reading a property of
      [undefined]), returns without calling [setGame], or calls
      [setGame ng]: this is the type [outcome]. *)

From Stdlib Require Import Floats.
From stdpp Require Import base numbers list strings.

Local Open Scope Z_scope.

(** ** Data model *)

Inductive Suit := HEARTS | DIAMONDS | CLUBS | SPADES.

Inductive Rank :=
  | Ace | Two | Three | Four | Five | Six | Seven
  | Eight | Nine | Ten | Jack | Queen | King.

#[global] Instance Suit_eq_dec : EqDecision Suit.
Proof. solve_decision. Defined.

#[global] Instance Rank_eq_dec : EqDecision Rank.
Proof. solve_decision. Defined.

Record CardType := mkCard { suit : Suit; rank : Rank; isFaceUp : bool }.

#[global] Instance CardType_eq_dec : EqDecision CardType.
Proof. solve_decision. Defined.

(** [FoundationPile] and [TableauPile] are one-field wrappers around
    [cards : CardType[]]; a pile is its array of cards. *)
Abbreviation Pile := (list CardType).

Record GameState := mkGame {
  stock : list CardType;
  waste : list CardType;
  foundation : list Pile;
  tableau : list Pile
}.

Definition SUITS : list Suit := [HEARTS; DIAMONDS; CLUBS; SPADES].

Definition RANKS : list Rank :=
  [Ace; Two; Three; Four; Five; Six; Seven; Eight; Nine; Ten; Jack; Queen; King].

(** [{ ...c, isFaceUp: b }] *)
Definition withFace (b : bool) (c : CardType) : CardType :=
  {| suit := suit c; rank := rank c; isFaceUp := b |}.

(** ** JavaScript array operations used by the program *)

Module JsArray.

Section Ops.
Context {T : Type}.

(** [arr[k]]: [None] stands for [undefined]. *)
Definition get (arr : list T) (k : Z) : option T :=
  if decide (0 <= k) then arr !! Z.to_nat k else None.

(** The start position computed by [slice] and [splice]: a negative
    start counts from the end, and the result is clamped to
    [0 .. length]. *)
Definition relStart (len : nat) (start : Z) : nat :=
  if start <? 0 then Z.to_nat (Z.max (Z.of_nat len + start) 0)
  else Z.to_nat (Z.min start (Z.of_nat len)).

(** [arr.slice(start)] *)
Definition slice (arr : list T) (start : Z) : list T :=
  drop (relStart (length arr) start) arr.

(** The array left by [arr.splice(start)] (it removes [slice start]). *)
Definition splice (arr : list T) (start : Z) : list T :=
  take (relStart (length arr) start) arr.

(** The array left by [arr.splice(start, 1)]. *)
Definition splice1 (arr : list T) (start : Z) : list T :=
  let k := relStart (length arr) start in
  take k arr ++ drop (S k) arr.

(** The array left by [arr.pop()]; the popped element is [last arr]. *)
Definition pop (arr : list T) : list T :=
  take (length arr - 1)%nat arr.

(** [arr.push(...xs)] *)
Definition push (arr xs : list T) : list T := arr ++ xs.

(** [[arr[i], arr[j]] = [arr[j], arr[i]]] for indices inside the array
    (the shuffle never leaves it). *)
Definition swap (arr : list T) (i j : nat) : list T :=
  match arr !! i, arr !! j with
  | Some x, Some y => <[j := x]> (<[i := y]> arr)
  | _, _ => arr
  end.

(** [arr.indexOf(x)], with [-1] when [x] does not occur. *)
Fixpoint indexOf `{EqDecision T} (arr : list T) (x : T) : Z :=
  match arr with
  | [] => -1
  | y :: arr' =>
      if decide (y = x) then 0
      else let k := indexOf arr' x in if k <? 0 then -1 else k + 1
  end.
End Ops.

(** [for (let i = lo; i < lo + n; i++) body], threading the state. *)
Fixpoint for_ {S : Type} (lo : nat) (n : nat) (body : nat -> S -> S) (s : S) : S :=
  match n with
  | O => s
  | Datatypes.S n' => for_ (Datatypes.S lo) n' body (body lo s)
  end.

(** [for (let i = lo; i < lo + n; i++) { if (...) { ...; return } }]:
    the first iteration whose body returns ends the loop. *)
Fixpoint forReturn {R : Type} (lo : nat) (n : nat) (body : nat -> option R) : option R :=
  match n with
  | O => None
  | Datatypes.S n' =>
      match body lo with
      | Some r => Some r
      | None => forReturn (Datatypes.S lo) n' body
      end
  end.

End JsArray.

(** ** Deck, shuffle and deal *)

Definition createDeck : list CardType :=
  flat_map (fun s => map (fun r => {| suit := s; rank := r; isFaceUp := false |}) RANKS) SUITS.

(** [shuffleDeck]: the loop runs [i] from [length - 1] down to 1.  The value
    [Math.floor(Math.random() * (i + 1))], some index in [0 .. i], is read
    from an oracle: [rnd i] reduced modulo [i + 1]. *)
Fixpoint shuffleLoop (rnd : nat -> nat) (i : nat) (arr : list CardType) : list CardType :=
  match i with
  | O => arr
  | S i' => shuffleLoop rnd i' (JsArray.swap arr (S i') (rnd (S i') mod (S i' + 1))%nat)
  end.

Definition shuffleDeck (rnd : nat -> nat) (deck : list CardType) : list CardType :=
  shuffleLoop rnd (length deck - 1)%nat deck.

(** One execution of the inner loop body of the deal:
    [const c = deck.pop()!; tableau[j].cards.push({ ...c, isFaceUp: j === i })].
    [None] records a violated non-null assertion (an empty deck), which
    would put a record without suit and rank on the table. *)
Definition dealCard (i j : nat) (st : option (list CardType * list Pile))
  : option (list CardType * list Pile) :=
  match st with
  | None => None
  | Some (deck, tab) =>
      match last deck with
      | None => None
      | Some c =>
          Some (JsArray.pop deck,
                alter (fun cards => JsArray.push cards [withFace (bool_decide (j = i)) c]) j tab)
      end
  end.

(** The two nested loops of [initializeGame] over an already shuffled deck. *)
Definition deal (deck : list CardType) : option (list CardType * list Pile) :=
  JsArray.for_ 0 7 (fun i st => JsArray.for_ i (7 - i) (fun j st' => dealCard i j st') st)
    (Some (deck, replicate 7 [])).

Definition initializeGame (rnd : nat -> nat) : option GameState :=
  match deal (shuffleDeck rnd createDeck) with
  | None => None
  | Some (deck, tab) =>
      Some {| stock := deck; waste := []; foundation := replicate 4 []; tableau := tab |}
  end.

(** ** Legality rules *)

(** Both rules test [pile.length === 0] and otherwise read
    [pile[pile.length - 1]]: [last pile] is [None] exactly for the empty
    pile.  [RANKS.indexOf] is an integer, so that [indexOf(top) - 1] is [-1]
    for an Ace on top and matches no card. *)
Definition canMoveToFoundation (card : CardType) (pile : Pile) : bool :=
  match last pile with
  | None => bool_decide (rank card = Ace)
  | Some top =>
      bool_decide (suit card = suit top)
      && (JsArray.indexOf RANKS (rank card) =? JsArray.indexOf RANKS (rank top) + 1)
  end.

Definition canMoveToTableau (card : CardType) (pile : Pile) : bool :=
  match last pile with
  | None => bool_decide (rank card = King)
  | Some top =>
      let red := bool_decide (suit card = HEARTS) || bool_decide (suit card = DIAMONDS) in
      let topRed := bool_decide (suit top = HEARTS) || bool_decide (suit top = DIAMONDS) in
      negb (eqb red topRed)
      && (JsArray.indexOf RANKS (rank card) =? JsArray.indexOf RANKS (rank top) - 1)
  end.


(** ** Outcomes of an event handler *)

Inductive outcome :=
  | TypeError                 (* an uncaught exception: [undefined.cards], [undefined.rank] *)
  | NoUpdate                  (* [return] without [setGame] *)
  | SetGame (ng : GameState). (* [setGame(ng)] *)

(** The game state held by the component after the handler has run. *)
Definition stateAfter (game : GameState) (o : outcome) : GameState :=
  match o with
  | SetGame ng => ng
  | _ => game
  end.

(** Statements of a handler body: they complete normally with a value, or
    abruptly with the handler's outcome (a throw or an early [return]). *)
Inductive completion (T : Type) :=
  | Normal (a : T)
  | Abrupt (o : outcome).

Arguments Normal {T} a.
Arguments Abrupt {T} o.

#[global] Instance completion_ret : MRet completion := fun _ a => Normal a.

#[global] Instance completion_bind : MBind completion := fun _ _ k c =>
  match c with
  | Normal a => k a
  | Abrupt o => Abrupt o
  end.

(** Use of a value that may be [undefined] as an object. *)
Definition defined {T : Type} (v : option T) : completion T :=
  match v with
  | Some a => Normal a
  | None => Abrupt TypeError
  end.

(** [piles[k].cards] *)
Definition cardsOf (piles : list Pile) (k : Z) : completion Pile :=
  defined (JsArray.get piles k).

(** An in-place change of the array [piles[k].cards]. *)
Definition updateCards (piles : list Pile) (k : Z) (f : Pile -> Pile)
  : completion (list Pile) :=
  cards ← cardsOf piles k;
  mret (<[Z.to_nat k := f cards]> piles).

(** [if (col.length) col[col.length - 1].isFaceUp = true] *)
Definition flipTop (col : Pile) : Pile :=
  if (length col =? 0)%nat then col
  else alter (withFace true) (length col - 1)%nat col.

Definition setGame (c : completion GameState) : outcome :=
  match c with
  | Normal ng => SetGame ng
  | Abrupt o => o
  end.

Definition withWaste (game : GameState) (w : list CardType) : GameState :=
  {| stock := stock game; waste := w;
     foundation := foundation game; tableau := tableau game |}.

Definition withFoundation (game : GameState) (f : list Pile) : GameState :=
  {| stock := stock game; waste := waste game;
     foundation := f; tableau := tableau game |}.

Definition withTableau (game : GameState) (t : list Pile) : GameState :=
  {| stock := stock game; waste := waste game;
     foundation := foundation game; tableau := t |}.

(** ** The three handlers *)

Definition handleStock (game : GameState) : outcome :=
  match last (stock game) with
  | None =>
      (* ng.stock.length === 0 *)
      SetGame {| stock := map (withFace false) (reverse (waste game));
                 waste := [];
                 foundation := foundation game;
                 tableau := tableau game |}
  | Some c =>
      SetGame {| stock := JsArray.pop (stock game);
                 waste := JsArray.push (waste game) [withFace true c];
                 foundation := foundation game;
                 tableau := tableau game |}
  end.

(** [moveCards(card, source, idx, target)]; the parameter [card] is never
    read by the body and is left out.  When the source is an empty waste or
    foundation pile, [moving] is [[undefined]]: its first element is
    [undefined] as for the empty list used here, and the validity test
    throws on it before [moving] is used again. *)
Definition moveCards (game : GameState) (srcType : string) (srcIdx : Z) (idx : Z)
    (tgtType : string) (tgtIdx : Z) : outcome :=
  setGame (
    srcPile ← (if String.eqb srcType "waste" then mret (waste game)
               else if String.eqb srcType "tableau" then cardsOf (tableau game) srcIdx
               else if String.eqb srcType "foundation" then cardsOf (foundation game) srcIdx
               else Abrupt NoUpdate);
    let moving :=
      if String.eqb srcType "waste" || String.eqb srcType "foundation"
      then option_list (last srcPile)
      else JsArray.slice srcPile idx in
    tgtPile ← (if String.eqb tgtType "foundation" then cardsOf (foundation game) tgtIdx
               else cardsOf (tableau game) tgtIdx);
    first ← defined (head moving);
    let valid :=
      if String.eqb tgtType "foundation" then canMoveToFoundation first tgtPile
      else canMoveToTableau first tgtPile in
    if negb valid then Abrupt NoUpdate
    else
      ng ← (if String.eqb srcType "waste" then
              mret (withWaste game (JsArray.pop (waste game)))
            else if String.eqb srcType "tableau" then
              t ← updateCards (tableau game) srcIdx
                    (fun cards => flipTop (JsArray.splice cards idx));
              mret (withTableau game t)
            else
              f ← updateCards (foundation game) srcIdx JsArray.pop;
              mret (withFoundation game f));
      if String.eqb tgtType "foundation" then
        f ← updateCards (foundation ng) tgtIdx (fun cards => JsArray.push cards [first]);
        mret (withFoundation ng f)
      else
        t ← updateCards (tableau ng) tgtIdx (fun cards => JsArray.push cards moving);
        mret (withTableau ng t)).

(** The body of the first loop of [handleCardClick] at iteration [i]. *)
Definition clickToFoundation (game : GameState) (card : CardType)
    (srcType : string) (srcIdx : Z) (index : Z) (i : nat) : option outcome :=
  match foundation game !! i with
  | None => Some TypeError
  | Some cards =>
      if canMoveToFoundation card cards then
        Some (setGame (
          ng ← (if String.eqb srcType "waste" then
                  mret (withWaste game (JsArray.pop (waste game)))
                else
                  t ← updateCards (tableau game) srcIdx
                        (fun col => flipTop (JsArray.splice1 col index));
                  mret (withTableau game t));
          f ← updateCards (foundation ng) (Z.of_nat i) (fun col => JsArray.push col [card]);
          mret (withFoundation ng f)))
      else None
  end.

(** The body of the second loop of [handleCardClick] at iteration [i]. *)
Definition clickToTableau (game : GameState) (card : CardType)
    (srcType : string) (srcIdx : Z) (index : Z) (i : nat) : option outcome :=
  match tableau game !! i with
  | None => Some TypeError
  | Some cards =>
      if canMoveToTableau card cards then
        Some (setGame (
          ng ← (if String.eqb srcType "waste" then
                  mret (withWaste game (JsArray.pop (waste game)))
                else if String.eqb srcType "tableau" then
                  t ← updateCards (tableau game) srcIdx
                        (fun col => flipTop (JsArray.splice col index));
                  mret (withTableau game t)
                else
                  f ← updateCards (foundation game) srcIdx JsArray.pop;
                  mret (withFoundation game f));
          pushed ← (if String.eqb srcType "waste" then mret [card]
                    else if String.eqb srcType "foundation" then mret [card]
                    else
                      col ← cardsOf (tableau game) srcIdx;
                      mret (map (withFace true) (JsArray.slice col index)));
          t ← updateCards (tableau ng) (Z.of_nat i) (fun col => JsArray.push col pushed);
          mret (withTableau ng t)))
      else None
  end.

Definition handleCardClick (game : GameState) (card : CardType)
    (srcType : string) (srcIdx : Z) (index : Z) : outcome :=
  let viaFoundation :=
    if negb (String.eqb srcType "foundation") then
      JsArray.forReturn 0 (length (foundation game))
        (clickToFoundation game card srcType srcIdx index)
    else None in
  match viaFoundation with
  | Some o => o
  | None =>
      match JsArray.forReturn 0 (length (tableau game))
              (clickToTableau game card srcType srcIdx index) with
      | Some o => o
      | None => NoUpdate
      end
  end.

(** ** Clicks as the rendered page produces them *)

(** The card of the [Card] element rendered for pile [source] with
    [index]: the waste shows its top card only, with its array index; a
    foundation shows [cards.slice(-1)], its top card with index 0; a tableau
    pile shows every card with its array index. *)
Definition renderedCard (game : GameState) (srcType : string) (srcIdx : Z) (index : Z)
  : option CardType :=
  if String.eqb srcType "waste" then
    if decide (index = Z.of_nat (length (waste game)) - 1) then last (waste game) else None
  else if String.eqb srcType "foundation" then
    match JsArray.get (foundation game) srcIdx with
    | Some cards => if decide (index = 0) then last cards else None
    | None => None
    end
  else if String.eqb srcType "tableau" then
    match JsArray.get (tableau game) srcIdx with
    | Some cards => JsArray.get cards index
    | None => None
    end
  else None.

(** [onClick={() => card.isFaceUp && onClick(card, source, index)}] on the
    rendered card; where no card is rendered there is nothing to click. *)
Definition clickCard (game : GameState) (srcType : string) (srcIdx : Z) (index : Z)
  : outcome :=
  match renderedCard game srcType srcIdx index with
  | Some card =>
      if isFaceUp card then handleCardClick game card srcType srcIdx index
      else NoUpdate
  | None => NoUpdate
  end.

(** The rendered drop targets: one [Pile] element for each foundation pile
    and each tableau pile. *)
Definition renderedPile (game : GameState) (tgtType : string) (tgtIdx : Z) : bool :=
  if String.eqb tgtType "foundation" then
    bool_decide (is_Some (JsArray.get (foundation game) tgtIdx))
  else if String.eqb tgtType "tableau" then
    bool_decide (is_Some (JsArray.get (tableau game) tgtIdx))
  else false.

(** A drag of a rendered card ([canDrag: isDraggable], which is [true] for
    the waste card and [c.isFaceUp] in a pile) dropped on a rendered pile:
    [drop: (item) => moveCards(item.cards[0], item.source, item.startIndex,
    `${type}-${index}`)]. *)
Definition dropCards (game : GameState) (srcType : string) (srcIdx : Z) (index : Z)
    (tgtType : string) (tgtIdx : Z) : outcome :=
  match renderedCard game srcType srcIdx index with
  | Some card =>
      if (String.eqb srcType "waste" || isFaceUp card)
         && renderedPile game tgtType tgtIdx
      then moveCards game srcType srcIdx index tgtType tgtIdx
      else NoUpdate
  | None => NoUpdate
  end.

(** States of a game: the initial deal of some shuffle, followed by clicks
    on the stock, drops of dragged cards and clicks on cards. *)
Inductive reachable : GameState -> Prop :=
  | reach_new rnd g :
      initializeGame rnd = Some g -> reachable g
  | reach_stock g ng :
      reachable g -> handleStock g = SetGame ng -> reachable ng
  | reach_drop g srcType srcIdx idx tgtType tgtIdx ng :
      reachable g ->
      dropCards g srcType srcIdx idx tgtType tgtIdx = SetGame ng -> reachable ng
  | reach_click g srcType srcIdx index ng :
      reachable g ->
      clickCard g srcType srcIdx index = SetGame ng -> reachable ng.

(** All the cards on the table, pile after pile. *)
Definition allCards (g : GameState) : list CardType :=
  stock g ++ waste g ++ concat (foundation g) ++ concat (tableau g).

(** A card's identity is its suit and rank; the face state changes. *)
Definition face (c : CardType) : Suit * Rank := (suit c, rank c).

(** ** Vocabulary of the specification *)

(** The rank order A < 2 < ... < K, as positions 1 to 13. *)
Definition rankValue (r : Rank) : Z :=
  match r with
  | Ace => 1 | Two => 2 | Three => 3 | Four => 4 | Five => 5 | Six => 6
  | Seven => 7 | Eight => 8 | Nine => 9 | Ten => 10
  | Jack => 11 | Queen => 12 | King => 13
  end.

Inductive Color := Red | Black.

(** hearts/diamonds = red, clubs/spades = black *)
Definition color (s : Suit) : Color :=
  match s with
  | HEARTS | DIAMONDS => Red
  | CLUBS | SPADES => Black
  end.

Definition faceDown (c : CardType) : Prop := isFaceUp c = false.
Definition faceUp (c : CardType) : Prop := isFaceUp c = true.

(** Only the last (top) card of the pile is face-up. *)
Definition onlyTopFaceUp (pile : Pile) : Prop :=
  map isFaceUp pile = replicate (length pile - 1) false ++ [true].

(** Pile [i] is the first pile, in index order, that [accepts]. *)
Definition firstAccepting (accepts : Pile -> bool) (piles : list Pile) (i : nat) : Prop :=
  (exists cards, piles !! i = Some cards /\ accepts cards = true) /\
  (forall k cards, (k < i)%nat -> piles !! k = Some cards -> accepts cards = false).

Definition noneAccepts (accepts : Pile -> bool) (piles : list Pile) : Prop :=
  forall k cards, piles !! k = Some cards -> accepts cards = false.

(** A handler returns (it does not throw). *)
Definition returns (o : outcome) : Prop := o <> TypeError.

(** [k] is an index of the array [piles]. *)
Definition pileIndex (piles : list Pile) (k : Z) : Prop :=
  0 <= k < Z.of_nat (length piles).

Definition knownSource (srcType : string) : Prop :=
  srcType = "waste"%string \/ srcType = "tableau"%string \/ srcType = "foundation"%string.

(** The source of a move names a pile that exists ([sourceExists]) and has
    a card to move from the start index on ([sourceHasRun]).  A negative
    start index counts from the end of the pile, as [slice] reads it. *)
Definition sourceExists (game : GameState) (srcType : string) (srcIdx : Z) : Prop :=
  srcType = "waste"%string
  \/ (srcType = "tableau"%string /\ pileIndex (tableau game) srcIdx)
  \/ (srcType = "foundation"%string /\ pileIndex (foundation game) srcIdx).

Definition sourceHasRun (game : GameState) (srcType : string) (srcIdx idx : Z) : Prop :=
  (srcType = "waste"%string /\ waste game <> [])
  \/ (srcType = "tableau"%string /\
      exists cards, JsArray.get (tableau game) srcIdx = Some cards
                    /\ cards <> [] /\ idx < Z.of_nat (length cards))
  \/ (srcType = "foundation"%string /\
      exists cards, JsArray.get (foundation game) srcIdx = Some cards /\ cards <> []).

(** The target pile of a move: a foundation pile for the type "foundation",
    a tableau pile for every other type string. *)
Definition targetPile (game : GameState) (tgtType : string) (tgtIdx : Z) : option Pile :=
  if String.eqb tgtType "foundation" then JsArray.get (foundation game) tgtIdx
  else JsArray.get (tableau game) tgtIdx.

Definition targetExists (game : GameState) (tgtType : string) (tgtIdx : Z) : Prop :=
  if String.eqb tgtType "foundation" then pileIndex (foundation game) tgtIdx
  else pileIndex (tableau game) tgtIdx.

(** The first card of the run a move takes: the top card of the waste or of
    a foundation pile, the card at the start index of a tableau pile. *)
Definition firstOfRun (game : GameState) (srcType : string) (srcIdx idx : Z)
  : option CardType :=
  if String.eqb srcType "waste" then last (waste game)
  else if String.eqb srcType "tableau" then
    match JsArray.get (tableau game) srcIdx with
    | Some cards => head (JsArray.slice cards idx)
    | None => None
    end
  else if String.eqb srcType "foundation" then
    match JsArray.get (foundation game) srcIdx with
    | Some cards => last cards
    | None => None
    end
  else None.

(** The legality rule that matches the target. *)
Definition legal (tgtType : string) (first : CardType) (tgtPile : Pile) : bool :=
  if String.eqb tgtType "foundation" then canMoveToFoundation first tgtPile
  else canMoveToTableau first tgtPile.

(** The pile ids a click can come from, with the card position for a
    tableau pile. *)
Inductive clickSource :=
  | OnWaste
  | OnTableau (s n : nat)
  | OnFoundation (s : nat).

#[global] Instance clickSource_eq_dec : EqDecision clickSource.
Proof. solve_decision. Defined.

(** The [source] and [index] properties of the rendered card.  The id
    "waste" has no index part: its numeric index is NaN, no array index. *)
Definition srcTypeOf (src : clickSource) : string :=
  match src with
  | OnWaste => "waste"
  | OnTableau _ _ => "tableau"
  | OnFoundation _ => "foundation"
  end.

Definition srcIdxOf (src : clickSource) : Z :=
  match src with
  | OnWaste => -1
  | OnTableau s _ => Z.of_nat s
  | OnFoundation s => Z.of_nat s
  end.

Definition clickIndexOf (game : GameState) (src : clickSource) : Z :=
  match src with
  | OnWaste => Z.of_nat (length (waste game)) - 1
  | OnTableau _ n => Z.of_nat n
  | OnFoundation _ => 0
  end.

(** [card] is the card shown at [src]. *)
Definition clickedAt (game : GameState) (src : clickSource) (card : CardType) : Prop :=
  match src with
  | OnWaste => last (waste game) = Some card
  | OnTableau s n => exists col, tableau game !! s = Some col /\ col !! n = Some card
  | OnFoundation s => exists col, foundation game !! s = Some col /\ last col = Some card
  end.

Definition fromFoundation (src : clickSource) : Prop :=
  exists s, src = OnFoundation s.

(** The state once the clicked card alone has left its pile; a new tableau
    top is turned face-up. *)
Definition withoutCard (game : GameState) (src : clickSource) : GameState :=
  match src with
  | OnWaste => withWaste game (JsArray.pop (waste game))
  | OnTableau s n =>
      withTableau game
        (alter (fun col => flipTop (take n col ++ drop (S n) col)) s (tableau game))
  | OnFoundation s => withFoundation game (alter JsArray.pop s (foundation game))
  end.

(** The cards that travel to a tableau pile: from a tableau pile the whole
    suffix that starts at the clicked card, shown face-up; else the card. *)
Definition runFrom (game : GameState) (src : clickSource) (card : CardType) : list CardType :=
  match src with
  | OnTableau s n => map (withFace true) (drop n (default [] (tableau game !! s)))
  | _ => [card]
  end.

(** The state once that run has left its pile. *)
Definition withoutRun (game : GameState) (src : clickSource) : GameState :=
  match src with
  | OnWaste => withWaste game (JsArray.pop (waste game))
  | OnTableau s n =>
      withTableau game (alter (fun col => flipTop (take n col)) s (tableau game))
  | OnFoundation s => withFoundation game (alter JsArray.pop s (foundation game))
  end.

(** [cards] put on top of pile [i]. *)
Definition putOn (piles : list Pile) (i : nat) (cards : list CardType) : list Pile :=
  alter (fun pile => pile ++ cards) i piles.

(** [left] is the pile [below] once its top card has been turned face-up:
    the same cards in the same order, all but the last as they were, and the
    last one face-up. *)
Definition exposed (below left : Pile) : Prop :=
  map face left = map face below
  /\ (forall k, (S k < length below)%nat -> left !! k = below !! k)
  /\ (forall c, last left = Some c -> isFaceUp c = true).

(** ** The cards of a game *)

(** The cards a drag takes along: from a tableau pile the suffix that starts
    at the dragged card, as it lies; else the card. *)
Definition dragged (game : GameState) (src : clickSource) (card : CardType) : list CardType :=
  match src with
  | OnTableau s n => drop n (default [] (tableau game !! s))
  | _ => [card]
  end.

(** Two states hold the same cards, whatever their face states and places. *)
Definition sameCards (g1 g2 : GameState) : Prop :=
  map face (allCards g1) ≡ₚ map face (allCards g2).

(** The suits and ranks of the cards of some piles. *)
Definition faces (piles : list Pile) : list (Suit * Rank) :=
  map face (concat piles).

(** The drag takes one card only: a drag from a tableau pile starts at the
    pile's last card. *)
Definition singleCardDrag (game : GameState) (srcType : string) (srcIdx idx : Z) : Prop :=
  srcType = "tableau"%string ->
  forall cards, JsArray.get (tableau game) srcIdx = Some cards ->
                idx = Z.of_nat (length cards) - 1.

(** The states of the games in which no run of several cards is dropped on
    a foundation pile. *)
Inductive reachableBySingleDrops : GameState -> Prop :=
  | single_new rnd g :
      initializeGame rnd = Some g -> reachableBySingleDrops g
  | single_stock g ng :
      reachableBySingleDrops g -> handleStock g = SetGame ng ->
      reachableBySingleDrops ng
  | single_drop g srcType srcIdx idx tgtType tgtIdx ng :
      reachableBySingleDrops g ->
      tgtType <> "foundation"%string \/ singleCardDrag g srcType srcIdx idx ->
      dropCards g srcType srcIdx idx tgtType tgtIdx = SetGame ng ->
      reachableBySingleDrops ng
  | single_click g srcType srcIdx index ng :
      reachableBySingleDrops g ->
      clickCard g srcType srcIdx index = SetGame ng ->
      reachableBySingleDrops ng.

(** What the deal keeps at every step: the seven piles, and the cards of
    the deck, in the deck or on a pile. *)
Definition dealt (orig : list (Suit * Rank))
    (st : option (list CardType * list Pile)) : Prop :=
  match st with
  | None => True
  | Some (deck, tab) => length tab = 7%nat /\ map face deck ++ faces tab ≡ₚ orig
  end.

(** ** The invariants of the data model *)

(** A foundation pile holds, from the bottom, the Ace, the Two, ... of one
    suit. *)
Definition foundationOrdered (pile : Pile) : Prop :=
  (forall (k : nat) c, pile !! k = Some c -> rankValue (rank c) = Z.of_nat k + 1)
  /\ (forall c c', c ∈ pile -> c' ∈ pile -> suit c = suit c').

(** A tableau pile is a prefix of face-down cards followed by a suffix of
    face-up cards, and its top card is face-up. *)
Definition tableauShaped (pile : Pile) : Prop :=
  exists down up,
    pile = down ++ up /\ Forall faceDown down /\ Forall faceUp up
    /\ (pile <> [] -> up <> []).

Definition tidy (g : GameState) : Prop :=
  Forall faceDown (stock g)
  /\ Forall faceUp (waste g)
  /\ Forall (Forall faceUp) (foundation g)
  /\ Forall foundationOrdered (foundation g)
  /\ Forall tableauShaped (tableau g).

(** ** Repeated clicks on the stock *)

(** The state after [n] clicks on the stock. *)
Fixpoint clicksOnStock (n : nat) (game : GameState) : GameState :=
  match n with
  | O => game
  | S n' => clicksOnStock n' (stateAfter game (handleStock game))
  end.

(** ** A game used for the examples

    The shuffle whose oracle swaps three cards into place deals the Ace of
    hearts, the Two of hearts and the Ace of spades as the face-up tops of
    tableau piles 0, 1 and 2. *)

Definition acesOnTop (i : nat) : nat :=
  if (i =? 51)%nat then 0%nat
  else if (i =? 44)%nat then 1%nat
  else if (i =? 39)%nat then 38%nat
  else i.

(** The same draws as [acesOnTop], each taken one full turn further. *)
Definition acesOnTopAgain (i : nat) : nat := (acesOnTop i + (i + 1))%nat.

Definition emptyGame : GameState :=
  {| stock := []; waste := []; foundation := replicate 4 []; tableau := replicate 7 [] |}.

Definition game0 : GameState := default emptyGame (initializeGame acesOnTop).

(** The Ace of hearts is dropped on foundation 0. *)
Definition game1 : GameState :=
  stateAfter game0 (moveCards game0 "tableau" 0 0 "foundation" 0).

(** The Ace of spades is dropped on the Two of hearts of tableau pile 1. *)
Definition game2 : GameState :=
  stateAfter game1 (moveCards game1 "tableau" 2 2 "tableau" 1).

(** The Two of hearts is dragged, with the Ace of spades on it, to
    foundation 0. *)
Definition game3 : GameState :=
  stateAfter game2 (moveCards game2 "tableau" 1 1 "foundation" 0).


(** From [game0], one card is drawn from the stock. *)
Definition gameDrawn : GameState := stateAfter game0 (handleStock game0).

Definition aceOfHearts : CardType := {| suit := HEARTS; rank := Ace; isFaceUp := true |}.
Definition twoOfHearts : CardType := {| suit := HEARTS; rank := Two; isFaceUp := true |}.
Definition aceOfSpades : CardType := {| suit := SPADES; rank := Ace; isFaceUp := true |}.
Definition queenOfSpades (up : bool) : CardType :=
  {| suit := SPADES; rank := Queen; isFaceUp := up |}.
Definition jackOfSpades (up : bool) : CardType :=
  {| suit := SPADES; rank := Jack; isFaceUp := up |}.
Definition fiveOfSpades (up : bool) : CardType :=
  {| suit := SPADES; rank := Five; isFaceUp := up |}.
Definition jackOfDiamonds (up : bool) : CardType :=
  {| suit := DIAMONDS; rank := Jack; isFaceUp := up |}.
Definition fiveOfHearts : CardType := {| suit := HEARTS; rank := Five; isFaceUp := true |}.

(** From [game0], the 24 cards of the stock are drawn one by one. *)
Definition gameRecycle : GameState := clicksOnStock 24 game0.

(** ** Proof automation *)

(** A list of length 52 is split into its 52 elements. *)
Ltac explode_deck deck H :=
  do 52 (destruct deck as [|? deck]; [discriminate H|]);
  destruct deck; [clear H | discriminate H].

(** * The photo editor: the state handlers of the [App] component

    The component keeps its state in [useState] cells.  A handler runs
    against the cells of the render it was created in (the state [s] it is
    given) and queues writes; React applies the queued writes in order
    before the next render.  A handler is therefore a function from the
    state to the next state: a plain write [setX(v)] replaces the cell, an
    updater [setX(f)] applies [f] to the cell as left by the writes queued
    before it, and a value the handler reads from its closure is read from
    [s].

    Embedded: the image load of [onDrop], [getUnscaledPointer],
    [pushSnapshot], [handleEscape], [handleStageClick], [updateText],
    [undo], the four tool buttons, the mouse handlers of the stage, the
    click handlers of a text and of a circle, the drag and transform
    handlers of a circle and of the crop rectangle.  Left out: the drag and
    transform handlers of a text (they write into the objects of the
    current [edits] array, so their snapshot depends on the order in which
    React runs the queued updaters), [applyCrop] (canvas, and a state write
    from an [onload] callback), [calculateScale] and the DOM work of
    [handleTextClick] and [saveImage]. *)
Module Editor.

(** The [data] of an edit ([any] in the source): an object whose values
    are numbers, strings, booleans and arrays; [VNull] is [null]. *)
#[local] Unset Elimination Schemes.
Inductive Value :=
  | VNull
  | VNum (n : float)
  | VStr (s : string)
  | VBool (b : bool)
  | VArr (vs : list Value).
#[local] Set Elimination Schemes.

(** An object as its own properties in insertion order. *)
Definition Obj := list (string * Value).

(** [{ ...o, k: v }]: a property that [o] already has keeps its place. *)
Fixpoint setField (k : string) (v : Value) (o : Obj) : Obj :=
  match o with
  | [] => [(k, v)]
  | (k', v') :: o' =>
      if String.eqb k' k then (k', v) :: o' else (k', v') :: setField k v o'
  end.

Inductive EditType := text | circle | highlight.

Record Edit := mkEdit { type : EditType; data : Obj }.

(** [{ x, y }], a pointer position. *)
Record Vector2d := mkVector2d { x : float; y : float }.

(** What [getUnscaledPointer] reads of the Konva stage. *)
Record Stage := mkStage { getPointerPosition : option Vector2d; scaleX : float }.

Record CropRect := mkCropRect {
  cropX : float; cropY : float; cropWidth : float; cropHeight : float
}.

Section State.
Context {Image : Type}.

(** [JSON.parse(JSON.stringify(edits))], the deep copy [pushSnapshot]
    takes.  Nothing is assumed about it. *)
Variable jsonCopy : list Edit -> list Edit.

Record Snapshot := mkSnapshot {
  snapImage : option Image;
  snapEdits : list Edit
}.

Record EditorState := mkEditor {
  history : list Snapshot;
  image : option Image;
  edits : list Edit;
  currentStroke : list float;
  isCropping : bool;
  cropRect : CropRect;
  selectedEditIndex : option nat;
  isAddingText : bool;
  isAddingCircle : bool;
  isHighlighting : bool;
  isDrawingHighlight : bool
}.

(** The state of the first render. *)
Definition initial : EditorState :=
  {| history := []; image := None; edits := []; currentStroke := [];
     isCropping := false;
     cropRect := {| cropX := 50; cropY := 50; cropWidth := 200; cropHeight := 200 |};
     selectedEditIndex := None;
     isAddingText := false; isAddingCircle := false;
     isHighlighting := false; isDrawingHighlight := false |}.

(** *** The state setters *)

Definition setHistory (v : list Snapshot) (p : EditorState) : EditorState :=
  {| history := v; image := image p; edits := edits p;
     currentStroke := currentStroke p; isCropping := isCropping p;
     cropRect := cropRect p; selectedEditIndex := selectedEditIndex p;
     isAddingText := isAddingText p; isAddingCircle := isAddingCircle p;
     isHighlighting := isHighlighting p;
     isDrawingHighlight := isDrawingHighlight p |}.

Definition setImage (v : option Image) (p : EditorState) : EditorState :=
  {| history := history p; image := v; edits := edits p;
     currentStroke := currentStroke p; isCropping := isCropping p;
     cropRect := cropRect p; selectedEditIndex := selectedEditIndex p;
     isAddingText := isAddingText p; isAddingCircle := isAddingCircle p;
     isHighlighting := isHighlighting p;
     isDrawingHighlight := isDrawingHighlight p |}.

Definition setEdits (v : list Edit) (p : EditorState) : EditorState :=
  {| history := history p; image := image p; edits := v;
     currentStroke := currentStroke p; isCropping := isCropping p;
     cropRect := cropRect p; selectedEditIndex := selectedEditIndex p;
     isAddingText := isAddingText p; isAddingCircle := isAddingCircle p;
     isHighlighting := isHighlighting p;
     isDrawingHighlight := isDrawingHighlight p |}.

Definition setCurrentStroke (v : list float) (p : EditorState) : EditorState :=
  {| history := history p; image := image p; edits := edits p;
     currentStroke := v; isCropping := isCropping p;
     cropRect := cropRect p; selectedEditIndex := selectedEditIndex p;
     isAddingText := isAddingText p; isAddingCircle := isAddingCircle p;
     isHighlighting := isHighlighting p;
     isDrawingHighlight := isDrawingHighlight p |}.

Definition setIsCropping (v : bool) (p : EditorState) : EditorState :=
  {| history := history p; image := image p; edits := edits p;
     currentStroke := currentStroke p; isCropping := v;
     cropRect := cropRect p; selectedEditIndex := selectedEditIndex p;
     isAddingText := isAddingText p; isAddingCircle := isAddingCircle p;
     isHighlighting := isHighlighting p;
     isDrawingHighlight := isDrawingHighlight p |}.

Definition setCropRect (v : CropRect) (p : EditorState) : EditorState :=
  {| history := history p; image := image p; edits := edits p;
     currentStroke := currentStroke p; isCropping := isCropping p;
     cropRect := v; selectedEditIndex := selectedEditIndex p;
     isAddingText := isAddingText p; isAddingCircle := isAddingCircle p;
     isHighlighting := isHighlighting p;
     isDrawingHighlight := isDrawingHighlight p |}.

Definition setSelectedEditIndex (v : option nat) (p : EditorState) : EditorState :=
  {| history := history p; image := image p; edits := edits p;
     currentStroke := currentStroke p; isCropping := isCropping p;
     cropRect := cropRect p; selectedEditIndex := v;
     isAddingText := isAddingText p; isAddingCircle := isAddingCircle p;
     isHighlighting := isHighlighting p;
     isDrawingHighlight := isDrawingHighlight p |}.

Definition setIsAddingText (v : bool) (p : EditorState) : EditorState :=
  {| history := history p; image := image p; edits := edits p;
     currentStroke := currentStroke p; isCropping := isCropping p;
     cropRect := cropRect p; selectedEditIndex := selectedEditIndex p;
     isAddingText := v; isAddingCircle := isAddingCircle p;
     isHighlighting := isHighlighting p;
     isDrawingHighlight := isDrawingHighlight p |}.

Definition setIsAddingCircle (v : bool) (p : EditorState) : EditorState :=
  {| history := history p; image := image p; edits := edits p;
     currentStroke := currentStroke p; isCropping := isCropping p;
     cropRect := cropRect p; selectedEditIndex := selectedEditIndex p;
     isAddingText := isAddingText p; isAddingCircle := v;
     isHighlighting := isHighlighting p;
     isDrawingHighlight := isDrawingHighlight p |}.

Definition setIsHighlighting (v : bool) (p : EditorState) : EditorState :=
  {| history := history p; image := image p; edits := edits p;
     currentStroke := currentStroke p; isCropping := isCropping p;
     cropRect := cropRect p; selectedEditIndex := selectedEditIndex p;
     isAddingText := isAddingText p; isAddingCircle := isAddingCircle p;
     isHighlighting := v;
     isDrawingHighlight := isDrawingHighlight p |}.

Definition setIsDrawingHighlight (v : bool) (p : EditorState) : EditorState :=
  {| history := history p; image := image p; edits := edits p;
     currentStroke := currentStroke p; isCropping := isCropping p;
     cropRect := cropRect p; selectedEditIndex := selectedEditIndex p;
     isAddingText := isAddingText p; isAddingCircle := isAddingCircle p;
     isHighlighting := isHighlighting p;
     isDrawingHighlight := v |}.

(** *** Helpers of the component *)

(** [getUnscaledPointer], from [stageRef.current]. *)
Definition getUnscaledPointer (stageRef : option Stage) : option Vector2d :=
  match stageRef with
  | None => None
  | Some stage =>
      match getPointerPosition stage with
      | None => None
      | Some pos =>
          let scale := scaleX stage in
          Some {| x := (x pos / scale)%float; y := (y pos / scale)%float |}
      end
  end.

(** [pushSnapshot]: [image] and [edits] are the closure's, the history is
    the pending one. *)
Definition pushSnapshot (s p : EditorState) : EditorState :=
  setHistory
    (history p ++ [ {| snapImage := image s; snapEdits := jsonCopy (edits s) |} ]) p.

(** [arr.slice(0, end)] *)
Definition sliceTo {T : Type} (arr : list T) (end_ : Z) : list T :=
  take (JsArray.relStart (length arr) end_) arr.

(** The edit a click adds in text mode. *)
Definition newEdit (pos : Vector2d) : Edit :=
  {| type := text;
     data := [ ("text"%string, VStr "click to edit text…");
               ("x"%string, VNum (x pos));
               ("y"%string, VNum (y pos));
               ("fontSize"%string, VNum 30);
               ("width"%string, VNum 150);
               ("fill"%string, VStr "#333");
               ("draggable"%string, VBool true) ] |}.

(** The edit a click adds in circle mode. *)
Definition newCircle (pos : Vector2d) : Edit :=
  {| type := circle;
     data := [ ("x"%string, VNum (x pos));
               ("y"%string, VNum (y pos));
               ("radius"%string, VNum 20);
               ("stroke"%string, VStr "#FF3030");
               ("strokeWidth"%string, VNum 3);
               ("draggable"%string, VBool true) ] |}.

(** The edit a finished stroke adds. *)
Definition newHighlight (points : list float) : Edit :=
  {| type := highlight;
     data := [ ("points"%string, VArr (map VNum points));
               ("stroke"%string, VStr "rgba(255, 255, 0, 0.6)");
               ("strokeWidth"%string, VNum 30);
               ("lineCap"%string, VStr "round");
               ("lineJoin"%string, VStr "round");
               ("listening"%string, VBool false) ] |}.

(** *** The handlers *)

(** [img.onload] of [onDrop]. *)
Definition onDropLoaded (img : Image) (s : EditorState) : EditorState :=
  let p := setImage (Some img) s in
  let p := setEdits [] p in
  setSelectedEditIndex None p.

(** [handleEscape], the [keydown] listener. *)
Definition handleEscape (key : string) (s : EditorState) : EditorState :=
  if String.eqb key "Escape" then
    let p := setIsAddingText false s in
    let p := setIsAddingCircle false p in
    let p := setIsDrawingHighlight false p in
    let p := setCurrentStroke [] p in
    let p := setIsCropping false p in
    setSelectedEditIndex None p
  else s.

Definition handleStageClick (stageRef : option Stage) (s : EditorState) : EditorState :=
  if isAddingText s then
    let p := setIsAddingCircle false s in
    let p := setIsHighlighting false p in
    match getUnscaledPointer stageRef with
    | None => p
    | Some pos =>
        let prev := edits p in
        let idx := length prev in
        let p := setSelectedEditIndex (Some idx) p in
        let p := setEdits (prev ++ [newEdit pos]) p in
        let p := pushSnapshot s p in
        setIsAddingText false p
    end
  else if isAddingCircle s then
    let p := setIsAddingText false s in
    let p := setIsHighlighting false p in
    match getUnscaledPointer stageRef with
    | None => p
    | Some pos =>
        let prev := edits p in
        let idx := length prev in
        let p := setSelectedEditIndex (Some idx) p in
        let p := setEdits (prev ++ [newCircle pos]) p in
        let p := pushSnapshot s p in
        setIsAddingCircle false p
    end
  else s.

(** The array an updater of the form
    [copy = [...eds]; copy[idx] = { ...copy[idx], data: f(copy[idx].data) }]
    returns; reading [data] of [undefined] throws. *)
Definition updateData (idx : nat) (f : Obj -> Obj) (eds : list Edit)
  : option (list Edit) :=
  match eds !! idx with
  | None => None
  | Some e => Some (<[idx := {| type := type e; data := f (data e) |}]> eds)
  end.

Definition updateText (idx : nat) (newText : string) (s : EditorState)
  : option EditorState :=
  match updateData idx (setField "text" (VStr newText)) (edits s) with
  | None => None
  | Some copy => Some (setEdits copy s)
  end.

Definition undo (s : EditorState) : EditorState :=
  let h := history s in
  match last h with
  | None => s
  | Some last_ =>
      let p := setImage (snapImage last_) s in
      let p := setEdits (snapEdits last_) p in
      setHistory (sliceTo h (-1)) p
  end.

(** The four tool buttons. *)
Definition toolTextClick (s : EditorState) : EditorState :=
  let p := setIsAddingText (negb (isAddingText s)) s in
  let p := setIsAddingCircle false p in
  let p := setIsHighlighting false p in
  let p := setIsCropping false p in
  setSelectedEditIndex None p.

Definition toolCircleChange (s : EditorState) : EditorState :=
  let p := setIsAddingText false s in
  let p := setIsAddingCircle true p in
  let p := setIsHighlighting false p in
  let p := setIsCropping false p in
  setSelectedEditIndex None p.

Definition toolHighlightChange (s : EditorState) : EditorState :=
  let p := setIsAddingText false s in
  let p := setIsAddingCircle false p in
  let p := setIsHighlighting true p in
  let p := setIsCropping false p in
  setSelectedEditIndex None p.

Definition toolCropChange (s : EditorState) : EditorState :=
  let p := setIsAddingText false s in
  let p := setIsAddingCircle false p in
  let p := setIsHighlighting false p in
  let p := setIsCropping true p in
  setSelectedEditIndex None p.

(** The mouse handlers of the stage. *)
Definition stageMouseDown (stageRef : option Stage) (s : EditorState) : EditorState :=
  if negb (isHighlighting s) then s
  else match getUnscaledPointer stageRef with
       | None => s
       | Some pos =>
           let p := setCurrentStroke [x pos; y pos] s in
           setIsDrawingHighlight true p
       end.

Definition stageMouseMove (stageRef : option Stage) (s : EditorState) : EditorState :=
  if negb (isHighlighting s) || negb (isDrawingHighlight s) then s
  else match getUnscaledPointer stageRef with
       | None => s
       | Some pos => setCurrentStroke (currentStroke s ++ [x pos; y pos]) s
       end.

Definition stageMouseUp (s : EditorState) : EditorState :=
  if negb (isHighlighting s) || negb (isDrawingHighlight s) then s
  else
    let p := pushSnapshot s s in
    let p := setEdits (edits p ++ [newHighlight (currentStroke s)]) p in
    let p := setCurrentStroke [] p in
    setIsDrawingHighlight false p.

(** [onClick] of the text edit drawn at index [i]: a click on the selected
    text opens the text area ([handleTextClick], which writes no cell). *)
Definition textClick (i : nat) (s : EditorState) : EditorState :=
  if decide (selectedEditIndex s = Some i) then s
  else setSelectedEditIndex (Some i) s.

(** The handlers of the circle drawn at index [i]. *)
Definition circleClick (i : nat) (s : EditorState) : EditorState :=
  setSelectedEditIndex (Some i) s.

Definition circleDragEnd (i : nat) (target : Vector2d) (s : EditorState)
  : option EditorState :=
  match updateData i (fun d => setField "y" (VNum (y target))
                                 (setField "x" (VNum (x target)) d)) (edits s) with
  | None => None
  | Some copy => Some (pushSnapshot s (setEdits copy s))
  end.

Definition circleTransformEnd (i : nat) (radius scale : float) (s : EditorState)
  : option EditorState :=
  let newRadius := (radius * scale)%float in
  match updateData i (setField "radius" (VNum newRadius)) (edits s) with
  | None => None
  | Some copy => Some (pushSnapshot s (setEdits copy s))
  end.

(** The handlers of the crop rectangle. *)
Definition cropDragEnd (target : Vector2d) (s : EditorState) : EditorState :=
  let r := cropRect s in
  setCropRect {| cropX := x target; cropY := y target;
                 cropWidth := cropWidth r; cropHeight := cropHeight r |} s.

Definition cropTransformEnd (pos : Vector2d) (w h sx sy : float) (s : EditorState)
  : EditorState :=
  setCropRect {| cropX := x pos; cropY := y pos;
                 cropWidth := (w * sx)%float; cropHeight := (h * sy)%float |} s.

(** *** Events *)

Inductive Event :=
  | ImageLoaded (img : Image)
  | KeyDown (key : string)
  | StageClick (stageRef : option Stage)
  | StageMouseDown (stageRef : option Stage)
  | StageMouseMove (stageRef : option Stage)
  | StageMouseUp
  | TextEdited (idx : nat) (newText : string)
  | Undo
  | ToolText | ToolCircle | ToolHighlight | ToolCrop
  | TextClick (i : nat)
  | CircleClick (i : nat)
  | CircleDragEnd (i : nat) (target : Vector2d)
  | CircleTransformEnd (i : nat) (radius scale : float)
  | CropDragEnd (target : Vector2d)
  | CropTransformEnd (pos : Vector2d) (w h sx sy : float).

(** The state after an event; [None] when the handler throws. *)
Definition handle (ev : Event) (s : EditorState) : option EditorState :=
  match ev with
  | ImageLoaded img => Some (onDropLoaded img s)
  | KeyDown key => Some (handleEscape key s)
  | StageClick stageRef => Some (handleStageClick stageRef s)
  | StageMouseDown stageRef => Some (stageMouseDown stageRef s)
  | StageMouseMove stageRef => Some (stageMouseMove stageRef s)
  | StageMouseUp => Some (stageMouseUp s)
  | TextEdited idx newText => updateText idx newText s
  | Undo => Some (undo s)
  | ToolText => Some (toolTextClick s)
  | ToolCircle => Some (toolCircleChange s)
  | ToolHighlight => Some (toolHighlightChange s)
  | ToolCrop => Some (toolCropChange s)
  | TextClick i => Some (textClick i s)
  | CircleClick i => Some (circleClick i s)
  | CircleDragEnd i target => circleDragEnd i target s
  | CircleTransformEnd i radius scale => circleTransformEnd i radius scale s
  | CropDragEnd target => Some (cropDragEnd target s)
  | CropTransformEnd pos w h sx sy => Some (cropTransformEnd pos w h sx sy s)
  end.

(** *** Vocabulary *)

(** The number of tools that are switched on. *)
Definition activeTools (s : EditorState) : nat :=
  (Nat.b2n (isAddingText s) + Nat.b2n (isAddingCircle s)
   + Nat.b2n (isHighlighting s) + Nat.b2n (isCropping s))%nat.

(** At most one tool is switched on. *)
Definition exclusive (s : EditorState) : Prop := (activeTools s <= 1)%nat.

(** The index of the edit a handler rewrites. *)
Definition updates (ev : Event) : option nat :=
  match ev with
  | TextEdited idx _ => Some idx
  | CircleDragEnd i _ => Some i
  | CircleTransformEnd i _ _ => Some i
  | _ => None
  end.

(** One highlighter gesture: the button goes down, the pointer moves, the
    button goes up. *)
Definition stroke (down : option Stage) (moves : list (option Stage))
    (s : EditorState) : EditorState :=
  stageMouseUp
    (foldl (fun p m => stageMouseMove m p) (stageMouseDown down s) moves).

(** The states the editor reaches from its first render through these
    handlers. *)
Inductive reachable : EditorState -> Prop :=
  | reach_initial : reachable initial
  | reach_handle s ev s' :
      reachable s -> handle ev s = Some s' -> reachable s'.

End State.

Arguments EditorState : clear implicits.
Arguments Snapshot : clear implicits.
Arguments Event : clear implicits.

(** *** Example states (images are numbered, the copy is the identity) *)

Definition stageAt (px py scale : float) : option Stage :=
  Some {| getPointerPosition := Some {| x := px; y := py |}; scaleX := scale |}.

Definition textMode : EditorState nat := toolTextClick initial.

Definition textAdded : EditorState nat :=
  handleStageClick id (stageAt 10 20 2) textMode.

Definition highlightMode : EditorState nat := toolHighlightChange initial.

End Editor.

(** * Properties *)

(** ** Legality rules *)

Lemma indexOf_RANKS (r : Rank) : JsArray.indexOf RANKS r = rankValue r - 1.
Proof. destruct r; reflexivity. Qed.

Lemma red_differs (s t : Suit) :
  negb (eqb (bool_decide (s = HEARTS) || bool_decide (s = DIAMONDS))
            (bool_decide (t = HEARTS) || bool_decide (t = DIAMONDS))) = true
  <-> color s <> color t.
Proof. destruct s, t; cbn; split; (congruence || discriminate || tauto). Qed.

Lemma last_None_nil {T} (l : list T) : last l = None <-> l = [].
Proof. apply last_None. Qed.

(** C9: [canMoveToFoundation] accepts exactly an Ace on an empty pile, or
    on a non-empty pile the card of the top card's suit whose rank is one
    above the top card's; [canMoveToTableau] accepts exactly a King on an
    empty pile, or on a non-empty pile the card of the other colour whose
    rank is one below the top card's. *)
Theorem legality_rules (card : CardType) (pile : Pile) :
  (canMoveToFoundation card pile = true <->
     (pile = [] /\ rank card = Ace) \/
     (exists top, last pile = Some top /\ suit card = suit top
                  /\ rankValue (rank card) = rankValue (rank top) + 1))
  /\
  (canMoveToTableau card pile = true <->
     (pile = [] /\ rank card = King) \/
     (exists top, last pile = Some top /\ color (suit card) <> color (suit top)
                  /\ rankValue (rank card) = rankValue (rank top) - 1)).
Proof.
  unfold canMoveToFoundation, canMoveToTableau.
  destruct (last pile) as [top|] eqn:Hlast.
  - assert (Hne : pile <> []) by (intros ->; discriminate).
    split.
    + rewrite andb_true_iff, bool_decide_eq_true, Z.eqb_eq, !indexOf_RANKS.
      split.
      * intros [Hs Hr]. right. exists top. repeat split; [done | lia].
      * intros [[Hnil _] | (t & Ht & Hs & Hr)]; [done |].
        injection Ht as <-. split; [done | lia].
    + rewrite andb_true_iff, red_differs, Z.eqb_eq, !indexOf_RANKS.
      split.
      * intros [Hc Hr]. right. exists top. repeat split; [done | lia].
      * intros [[Hnil _] | (t & Ht & Hc & Hr)]; [done |].
        injection Ht as <-. split; [done | lia].
  - apply last_None_nil in Hlast. subst pile.
    split; rewrite bool_decide_eq_true.
    + split; [by left | intros [[_ H] | (t & Ht & _)]; [done | discriminate]].
    + split; [by left | intros [[_ H] | (t & Ht & _)]; [done | discriminate]].
Qed.

(** ** Drawing from the stock *)

Lemma pop_snoc {T} (l : list T) (x : T) : JsArray.pop (l ++ [x]) = l.
Proof.
  unfold JsArray.pop. rewrite length_app. cbn.
  replace (length l + 1 - 1)%nat with (length l) by lia.
  by rewrite take_app_length.
Qed.

(** C4: with a non-empty stock [handleStock] pops the top stock card and
    pushes it, turned face-up, onto the waste; with an empty stock the waste
    in reverse order, every card turned face-down, becomes the stock and the
    waste becomes empty; in every state, also with both piles empty, it sets
    a new state. *)
Theorem handleStock_spec (game : GameState) :
  (forall rest c, stock game = rest ++ [c] ->
     handleStock game =
       SetGame {| stock := rest;
                  waste := waste game
                           ++ [ {| suit := suit c; rank := rank c; isFaceUp := true |} ];
                  foundation := foundation game; tableau := tableau game |})
  /\ (stock game = [] ->
      handleStock game =
        SetGame {| stock := map (fun c => {| suit := suit c; rank := rank c;
                                             isFaceUp := false |})
                              (reverse (waste game));
                   waste := [];
                   foundation := foundation game; tableau := tableau game |})
  /\ (stock game = [] -> waste game = [] ->
      handleStock game =
        SetGame {| stock := []; waste := [];
                   foundation := foundation game; tableau := tableau game |})
  /\ (exists ng, handleStock game = SetGame ng
        /\ (stock game <> [] ->
            exists c, last (waste ng) = Some c /\ isFaceUp c = true)
        /\ (stock game = [] ->
            waste ng = [] /\ Forall (fun c => isFaceUp c = false) (stock ng))).
Proof.
  unfold handleStock. repeat split.
  - intros rest c ->. rewrite last_snoc, pop_snoc. reflexivity.
  - intros ->. reflexivity.
  - intros -> ->. reflexivity.
  - destruct (last (stock game)) as [c|] eqn:Hlast.
    + eexists. split; [reflexivity|]. split.
      * intros _. exists (withFace true c). cbn [waste]. unfold JsArray.push.
        by rewrite last_snoc.
      * intros Hnil. by rewrite Hnil in Hlast.
    + eexists. split; [reflexivity|]. split.
      * intros Hne. by apply last_None_nil in Hlast.
      * intros _. cbn [stock waste]. split; [done|].
        apply Forall_fmap, Forall_true. intros c. reflexivity.
Qed.

Lemma handleStock_spec_witness :
  stock game0 = JsArray.pop (stock game0) ++ [jackOfDiamonds false]
  /\ handleStock game0
     = SetGame {| stock := JsArray.pop (stock game0);
                  waste := [jackOfDiamonds true];
                  foundation := foundation game0; tableau := tableau game0 |}
  /\ stock gameRecycle = []
  /\ last (waste gameRecycle) = Some {| suit := SPADES; rank := King; isFaceUp := true |}
  /\ handleStock gameRecycle = SetGame game0.
Proof.
  assert (Htop : stock game0 = JsArray.pop (stock game0) ++ [jackOfDiamonds false])
    by (vm_compute; reflexivity).
  assert (Hempty : stock gameRecycle = []) by (vm_compute; reflexivity).
  split; [exact Htop|]. split.
  { rewrite (proj1 (handleStock_spec game0) _ _ Htop). vm_compute. reflexivity. }
  split; [exact Hempty|]. split; [vm_compute; reflexivity|].
  rewrite (proj1 (proj2 (handleStock_spec gameRecycle)) Hempty). vm_compute. reflexivity.
Defined.

(** ** Shuffle and deal *)

Section Shuffle.
Context {T : Type}.
Implicit Types arr : list T.

Lemma length_swap arr i j : length (JsArray.swap arr i j) = length arr.
Proof.
  unfold JsArray.swap.
  destruct (arr !! i), (arr !! j); try done.
  by rewrite !length_insert.
Qed.

Lemma Forall_swap (P : T -> Prop) arr i j :
  Forall P arr -> Forall P (JsArray.swap arr i j).
Proof.
  intros HP. unfold JsArray.swap.
  destruct (arr !! i) as [x|] eqn:Hi; [|done].
  destruct (arr !! j) as [y|] eqn:Hj; [|done].
  rewrite Forall_forall in HP.
  apply Forall_insert; [apply Forall_insert |].
  - by apply Forall_forall.
  - apply HP. by eapply list_elem_of_lookup_2.
  - apply HP. by eapply list_elem_of_lookup_2.
Qed.

Lemma swap_Permutation arr i j : JsArray.swap arr i j ≡ₚ arr.
Proof.
  unfold JsArray.swap.
  destruct (arr !! i) as [x|] eqn:Hi; [|done].
  destruct (arr !! j) as [y|] eqn:Hj; [|done].
  destruct (decide (i = j)) as [->|Hne].
  - assert (x = y) as -> by congruence.
    rewrite list_insert_insert_eq. by rewrite list_insert_id.
  - symmetry. apply Permutation_inj. split.
    + by rewrite !length_insert.
    + exists (fun k => if decide (k = i) then j else if decide (k = j) then i else k).
      split.
      * intros a b. repeat case_decide; congruence.
      * intros k. repeat case_decide; subst.
        -- rewrite list_lookup_insert_eq; [done|].
           rewrite length_insert. by eapply lookup_lt_Some.
        -- rewrite list_lookup_insert_ne by done.
           rewrite list_lookup_insert_eq; [done|]. by eapply lookup_lt_Some.
        -- by rewrite !list_lookup_insert_ne.
Qed.
End Shuffle.

Lemma length_shuffleLoop rnd i arr : length (shuffleLoop rnd i arr) = length arr.
Proof.
  revert arr. induction i as [|i IH]; intros arr; [done|].
  cbn [shuffleLoop]. by rewrite IH, length_swap.
Qed.

Lemma Forall_shuffleLoop (P : CardType -> Prop) rnd i arr :
  Forall P arr -> Forall P (shuffleLoop rnd i arr).
Proof.
  revert arr. induction i as [|i IH]; intros arr HP; [done|].
  cbn [shuffleLoop]. by apply IH, Forall_swap.
Qed.

Lemma shuffleLoop_Permutation rnd i arr : shuffleLoop rnd i arr ≡ₚ arr.
Proof.
  revert arr. induction i as [|i IH]; intros arr; [done|].
  cbn [shuffleLoop]. by rewrite IH, swap_Permutation.
Qed.

Lemma length_shuffleDeck rnd deck : length (shuffleDeck rnd deck) = length deck.
Proof. apply length_shuffleLoop. Qed.

(** The shuffle rearranges the deck: nothing is added or dropped. *)
Lemma shuffleDeck_Permutation rnd deck : shuffleDeck rnd deck ≡ₚ deck.
Proof. apply shuffleLoop_Permutation. Qed.

Lemma createDeck_faceDown : Forall faceDown createDeck.
Proof. unfold faceDown. repeat constructor. Qed.

(** What the nested loops do to any deck of 52 cards. *)
Lemma deal_52 (deck : list CardType) :
  length deck = 52%nat ->
  exists tab,
    deal deck = Some (take 24 deck, tab)
    /\ map length tab = [1; 2; 3; 4; 5; 6; 7]%nat
    /\ Forall onlyTopFaceUp tab.
Proof.
  intros Hlen. explode_deck deck Hlen.
  eexists. split; [vm_compute; reflexivity|].
  split; [reflexivity|].
  unfold onlyTopFaceUp. repeat constructor.
Qed.

(** C7 (amended): the deal gives tableau pile [i] exactly [i + 1] cards (not
    [7 - i]), for [i] from 0 to 6, only the last card dealt to each pile is
    face-up, and the 24 cards left of a face-down deck of 52 are the
    face-down stock. *)
Theorem deal_triangular (deck : list CardType) :
  length deck = 52%nat ->
  Forall faceDown deck ->
  exists rest tab,
    deal deck = Some (rest, tab)
    /\ length tab = 7%nat
    /\ (forall i pile, tab !! i = Some pile ->
          length pile = (i + 1)%nat /\ onlyTopFaceUp pile)
    /\ rest = take 24 deck
    /\ length rest = 24%nat
    /\ Forall faceDown rest.
Proof.
  intros Hlen Hdown.
  destruct (deal_52 deck Hlen) as (tab & Hdeal & Hsizes & Htop).
  exists (take 24 deck), tab.
  assert (Hlt : length tab = 7%nat).
  { rewrite <- (length_map length tab), Hsizes. reflexivity. }
  repeat split; try done.
  - assert (Hi : map length tab !! i = Some (length pile)).
    { by rewrite list_lookup_fmap, H. }
    rewrite Hsizes in Hi.
    do 7 (destruct i as [|i]; [cbn in Hi; injection Hi as <-; reflexivity|]).
    discriminate Hi.
  - rewrite Forall_forall in Htop. apply Htop. by eapply list_elem_of_lookup_2.
  - rewrite length_take. lia.
  - by apply Forall_take.
Qed.

Lemma deal_triangular_witness :
  exists rest tab,
    deal createDeck = Some (rest, tab)
    /\ length tab = 7%nat
    /\ (forall i pile, tab !! i = Some pile ->
          length pile = (i + 1)%nat /\ onlyTopFaceUp pile)
    /\ rest = take 24 createDeck
    /\ length rest = 24%nat
    /\ Forall faceDown rest.
Proof.
  apply (deal_triangular createDeck); [reflexivity | exact createDeck_faceDown].
Defined.

(** C7, as stated, fails: pile 0 receives one card, not seven. *)
Lemma deal_pile0_not_seven :
  exists g pile,
    initializeGame (fun i => i) = Some g
    /\ tableau g !! 0%nat = Some pile
    /\ length pile = 1%nat
    /\ length pile <> (7 - 0)%nat.
Proof.
  eexists _, _. split; [vm_compute; reflexivity|].
  split; [reflexivity|]. split; [reflexivity | discriminate].
Qed.

(** C8: whatever the shuffle, [initializeGame] yields tableau piles of sizes
    1, 2, ..., 7 in pile order, each with only its last card face-up, and a
    stock of exactly 24 cards. *)
Theorem initializeGame_shape (rnd : nat -> nat) :
  exists g,
    initializeGame rnd = Some g
    /\ map length (tableau g) = [1; 2; 3; 4; 5; 6; 7]%nat
    /\ Forall onlyTopFaceUp (tableau g)
    /\ length (stock g) = 24%nat.
Proof.
  assert (Hlen : length (shuffleDeck rnd createDeck) = 52%nat).
  { by rewrite length_shuffleDeck. }
  destruct (deal_52 _ Hlen) as (tab & Hdeal & Hsizes & Htop).
  unfold initializeGame. rewrite Hdeal.
  eexists. split; [reflexivity|]. cbn [stock tableau].
  repeat split; try done.
  rewrite length_take, Hlen. reflexivity.
Qed.

(** ** Arrays, loops and completions *)

Section ArrayFacts.
Context {T : Type}.
Implicit Types l : list T.

Lemma get_of_nat l (i : nat) : JsArray.get l (Z.of_nat i) = l !! i.
Proof.
  unfold JsArray.get. rewrite decide_True by lia. by rewrite Nat2Z.id.
Qed.

Lemma get_Some_inv l k x :
  JsArray.get l k = Some x -> 0 <= k /\ l !! Z.to_nat k = Some x.
Proof. unfold JsArray.get. case_decide; [done | discriminate]. Qed.

Lemma get_Some_range l k x :
  JsArray.get l k = Some x -> 0 <= k < Z.of_nat (length l).
Proof.
  intros [H0 Hl]%get_Some_inv. apply lookup_lt_Some in Hl. lia.
Qed.

Lemma get_in_range l k :
  0 <= k < Z.of_nat (length l) -> exists x, JsArray.get l k = Some x.
Proof.
  intros Hk. unfold JsArray.get. rewrite decide_True by lia.
  apply lookup_lt_is_Some_2. lia.
Qed.

Lemma get_out_of_range l k :
  ~ (0 <= k < Z.of_nat (length l)) -> JsArray.get l k = None.
Proof.
  intros Hk. destruct (JsArray.get l k) eqn:H; [|done].
  apply get_Some_range in H. lia.
Qed.

Lemma relStart_nat (len n : nat) :
  JsArray.relStart len (Z.of_nat n) = (n `min` len)%nat.
Proof.
  unfold JsArray.relStart.
  destruct (Z.ltb_spec (Z.of_nat n) 0); lia.
Qed.

Lemma slice_nat l (n : nat) : JsArray.slice l (Z.of_nat n) = drop n l.
Proof.
  unfold JsArray.slice. rewrite relStart_nat.
  destruct (Nat.min_spec n (length l)) as [[_ ->] | [Hle ->]]; [done|].
  by rewrite !drop_ge by lia.
Qed.

Lemma splice_nat l (n : nat) : JsArray.splice l (Z.of_nat n) = take n l.
Proof.
  unfold JsArray.splice. rewrite relStart_nat.
  destruct (Nat.min_spec n (length l)) as [[_ ->] | [Hle ->]]; [done|].
  by rewrite !take_ge by lia.
Qed.

Lemma splice1_nat l (n : nat) :
  JsArray.splice1 l (Z.of_nat n) = take n l ++ drop (S n) l.
Proof.
  unfold JsArray.splice1. rewrite relStart_nat.
  destruct (Nat.min_spec n (length l)) as [[_ ->] | [Hle ->]]; [done|].
  by rewrite !take_ge, !drop_ge by lia.
Qed.

(** [slice] and [splice] cut the array at the same place. *)
Lemma splice_slice l k : JsArray.splice l k ++ JsArray.slice l k = l.
Proof. apply take_drop. Qed.

Lemma slice_nonempty l k :
  l <> [] -> k < Z.of_nat (length l) -> JsArray.slice l k <> [].
Proof.
  intros Hne Hk Hnil. apply (f_equal length) in Hnil.
  unfold JsArray.slice in Hnil. rewrite length_drop in Hnil. cbn in Hnil.
  assert (0 < length l)%nat by (destruct l; [done | cbn; lia]).
  unfold JsArray.relStart in Hnil.
  destruct (Z.ltb_spec k 0); lia.
Qed.

Lemma slice_beyond l k : Z.of_nat (length l) <= k -> JsArray.slice l k = [].
Proof.
  intros Hk. unfold JsArray.slice, JsArray.relStart.
  destruct (Z.ltb_spec k 0); [lia|]. apply drop_ge. lia.
Qed.

Lemma insert_alter l (i : nat) (x : T) (f : T -> T) :
  l !! i = Some x -> <[i := f x]> l = alter f i l.
Proof.
  intros Hi. apply list_eq. intros j.
  destruct (decide (i = j)) as [<-|Hne].
  - rewrite list_lookup_insert_eq by (by eapply lookup_lt_Some).
    by rewrite list_lookup_alter_eq, Hi.
  - by rewrite list_lookup_insert_ne, list_lookup_alter_ne.
Qed.
End ArrayFacts.

Section Loops.
Context {R : Type}.
Implicit Types body : nat -> option R.

Lemma forReturn_first body lo n i r :
  (lo <= i < lo + n)%nat ->
  (forall k, (lo <= k < i)%nat -> body k = None) ->
  body i = Some r ->
  JsArray.forReturn lo n body = Some r.
Proof.
  revert lo. induction n as [|n IH]; intros lo Hi Hbefore Hat; [lia|].
  cbn [JsArray.forReturn].
  destruct (decide (lo = i)) as [->|Hne].
  - by rewrite Hat.
  - rewrite Hbefore by lia. apply IH; [lia | | done].
    intros k Hk. apply Hbefore. lia.
Qed.

Lemma forReturn_none body lo n :
  (forall k, (lo <= k < lo + n)%nat -> body k = None) ->
  JsArray.forReturn lo n body = None.
Proof.
  revert lo. induction n as [|n IH]; intros lo Hall; [done|].
  cbn [JsArray.forReturn]. rewrite Hall by lia. apply IH.
  intros k Hk. apply Hall. lia.
Qed.

Lemma forReturn_Some_inv body lo n r :
  JsArray.forReturn lo n body = Some r ->
  exists i, (lo <= i < lo + n)%nat /\ body i = Some r.
Proof.
  revert lo. induction n as [|n IH]; intros lo H; [discriminate|].
  cbn [JsArray.forReturn] in H.
  destruct (body lo) as [r'|] eqn:Hlo.
  - injection H as ->. exists lo. split; [lia | done].
  - destruct (IH _ H) as (i & Hi & Hbody). exists i. split; [lia | done].
Qed.
End Loops.

Lemma updateCards_Some piles k cards f :
  JsArray.get piles k = Some cards ->
  updateCards piles k f = Normal (<[Z.to_nat k := f cards]> piles).
Proof. intros H. unfold updateCards, cardsOf. by rewrite H. Qed.

Lemma updateCards_nat piles (i : nat) cards f :
  piles !! i = Some cards ->
  updateCards piles (Z.of_nat i) f = Normal (alter f i piles).
Proof.
  intros H. rewrite (updateCards_Some _ _ cards) by (by rewrite get_of_nat).
  rewrite Nat2Z.id. by rewrite (insert_alter _ _ _ _ H).
Qed.

Lemma updateCards_None piles k f :
  JsArray.get piles k = None -> updateCards piles k f = Abrupt TypeError.
Proof. intros H. unfold updateCards, cardsOf. by rewrite H. Qed.

Lemma cardsOf_nat piles (i : nat) cards :
  piles !! i = Some cards -> cardsOf piles (Z.of_nat i) = Normal cards.
Proof. intros H. unfold cardsOf. by rewrite get_of_nat, H. Qed.

(** ** Clicking a card *)

Section Click.
Variables (game : GameState) (card : CardType).
Variables (srcType : string) (srcIdx index : Z).

(** The first loop stops at the first foundation pile that accepts. *)
Lemma foundation_loop_first i :
  firstAccepting (canMoveToFoundation card) (foundation game) i ->
  JsArray.forReturn 0 (length (foundation game))
    (clickToFoundation game card srcType srcIdx index)
  = clickToFoundation game card srcType srcIdx index i.
Proof.
  intros [(cards & Hi & Hacc) Hbefore].
  assert (Hlt : (i < length (foundation game))%nat) by (by eapply lookup_lt_Some).
  assert (Hat : is_Some (clickToFoundation game card srcType srcIdx index i)).
  { unfold clickToFoundation. rewrite Hi, Hacc. eauto. }
  destruct Hat as [r Hr]. rewrite Hr.
  apply forReturn_first with (i := i); [lia | | done].
  intros k Hk. unfold clickToFoundation.
  destruct (lookup_lt_is_Some_2 (foundation game) k) as [ck Hck]; [lia|].
  rewrite Hck, (Hbefore k ck); [done | lia | done].
Qed.

Lemma foundation_loop_none :
  noneAccepts (canMoveToFoundation card) (foundation game) ->
  JsArray.forReturn 0 (length (foundation game))
    (clickToFoundation game card srcType srcIdx index) = None.
Proof.
  intros Hnone. apply forReturn_none. intros k Hk.
  unfold clickToFoundation.
  destruct (lookup_lt_is_Some_2 (foundation game) k) as [ck Hck]; [lia|].
  by rewrite Hck, (Hnone k ck).
Qed.

(** The second loop stops at the first tableau pile that accepts. *)
Lemma tableau_loop_first i :
  firstAccepting (canMoveToTableau card) (tableau game) i ->
  JsArray.forReturn 0 (length (tableau game))
    (clickToTableau game card srcType srcIdx index)
  = clickToTableau game card srcType srcIdx index i.
Proof.
  intros [(cards & Hi & Hacc) Hbefore].
  assert (Hlt : (i < length (tableau game))%nat) by (by eapply lookup_lt_Some).
  assert (Hat : is_Some (clickToTableau game card srcType srcIdx index i)).
  { unfold clickToTableau. rewrite Hi, Hacc. eauto. }
  destruct Hat as [r Hr]. rewrite Hr.
  apply forReturn_first with (i := i); [lia | | done].
  intros k Hk. unfold clickToTableau.
  destruct (lookup_lt_is_Some_2 (tableau game) k) as [ck Hck]; [lia|].
  rewrite Hck, (Hbefore k ck); [done | lia | done].
Qed.

Lemma tableau_loop_none :
  noneAccepts (canMoveToTableau card) (tableau game) ->
  JsArray.forReturn 0 (length (tableau game))
    (clickToTableau game card srcType srcIdx index) = None.
Proof.
  intros Hnone. apply forReturn_none. intros k Hk.
  unfold clickToTableau.
  destruct (lookup_lt_is_Some_2 (tableau game) k) as [ck Hck]; [lia|].
  by rewrite Hck, (Hnone k ck).
Qed.
End Click.

(** The card goes to foundation pile [i]: what the first loop's body does
    for a card shown at [src]. *)
Lemma clickToFoundation_at game card src i cards :
  ~ fromFoundation src ->
  clickedAt game src card ->
  foundation game !! i = Some cards ->
  canMoveToFoundation card cards = true ->
  clickToFoundation game card (srcTypeOf src) (srcIdxOf src) (clickIndexOf game src) i
  = Some (SetGame (withFoundation (withoutCard game src)
                     (putOn (foundation game) i [card]))).
Proof.
  intros Hsrc Hat Hi Hacc. unfold clickToFoundation. rewrite Hi, Hacc.
  destruct src as [|s n|s]; cbn [srcTypeOf srcIdxOf clickIndexOf withoutCard].
  - cbn. rewrite (updateCards_nat _ _ cards) by done. reflexivity.
  - destruct Hat as (col & Hcol & Hn). cbn.
    rewrite (updateCards_nat _ _ col) by done. cbn.
    rewrite (updateCards_nat _ _ cards) by done. cbn.
    unfold withTableau, withFoundation, putOn. cbn. do 3 f_equal.
    apply list_alter_ext; [|done]. intros c _. by rewrite splice1_nat.
  - destruct Hsrc. by exists s.
Qed.

(** The run goes to tableau pile [i]: what the second loop's body does. *)
Lemma clickToTableau_at game card src i cards :
  clickedAt game src card ->
  tableau game !! i = Some cards ->
  canMoveToTableau card cards = true ->
  clickToTableau game card (srcTypeOf src) (srcIdxOf src) (clickIndexOf game src) i
  = Some (SetGame (withTableau (withoutRun game src)
                     (putOn (tableau (withoutRun game src)) i (runFrom game src card)))).
Proof.
  intros Hat Hi Hacc. unfold clickToTableau. rewrite Hi, Hacc.
  destruct src as [|s n|s]; cbn [srcTypeOf srcIdxOf clickIndexOf withoutRun runFrom].
  - cbn. rewrite (updateCards_nat _ _ cards) by done. reflexivity.
  - destruct Hat as (col & Hcol & Hn). cbn.
    rewrite (updateCards_nat _ _ col) by done. cbn.
    rewrite (cardsOf_nat _ _ col) by done. cbn.
    assert (Ht : alter (fun c => flipTop (JsArray.splice c (Z.of_nat n))) s (tableau game)
                 = alter (fun c => flipTop (take n c)) s (tableau game)).
    { apply list_alter_ext; [|done]. intros c _. by rewrite splice_nat. }
    rewrite Ht, slice_nat, Hcol. cbn [default].
    destruct (lookup_lt_is_Some_2 (alter (fun c => flipTop (take n c)) s (tableau game)) i)
      as [ci Hci].
    { rewrite length_alter. by eapply lookup_lt_Some. }
    rewrite (updateCards_nat _ _ ci) by done. reflexivity.
  - destruct Hat as (col & Hcol & Hlast). cbn.
    rewrite (updateCards_nat _ _ col) by done. cbn.
    rewrite (updateCards_nat _ _ cards) by done. reflexivity.
Qed.

Lemma handleCardClick_other game card srcType srcIdx index :
  String.eqb srcType "foundation" = false ->
  handleCardClick game card srcType srcIdx index =
    match JsArray.forReturn 0 (length (foundation game))
            (clickToFoundation game card srcType srcIdx index) with
    | Some o => o
    | None =>
        match JsArray.forReturn 0 (length (tableau game))
                (clickToTableau game card srcType srcIdx index) with
        | Some o => o
        | None => NoUpdate
        end
    end.
Proof. intros H. unfold handleCardClick. by rewrite H. Qed.

Lemma handleCardClick_foundation game card srcIdx index :
  handleCardClick game card "foundation" srcIdx index =
    match JsArray.forReturn 0 (length (tableau game))
            (clickToTableau game card "foundation" srcIdx index) with
    | Some o => o
    | None => NoUpdate
    end.
Proof. reflexivity. Qed.

Lemma srcTypeOf_foundation src :
  String.eqb (srcTypeOf src) "foundation" = true <-> fromFoundation src.
Proof.
  destruct src; cbn; split; try discriminate; try (intros [? [=]]); eauto.
  intros _. by eexists.
Qed.

(** The tableau loop is reached when the source is a foundation pile or no
    foundation pile accepts the card. *)
Lemma handleCardClick_tableau_loop game card src :
  fromFoundation src \/ noneAccepts (canMoveToFoundation card) (foundation game) ->
  handleCardClick game card (srcTypeOf src) (srcIdxOf src) (clickIndexOf game src) =
    match JsArray.forReturn 0 (length (tableau game))
            (clickToTableau game card (srcTypeOf src) (srcIdxOf src)
               (clickIndexOf game src)) with
    | Some o => o
    | None => NoUpdate
    end.
Proof.
  intros [[s ->] | Hnone]; [apply handleCardClick_foundation|].
  destruct (String.eqb (srcTypeOf src) "foundation") eqn:Hsrc.
  - apply srcTypeOf_foundation in Hsrc as [s ->]. apply handleCardClick_foundation.
  - rewrite handleCardClick_other by done.
    by rewrite foundation_loop_none.
Qed.


Lemma game0_dealt : initializeGame acesOnTop = Some game0.
Proof. vm_compute. reflexivity. Qed.

Lemma game1_dropped : dropCards game0 "tableau" 0 0 "foundation" 0 = SetGame game1.
Proof. vm_compute. reflexivity. Qed.

Lemma game2_dropped : dropCards game1 "tableau" 2 2 "tableau" 1 = SetGame game2.
Proof. vm_compute. reflexivity. Qed.

Lemma game3_dropped : dropCards game2 "tableau" 1 1 "foundation" 0 = SetGame game3.
Proof. vm_compute. reflexivity. Qed.


Lemma game0_reachable : reachable game0.
Proof. apply (reach_new acesOnTop). exact game0_dealt. Qed.

Lemma game1_reachable : reachable game1.
Proof. eapply reach_drop; [exact game0_reachable | exact game1_dropped]. Qed.

Lemma game2_reachable : reachable game2.
Proof. eapply reach_drop; [exact game1_reachable | exact game2_dropped]. Qed.

Lemma game3_reachable : reachable game3.
Proof. eapply reach_drop; [exact game2_reachable | exact game3_dropped]. Qed.




(** ** A card clicked in the middle of a tableau pile *)

Lemma withFace_same (c : CardType) (b : bool) : isFaceUp c = b -> withFace b c = c.
Proof. intros <-. by destruct c. Qed.

Lemma map_withFace_faceUp (l : list CardType) :
  Forall faceUp l -> map (withFace true) l = l.
Proof.
  induction 1 as [|c l Hc _ IH]; [done|].
  cbn [map]. by rewrite (withFace_same c), IH.
Qed.

Lemma flipTop_faceUp (col : Pile) (c : CardType) :
  last col = Some c -> faceUp c -> flipTop col = col.
Proof.
  intros Hlast Hup. unfold flipTop.
  destruct (Nat.eqb_spec (length col) 0) as [|Hne]; [done|].
  apply list_eq. intros k.
  destruct (decide (k = (length col - 1)%nat)) as [->|Hk].
  - rewrite list_lookup_alter_eq. rewrite last_lookup in Hlast.
    replace (Init.Nat.pred (length col)) with (length col - 1)%nat in Hlast by lia.
    rewrite Hlast. cbn. by rewrite withFace_same.
  - by rewrite list_lookup_alter_ne.
Qed.

(** C10: a card clicked in the middle of a tableau pile, with face-up cards
    on top of it, that some foundation pile accepts leaves the pile alone:
    the cards above it stay, one position lower, and the card is pushed onto
    the first accepting foundation pile.  The suffix moves as a whole only
    when the destination is a tableau pile. *)
Theorem click_middle_card (game : GameState) (s : nat)
    (below above : list CardType) (card : CardType) :
  tableau game !! s = Some (below ++ card :: above) ->
  above <> [] ->
  Forall faceUp above ->
  faceUp card ->
  (forall i,
      firstAccepting (canMoveToFoundation card) (foundation game) i ->
      handleCardClick game card "tableau" (Z.of_nat s) (Z.of_nat (length below))
      = SetGame {| stock := stock game; waste := waste game;
                   foundation := putOn (foundation game) i [card];
                   tableau := <[s := below ++ above]> (tableau game) |})
  /\ (forall j,
        noneAccepts (canMoveToFoundation card) (foundation game) ->
        firstAccepting (canMoveToTableau card) (tableau game) j ->
        handleCardClick game card "tableau" (Z.of_nat s) (Z.of_nat (length below))
        = SetGame {| stock := stock game; waste := waste game;
                     foundation := foundation game;
                     tableau := putOn (<[s := flipTop below]> (tableau game)) j
                                  (card :: above) |}).
Proof.
  intros Hcol Habove Hup Hcard.
  assert (Hlt : (s < length (tableau game))%nat) by (by eapply lookup_lt_Some).
  assert (Htake : take (length below) (below ++ card :: above) = below).
  { by rewrite take_app_length. }
  assert (Hdrop : drop (length below) (below ++ card :: above) = card :: above).
  { by rewrite drop_app_length. }
  split.
  - intros i Hfirst.
    rewrite (handleCardClick_other _ _ "tableau") by reflexivity.
    rewrite (foundation_loop_first _ _ _ _ _ i Hfirst).
    destruct Hfirst as [(cards & Hi & Hacc) _].
    pose proof (clickToFoundation_at game card (OnTableau s (length below)) i cards)
      as Hbody.
    cbn [srcTypeOf srcIdxOf clickIndexOf] in Hbody.
    rewrite Hbody; [ | intros [? [=]] | | done | done].
    + cbn [withoutCard]. unfold withFoundation, withTableau. cbn. do 3 f_equal.
      rewrite <- (insert_alter _ _ _ _ Hcol). f_equal.
      rewrite Htake.
      replace (drop (S (length below)) (below ++ card :: above)) with above.
      * destruct (last above) as [top|] eqn:Htop.
        -- apply (flipTop_faceUp _ top).
           ++ by rewrite last_app, Htop.
           ++ rewrite Forall_forall in Hup. apply Hup.
              apply last_Some in Htop as [l' ->].
              apply elem_of_app. right. by apply list_elem_of_singleton.
        -- by apply last_None in Htop.
      * replace (S (length below)) with (length (below ++ [card]))
          by (rewrite length_app; cbn; lia).
        rewrite (cons_middle card below above), (app_assoc below [card] above).
        by rewrite drop_app_length.
    + exists (below ++ card :: above). split; [done|].
      by rewrite lookup_app_r, Nat.sub_diag by lia.
  - intros j Hnone Hfirst.
    pose proof (handleCardClick_tableau_loop game card (OnTableau s (length below)))
      as Hloop.
    cbn [srcTypeOf srcIdxOf clickIndexOf] in Hloop.
    rewrite Hloop by (by right).
    rewrite (tableau_loop_first _ _ _ _ _ j Hfirst).
    destruct Hfirst as [(cards & Hj & Hacc) _].
    pose proof (clickToTableau_at game card (OnTableau s (length below)) j cards)
      as Hbody.
    cbn [srcTypeOf srcIdxOf clickIndexOf] in Hbody.
    rewrite Hbody; [ | | done | done].
    + cbn [withoutRun runFrom]. unfold withTableau. cbn. do 2 f_equal.
      rewrite Hcol. unfold default, id.
      rewrite <- (insert_alter _ _ _ _ Hcol), Htake, Hdrop. f_equal.
      cbn [map]. rewrite (withFace_same card) by done.
      by rewrite map_withFace_faceUp.
    + exists (below ++ card :: above). split; [done|].
      by rewrite lookup_app_r, Nat.sub_diag by lia.
Qed.

Lemma click_middle_card_witness :
  tableau game2 !! 1%nat = Some ([queenOfSpades false] ++ twoOfHearts :: [aceOfSpades])
  /\ firstAccepting (canMoveToFoundation twoOfHearts) (foundation game2) 0
  /\ handleCardClick game2 twoOfHearts "tableau" (Z.of_nat 1)
       (Z.of_nat (length [queenOfSpades false]))
     = SetGame {| stock := stock game2; waste := waste game2;
                  foundation := putOn (foundation game2) 0 [twoOfHearts];
                  tableau := <[1%nat := [queenOfSpades false] ++ [aceOfSpades]]>
                               (tableau game2) |}.
Proof.
  assert (Hcol : tableau game2 !! 1%nat
                 = Some ([queenOfSpades false] ++ twoOfHearts :: [aceOfSpades])).
  { vm_compute. reflexivity. }
  assert (Hfirst : firstAccepting (canMoveToFoundation twoOfHearts) (foundation game2) 0).
  { split; [eexists; split; vm_compute; reflexivity | intros k cards Hk; lia]. }
  split; [exact Hcol|]. split; [exact Hfirst|].
  apply (proj1 (click_middle_card game2 1 [queenOfSpades false] [aceOfSpades]
                  twoOfHearts Hcol
                  ltac:(discriminate)
                  ltac:(repeat constructor)
                  ltac:(reflexivity)) 0%nat Hfirst).
Defined.

(** ** Dropping a run *)

#[local] Arguments JsArray.slice : simpl never.
#[local] Arguments JsArray.splice : simpl never.
#[local] Arguments JsArray.pop : simpl never.
#[local] Arguments JsArray.push : simpl never.
#[local] Arguments flipTop : simpl never.

Lemma updateCards_in_range piles k f :
  pileIndex piles k ->
  exists piles', updateCards piles k f = Normal piles' /\ length piles' = length piles.
Proof.
  intros [cards Hget]%get_in_range.
  rewrite (updateCards_Some _ _ cards) by done.
  eexists. split; [done|]. by rewrite length_insert.
Qed.

Lemma targetPile_exists game tgtType tgtIdx :
  targetExists game tgtType tgtIdx <-> is_Some (targetPile game tgtType tgtIdx).
Proof.
  unfold targetExists, targetPile, pileIndex.
  destruct (String.eqb tgtType "foundation"); split.
  - intros [x Hx]%get_in_range. eauto.
  - intros [x Hx]. by eapply get_Some_range.
  - intros [x Hx]%get_in_range. eauto.
  - intros [x Hx]. by eapply get_Some_range.
Qed.

Lemma head_slice_Some (cards : Pile) idx :
  cards <> [] -> idx < Z.of_nat (length cards) ->
  is_Some (head (JsArray.slice cards idx)).
Proof.
  intros Hne Hidx. pose proof (slice_nonempty cards idx Hne Hidx) as Hs.
  destruct (JsArray.slice cards idx); [done | cbn; eauto].
Qed.

Lemma last_is_Some {T} (l : list T) : l <> [] -> is_Some (last l).
Proof.
  intros Hne. destruct (last l) eqn:E; [eauto|]. by apply last_None in E.
Qed.

Lemma sourceHasRun_first game srcType srcIdx idx :
  sourceHasRun game srcType srcIdx idx ->
  is_Some (firstOfRun game srcType srcIdx idx).
Proof.
  unfold firstOfRun.
  intros [[-> Hw] | [[-> (cards & Hget & Hne & Hidx)] | [-> (cards & Hget & Hne)]]]; cbn.
  - by apply last_is_Some.
  - rewrite Hget. by apply head_slice_Some.
  - rewrite Hget. by apply last_is_Some.
Qed.

Lemma knownSource_cases srcType :
  knownSource srcType \/
  (String.eqb srcType "waste" = false /\ String.eqb srcType "tableau" = false
   /\ String.eqb srcType "foundation" = false).
Proof.
  unfold knownSource.
  destruct (String.eqb_spec srcType "waste"); [by left; left|].
  destruct (String.eqb_spec srcType "tableau"); [by left; right; left|].
  destruct (String.eqb_spec srcType "foundation"); [by left; right; right|].
  by right.
Qed.

(** A move whose run and target exist: the rule decides between a new
    state and no update. *)
Lemma moveCards_decided game srcType srcIdx idx tgtType tgtIdx first tgtPile :
  firstOfRun game srcType srcIdx idx = Some first ->
  targetPile game tgtType tgtIdx = Some tgtPile ->
  (legal tgtType first tgtPile = false ->
     moveCards game srcType srcIdx idx tgtType tgtIdx = NoUpdate)
  /\ (legal tgtType first tgtPile = true ->
      exists ng, moveCards game srcType srcIdx idx tgtType tgtIdx = SetGame ng
                 /\ stock ng = stock game
                 /\ length (foundation ng) = length (foundation game)
                 /\ length (tableau ng) = length (tableau game)).
Proof.
  unfold firstOfRun, targetPile, legal, moveCards.
  intros Hfirst Htgt.
  destruct (knownSource_cases srcType) as [[-> | [-> | ->]] | (Ew & Et & Ef)];
    cbn [String.eqb Ascii.eqb Bool.eqb orb] in *.
  - (* waste *)
    cbn. rewrite Hfirst. cbn.
    destruct (String.eqb tgtType "foundation") eqn:Etgt; unfold cardsOf;
      rewrite Htgt; cbn.
    + destruct (canMoveToFoundation first tgtPile); split; try done; intros _; cbn.
      rewrite (updateCards_Some _ _ tgtPile) by done. cbn.
      eexists. split; [done|]. cbn. by rewrite length_insert.
    + destruct (canMoveToTableau first tgtPile); split; try done; intros _; cbn.
      rewrite (updateCards_Some _ _ tgtPile) by done. cbn.
      eexists. split; [done|]. cbn. by rewrite length_insert.
  - (* tableau *)
    destruct (JsArray.get (tableau game) srcIdx) as [cards|] eqn:Hsrc; [|done].
    unfold cardsOf. cbn. rewrite Hsrc. cbn.
    destruct (String.eqb tgtType "foundation") eqn:Etgt; rewrite Htgt; cbn;
      rewrite Hfirst; cbn.
    + destruct (canMoveToFoundation first tgtPile); split; try done; intros _; cbn.
      rewrite (updateCards_Some _ _ cards) by done. cbn.
      rewrite (updateCards_Some _ _ tgtPile) by done. cbn.
      eexists. split; [done|]. cbn. by rewrite !length_insert.
    + destruct (canMoveToTableau first tgtPile); split; try done; intros _; cbn.
      rewrite (updateCards_Some _ _ cards) by done. cbn.
      destruct (updateCards_in_range
                  (<[Z.to_nat srcIdx := flipTop (JsArray.splice cards idx)]> (tableau game))
                  tgtIdx (fun c => JsArray.push c (JsArray.slice cards idx)))
        as (t & Ht & Hlen).
      { unfold pileIndex. rewrite length_insert. by eapply get_Some_range. }
      rewrite Ht. cbn. eexists. split; [done|]. cbn.
      by rewrite Hlen, length_insert.
  - (* foundation *)
    destruct (JsArray.get (foundation game) srcIdx) as [cards|] eqn:Hsrc; [|done].
    unfold cardsOf. cbn. rewrite Hsrc. cbn.
    destruct (String.eqb tgtType "foundation") eqn:Etgt; rewrite Htgt; cbn;
      rewrite Hfirst; cbn.
    + destruct (canMoveToFoundation first tgtPile); split; try done; intros _; cbn.
      rewrite (updateCards_Some _ _ cards) by done. cbn.
      destruct (updateCards_in_range
                  (<[Z.to_nat srcIdx := JsArray.pop cards]> (foundation game))
                  tgtIdx (fun c => JsArray.push c [first]))
        as (f & Hf & Hlen).
      { unfold pileIndex. rewrite length_insert. by eapply get_Some_range. }
      rewrite Hf. cbn. eexists. split; [done|]. cbn.
      by rewrite Hlen, length_insert.
    + destruct (canMoveToTableau first tgtPile); split; try done; intros _; cbn.
      rewrite (updateCards_Some _ _ cards) by done. cbn.
      rewrite (updateCards_Some _ _ tgtPile) by done. cbn.
      eexists. split; [done|]. cbn. by rewrite !length_insert.
  - rewrite Ew, Et, Ef in Hfirst. discriminate.
Qed.

(** A move from a known source type throws when the source pile or its run
    or the target pile is missing. *)
Lemma moveCards_throws game srcType srcIdx idx tgtType tgtIdx :
  knownSource srcType ->
  firstOfRun game srcType srcIdx idx = None \/ targetPile game tgtType tgtIdx = None ->
  moveCards game srcType srcIdx idx tgtType tgtIdx = TypeError.
Proof.
  unfold firstOfRun, targetPile, moveCards, cardsOf.
  intros [-> | [-> | ->]] Hmissing; cbn [String.eqb Ascii.eqb Bool.eqb orb] in *; cbn.
  - destruct (String.eqb tgtType "foundation");
      (destruct (JsArray.get _ tgtIdx) as [tgtPile|]; [|done]); cbn;
      destruct Hmissing as [-> | [=]]; done.
  - destruct (JsArray.get (tableau game) srcIdx) as [cards|] eqn:Hsrc; [|done]. cbn.
    destruct (String.eqb tgtType "foundation");
      (destruct (JsArray.get _ tgtIdx) as [tgtPile|]; [|done]); cbn;
      destruct Hmissing as [-> | [=]]; done.
  - destruct (JsArray.get (foundation game) srcIdx) as [cards|] eqn:Hsrc; [|done]. cbn.
    destruct (String.eqb tgtType "foundation");
      (destruct (JsArray.get _ tgtIdx) as [tgtPile|]; [|done]); cbn;
      destruct Hmissing as [-> | [=]]; done.
Qed.

Lemma moveCards_unknown_source game srcType srcIdx idx tgtType tgtIdx :
  ~ knownSource srcType ->
  moveCards game srcType srcIdx idx tgtType tgtIdx = NoUpdate.
Proof.
  intros Hunknown.
  destruct (knownSource_cases srcType) as [Hknown | (Ew & Et & Ef)]; [done|].
  unfold moveCards. by rewrite Ew, Et, Ef.
Qed.

Lemma moveCards_returns game srcType srcIdx idx tgtType tgtIdx :
  sourceHasRun game srcType srcIdx idx ->
  targetExists game tgtType tgtIdx ->
  returns (moveCards game srcType srcIdx idx tgtType tgtIdx).
Proof.
  intros [first Hfirst]%sourceHasRun_first [tgtPile Htgt]%targetPile_exists.
  destruct (moveCards_decided _ _ _ _ _ _ _ _ Hfirst Htgt) as [Hno Hyes].
  unfold returns.
  destruct (legal tgtType first tgtPile).
  - destruct Hyes as (ng & -> & _); done.
  - by rewrite Hno.
Qed.

(** ** Clicks do not throw on an existing source pile *)

Lemma clickToFoundation_returns game card srcType srcIdx index i o :
  sourceExists game srcType srcIdx ->
  String.eqb srcType "foundation" = false ->
  (i < length (foundation game))%nat ->
  clickToFoundation game card srcType srcIdx index i = Some o ->
  exists ng, o = SetGame ng
             /\ stock ng = stock game
             /\ length (foundation ng) = length (foundation game)
             /\ length (tableau ng) = length (tableau game).
Proof.
  intros Hsrc Hnf Hlt. unfold clickToFoundation.
  destruct (lookup_lt_is_Some_2 _ _ Hlt) as [cards Hi]. rewrite Hi.
  destruct (canMoveToFoundation card cards); [|discriminate].
  intros [= <-].
  destruct Hsrc as [-> | [[-> Hs] | [-> Hs]]]; [| |discriminate]; cbn.
  - rewrite (updateCards_nat _ _ cards) by done. cbn.
    eexists. split; [done|]. cbn. by rewrite length_alter.
  - destruct (updateCards_in_range (tableau game) srcIdx
                (fun col => flipTop (JsArray.splice1 col index)) Hs) as (t & -> & Hlen).
    cbn. rewrite (updateCards_nat _ _ cards) by done. cbn.
    eexists. split; [done|]. cbn. by rewrite length_alter.
Qed.

Lemma clickToTableau_returns game card srcType srcIdx index i o :
  sourceExists game srcType srcIdx ->
  (i < length (tableau game))%nat ->
  clickToTableau game card srcType srcIdx index i = Some o ->
  exists ng, o = SetGame ng
             /\ stock ng = stock game
             /\ length (foundation ng) = length (foundation game)
             /\ length (tableau ng) = length (tableau game).
Proof.
  intros Hsrc Hlt. unfold clickToTableau.
  destruct (lookup_lt_is_Some_2 _ _ Hlt) as [cards Hi]. rewrite Hi.
  destruct (canMoveToTableau card cards); [|discriminate].
  intros [= <-].
  destruct Hsrc as [-> | [[-> Hs] | [-> Hs]]]; cbn.
  - rewrite (updateCards_nat _ _ cards) by done. cbn.
    eexists. split; [done|]. cbn. by rewrite length_alter.
  - destruct (updateCards_in_range (tableau game) srcIdx
                (fun col => flipTop (JsArray.splice col index)) Hs) as (t & -> & Hlen).
    cbn. destruct (get_in_range _ _ Hs) as [col Hcol].
    unfold cardsOf. rewrite Hcol. cbn.
    destruct (updateCards_in_range t (Z.of_nat i)
                (fun c => JsArray.push c (map (withFace true) (JsArray.slice col index))))
      as (t' & -> & Hlen').
    { unfold pileIndex. lia. }
    cbn. eexists. split; [done|]. cbn. split; [done|]. split; [done | lia].
  - destruct (updateCards_in_range (foundation game) srcIdx JsArray.pop Hs)
      as (f & -> & Hlen).
    cbn. rewrite (updateCards_nat _ _ cards) by done. cbn.
    eexists. split; [done|]. cbn. by rewrite length_alter.
Qed.

(** A click on an existing source pile sets a new state with the same
    stock and the same number of piles, or updates nothing. *)
Lemma handleCardClick_decided game card srcType srcIdx index :
  sourceExists game srcType srcIdx ->
  handleCardClick game card srcType srcIdx index = NoUpdate
  \/ exists ng, handleCardClick game card srcType srcIdx index = SetGame ng
                /\ stock ng = stock game
                /\ length (foundation ng) = length (foundation game)
                /\ length (tableau ng) = length (tableau game).
Proof.
  intros Hsrc. unfold handleCardClick.
  assert (Htab :
    match JsArray.forReturn 0 (length (tableau game))
            (clickToTableau game card srcType srcIdx index) with
    | Some o => o
    | None => NoUpdate
    end = NoUpdate
    \/ exists ng,
        match JsArray.forReturn 0 (length (tableau game))
                (clickToTableau game card srcType srcIdx index) with
        | Some o => o
        | None => NoUpdate
        end = SetGame ng
        /\ stock ng = stock game
        /\ length (foundation ng) = length (foundation game)
        /\ length (tableau ng) = length (tableau game)).
  { destruct (JsArray.forReturn _ _ (clickToTableau _ _ _ _ _)) as [o|] eqn:Hloop;
      [|by left].
    apply forReturn_Some_inv in Hloop as (i & Hi & Hbody).
    apply clickToTableau_returns in Hbody as (ng & -> & Hng); [|done|lia].
    right. by exists ng. }
  destruct (String.eqb srcType "foundation") eqn:Hnf; cbn [negb]; [done|].
  destruct (JsArray.forReturn _ _ (clickToFoundation _ _ _ _ _)) as [o|] eqn:Hloop;
    [|done].
  apply forReturn_Some_inv in Hloop as (i & Hi & Hbody).
  apply clickToFoundation_returns in Hbody as (ng & -> & Hng); [|done|done|lia].
  right. by exists ng.
Qed.

(** ** The number of piles never changes *)

Lemma moveCards_SetGame_inv game srcType srcIdx idx tgtType tgtIdx ng :
  moveCards game srcType srcIdx idx tgtType tgtIdx = SetGame ng ->
  stock ng = stock game
  /\ length (foundation ng) = length (foundation game)
  /\ length (tableau ng) = length (tableau game).
Proof.
  intros Hmove.
  destruct (knownSource_cases srcType) as [Hknown | (Ew & Et & Ef)].
  2:{ unfold moveCards in Hmove. by rewrite Ew, Et, Ef in Hmove. }
  destruct (firstOfRun game srcType srcIdx idx) as [first|] eqn:Hfirst.
  2:{ rewrite moveCards_throws in Hmove by auto. discriminate. }
  destruct (targetPile game tgtType tgtIdx) as [tgtPile|] eqn:Htgt.
  2:{ rewrite moveCards_throws in Hmove by auto. discriminate. }
  destruct (moveCards_decided _ _ _ _ _ _ _ _ Hfirst Htgt) as [Hno Hyes].
  destruct (legal tgtType first tgtPile).
  - destruct Hyes as (ng' & Hng & Hrest); [done|]. congruence.
  - rewrite Hno in Hmove by done. discriminate.
Qed.

Lemma dropCards_SetGame_inv game srcType srcIdx idx tgtType tgtIdx ng :
  dropCards game srcType srcIdx idx tgtType tgtIdx = SetGame ng ->
  moveCards game srcType srcIdx idx tgtType tgtIdx = SetGame ng.
Proof.
  unfold dropCards.
  destruct (renderedCard game srcType srcIdx idx); [|done].
  by destruct (_ && _).
Qed.

Lemma renderedCard_sourceExists game srcType srcIdx index card :
  renderedCard game srcType srcIdx index = Some card ->
  sourceExists game srcType srcIdx.
Proof.
  unfold renderedCard, sourceExists, pileIndex.
  destruct (String.eqb_spec srcType "waste"); [by left|].
  destruct (String.eqb_spec srcType "foundation").
  { destruct (JsArray.get (foundation game) srcIdx) eqn:Hget; [|done].
    intros _. right. right. split; [done|]. by eapply get_Some_range. }
  destruct (String.eqb_spec srcType "tableau"); [|done].
  destruct (JsArray.get (tableau game) srcIdx) eqn:Hget; [|done].
  intros _. right. left. split; [done|]. by eapply get_Some_range.
Qed.

Lemma initializeGame_piles rnd g :
  initializeGame rnd = Some g ->
  stock g = take 24 (shuffleDeck rnd createDeck)
  /\ waste g = []
  /\ foundation g = replicate 4 []
  /\ map length (tableau g) = [1; 2; 3; 4; 5; 6; 7]%nat.
Proof.
  unfold initializeGame.
  assert (Hlen : length (shuffleDeck rnd createDeck) = 52%nat).
  { by rewrite length_shuffleDeck. }
  revert Hlen. generalize (shuffleDeck rnd createDeck). intros deck Hlen.
  destruct (deal_52 deck Hlen) as (tab & -> & Hsizes & _).
  intros [= <-]. done.
Qed.

Lemma reachable_piles (g : GameState) :
  reachable g -> length (foundation g) = 4%nat /\ length (tableau g) = 7%nat.
Proof.
  induction 1 as [rnd g Hinit | g ng _ IH Hstock
                 | g srcType srcIdx idx tgtType tgtIdx ng _ IH Hmove
                 | g srcType srcIdx index ng _ IH Hclick].
  - apply initializeGame_piles in Hinit as (_ & _ & -> & Hsizes).
    split; [done|]. by rewrite <- (length_map length (tableau g)), Hsizes.
  - unfold handleStock in Hstock.
    destruct (last (stock g)); injection Hstock as <-; done.
  - apply dropCards_SetGame_inv in Hmove.
    apply moveCards_SetGame_inv in Hmove as (_ & -> & ->). done.
  - unfold clickCard in Hclick.
    destruct (renderedCard g srcType srcIdx index) as [card|] eqn:Hcard; [|done].
    destruct (isFaceUp card); [|done].
    apply renderedCard_sourceExists in Hcard.
    destruct (handleCardClick_decided g card srcType srcIdx index Hcard)
      as [Hno | (ng' & Hng & _ & Hf & Ht)]; [congruence|].
    assert (ng' = ng) as -> by congruence. lia.
Qed.

(** ** Totality and malformed requests *)

Lemma firstOfRun_none game srcType srcIdx idx :
  knownSource srcType ->
  ~ sourceHasRun game srcType srcIdx idx ->
  firstOfRun game srcType srcIdx idx = None.
Proof.
  intros [-> | [-> | ->]] Hno; unfold firstOfRun; cbn [String.eqb Ascii.eqb Bool.eqb].
  - destruct (waste game) as [|c w] eqn:Hw; [done|].
    destruct Hno. left. by rewrite Hw.
  - destruct (JsArray.get (tableau game) srcIdx) as [cards|] eqn:Hget; [|done].
    destruct cards as [|c cards]; [unfold JsArray.slice; by rewrite drop_nil|].
    destruct (decide (idx < Z.of_nat (length (c :: cards)))) as [Hlt|Hge].
    + destruct Hno. right. left. split; [done|]. by exists (c :: cards).
    + by rewrite slice_beyond by lia.
  - destruct (JsArray.get (foundation game) srcIdx) as [cards|] eqn:Hget; [|done].
    destruct cards as [|c cards]; [done|].
    destruct Hno. right. right. split; [done|]. by exists (c :: cards).
Qed.

Lemma forReturn_None_inv {R} (body : nat -> option R) lo n :
  JsArray.forReturn lo n body = None ->
  forall k, (lo <= k < lo + n)%nat -> body k = None.
Proof.
  revert lo. induction n as [|n IH]; intros lo H k Hk; [lia|].
  cbn [JsArray.forReturn] in H.
  destruct (body lo) as [r|] eqn:Hlo; [discriminate|].
  destruct (decide (k = lo)) as [->|Hne]; [done|].
  apply (IH (S lo)); [done | lia].
Qed.

(** A click finds no pile that accepts the card: nothing happens, whatever
    the source. *)
Lemma handleCardClick_nothing game card srcType srcIdx index :
  srcType = "foundation"%string \/ noneAccepts (canMoveToFoundation card) (foundation game) ->
  noneAccepts (canMoveToTableau card) (tableau game) ->
  handleCardClick game card srcType srcIdx index = NoUpdate.
Proof.
  intros Hf Ht. unfold handleCardClick.
  rewrite tableau_loop_none by done.
  destruct (String.eqb_spec srcType "foundation") as [->|Hne]; [done|].
  cbn [negb]. destruct Hf as [->|Hf]; [done|].
  by rewrite foundation_loop_none.
Qed.

(** The loop bodies of a click whose tableau or foundation source pile does
    not exist: a pile that accepts the card makes the body throw. *)
Lemma clickToFoundation_missing game card srcIdx index i o :
  ~ pileIndex (tableau game) srcIdx ->
  clickToFoundation game card "tableau" srcIdx index i = Some o -> o = TypeError.
Proof.
  intros Hsrc. unfold clickToFoundation.
  destruct (foundation game !! i) as [cards|]; [|by intros [= <-]].
  destruct (canMoveToFoundation card cards); [|done].
  cbn [String.eqb Ascii.eqb Bool.eqb].
  rewrite updateCards_None by (by apply get_out_of_range).
  by intros [= <-].
Qed.

Lemma clickToTableau_missing game card srcType srcIdx index i o :
  (srcType = "tableau"%string /\ ~ pileIndex (tableau game) srcIdx)
  \/ (srcType = "foundation"%string /\ ~ pileIndex (foundation game) srcIdx) ->
  clickToTableau game card srcType srcIdx index i = Some o -> o = TypeError.
Proof.
  intros Hsrc. unfold clickToTableau.
  destruct (tableau game !! i) as [cards|]; [|by intros [= <-]].
  destruct (canMoveToTableau card cards); [|done].
  destruct Hsrc as [[-> Hsrc] | [-> Hsrc]]; cbn [String.eqb Ascii.eqb Bool.eqb];
    rewrite updateCards_None by (by apply get_out_of_range); by intros [= <-].
Qed.

Lemma loop_none_noneAccepts_foundation game card srcType srcIdx index :
  JsArray.forReturn 0 (length (foundation game))
    (clickToFoundation game card srcType srcIdx index) = None ->
  noneAccepts (canMoveToFoundation card) (foundation game).
Proof.
  intros Hnone k cards Hk.
  pose proof (forReturn_None_inv _ _ _ Hnone k) as Hbody.
  apply lookup_lt_Some in Hk as Hlt.
  specialize (Hbody ltac:(lia)). unfold clickToFoundation in Hbody.
  rewrite Hk in Hbody. by destruct (canMoveToFoundation card cards).
Qed.

Lemma loop_none_noneAccepts_tableau game card srcType srcIdx index :
  JsArray.forReturn 0 (length (tableau game))
    (clickToTableau game card srcType srcIdx index) = None ->
  noneAccepts (canMoveToTableau card) (tableau game).
Proof.
  intros Hnone k cards Hk.
  pose proof (forReturn_None_inv _ _ _ Hnone k) as Hbody.
  apply lookup_lt_Some in Hk as Hlt.
  specialize (Hbody ltac:(lia)). unfold clickToTableau in Hbody.
  rewrite Hk in Hbody. by destruct (canMoveToTableau card cards).
Qed.

(** A click from a tableau or foundation pile that does not exist throws as
    soon as a pile of its search accepts the card. *)
Lemma handleCardClick_throws game card srcType srcIdx index :
  (srcType = "tableau"%string /\ ~ pileIndex (tableau game) srcIdx)
  \/ (srcType = "foundation"%string /\ ~ pileIndex (foundation game) srcIdx) ->
  (srcType <> "foundation"%string
   /\ ~ noneAccepts (canMoveToFoundation card) (foundation game))
  \/ ~ noneAccepts (canMoveToTableau card) (tableau game) ->
  handleCardClick game card srcType srcIdx index = TypeError.
Proof.
  intros Hsrc Hacc. unfold handleCardClick.
  assert (Htab : forall o,
    JsArray.forReturn 0 (length (tableau game))
      (clickToTableau game card srcType srcIdx index) = Some o -> o = TypeError).
  { intros o Ho. apply forReturn_Some_inv in Ho as (i & _ & Hi).
    by eapply clickToTableau_missing. }
  destruct (String.eqb_spec srcType "foundation") as [->|Hne]; cbn [negb].
  - destruct Hacc as [[Hne _] | Hacc]; [done|].
    destruct (JsArray.forReturn _ _ _) as [o|] eqn:Ho; [by apply Htab|].
    destruct Hacc. by eapply loop_none_noneAccepts_tableau.
  - destruct Hsrc as [[-> Hsrc] | [-> _]]; [|done].
    destruct (JsArray.forReturn 0 (length (foundation game)) _) as [o|] eqn:Hf.
    + apply forReturn_Some_inv in Hf as (i & _ & Hi).
      by eapply clickToFoundation_missing.
    + destruct (JsArray.forReturn 0 (length (tableau game)) _) as [o|] eqn:Ho;
        [by apply Htab|].
      destruct Hacc as [[_ Hacc] | Hacc]; destruct Hacc.
      * by eapply loop_none_noneAccepts_foundation.
      * by eapply loop_none_noneAccepts_tableau.
Qed.

(** C5 (amended): [handleStock] sets a state in every state.  [moveCards]
    returns without throwing when the source pile exists and has a card at
    the start index and the target pile exists: a move the rule rejects
    leaves the state as it is; it is also a no-op for an unknown source
    type.  [handleCardClick] returns without throwing when the source pile
    exists.  In a reachable state the existing piles are foundation 0..3 and
    tableau 0..6.  For a source of type waste, tableau or foundation,
    [moveCards] throws a TypeError when the source has no card at the start
    index or the target pile does not exist.  [handleCardClick] returns
    without a state update when no pile of its search accepts the card,
    whatever the source; it throws a TypeError when the source is a tableau
    or foundation pile that does not exist and a pile of its search accepts
    the card. *)
Theorem handlers_return (game : GameState) :
  (exists ng, handleStock game = SetGame ng)
  /\ (forall srcType srcIdx idx tgtType tgtIdx,
        sourceHasRun game srcType srcIdx idx ->
        targetExists game tgtType tgtIdx ->
        returns (moveCards game srcType srcIdx idx tgtType tgtIdx))
  /\ (forall srcType srcIdx idx tgtType tgtIdx first tgtPile,
        firstOfRun game srcType srcIdx idx = Some first ->
        targetPile game tgtType tgtIdx = Some tgtPile ->
        legal tgtType first tgtPile = false ->
        stateAfter game (moveCards game srcType srcIdx idx tgtType tgtIdx) = game)
  /\ (forall srcType srcIdx idx tgtType tgtIdx,
        ~ knownSource srcType ->
        moveCards game srcType srcIdx idx tgtType tgtIdx = NoUpdate)
  /\ (forall card srcType srcIdx index,
        sourceExists game srcType srcIdx ->
        returns (handleCardClick game card srcType srcIdx index))
  /\ (reachable game ->
      length (foundation game) = 4%nat /\ length (tableau game) = 7%nat)
  /\ (forall srcType srcIdx idx tgtType tgtIdx,
        knownSource srcType ->
        ~ sourceHasRun game srcType srcIdx idx \/ ~ targetExists game tgtType tgtIdx ->
        moveCards game srcType srcIdx idx tgtType tgtIdx = TypeError)
  /\ (forall card srcType srcIdx index,
        srcType = "foundation"%string
        \/ noneAccepts (canMoveToFoundation card) (foundation game) ->
        noneAccepts (canMoveToTableau card) (tableau game) ->
        handleCardClick game card srcType srcIdx index = NoUpdate)
  /\ (forall card srcType srcIdx index,
        (srcType = "tableau"%string /\ ~ pileIndex (tableau game) srcIdx)
        \/ (srcType = "foundation"%string /\ ~ pileIndex (foundation game) srcIdx) ->
        (srcType <> "foundation"%string
         /\ ~ noneAccepts (canMoveToFoundation card) (foundation game))
        \/ ~ noneAccepts (canMoveToTableau card) (tableau game) ->
        handleCardClick game card srcType srcIdx index = TypeError).
Proof.
  split; [unfold handleStock; destruct (last (stock game)); eauto|].
  split; [intros; by apply moveCards_returns|].
  split.
  { intros srcType srcIdx idx tgtType tgtIdx first tgtPile Hfirst Htgt Hillegal.
    destruct (moveCards_decided _ _ _ _ _ _ _ _ Hfirst Htgt) as [-> _]; done. }
  split; [intros; by apply moveCards_unknown_source|].
  split.
  { intros card srcType srcIdx index Hsrc. unfold returns.
    destruct (handleCardClick_decided game card srcType srcIdx index Hsrc)
      as [-> | (ng & -> & _)]; done. }
  split; [apply reachable_piles|].
  split.
  { intros srcType srcIdx idx tgtType tgtIdx Hknown [Hsrc | Htgt];
      apply moveCards_throws; try done.
    - left. by apply firstOfRun_none.
    - right. destruct (targetPile game tgtType tgtIdx) eqn:E; [|done].
      destruct Htgt. apply targetPile_exists. eauto. }
  split; [intros; by apply handleCardClick_nothing|].
  intros. by apply handleCardClick_throws.
Qed.

Lemma handlers_return_witness :
  sourceHasRun game0 "tableau" 1 1
  /\ targetExists game0 "tableau" 3
  /\ returns (moveCards game0 "tableau" 1 1 "tableau" 3)
  /\ ~ pileIndex (tableau game0) 7
  /\ noneAccepts (canMoveToFoundation fiveOfHearts) (foundation game0)
  /\ noneAccepts (canMoveToTableau fiveOfHearts) (tableau game0)
  /\ handleCardClick game0 fiveOfHearts "tableau" 7 0 = NoUpdate
  /\ ~ noneAccepts (canMoveToFoundation aceOfHearts) (foundation game0)
  /\ handleCardClick game0 aceOfHearts "tableau" 7 0 = TypeError
  /\ ~ sourceHasRun game0 "tableau" 0 1
  /\ moveCards game0 "tableau" 0 1 "foundation" 0 = TypeError.
Proof.
  assert (Hsrc : sourceHasRun game0 "tableau" 1 1).
  { right. left. split; [reflexivity|]. eexists.
    split; [vm_compute; reflexivity|]. split; [discriminate | reflexivity]. }
  assert (Htgt : targetExists game0 "tableau" 3).
  { split; [discriminate | reflexivity]. }
  assert (Hmissing : ~ pileIndex (tableau game0) 7).
  { intros [_ H]. vm_compute in H. discriminate H. }
  assert (Hnof : noneAccepts (canMoveToFoundation fiveOfHearts) (foundation game0)).
  { intros k cards Hk. apply list_elem_of_lookup_2 in Hk. revert cards Hk.
    apply Forall_forall. apply (bool_decide_unpack _). vm_compute. reflexivity. }
  assert (Hnot : noneAccepts (canMoveToTableau fiveOfHearts) (tableau game0)).
  { intros k cards Hk. apply list_elem_of_lookup_2 in Hk. revert cards Hk.
    apply Forall_forall. apply (bool_decide_unpack _). vm_compute. reflexivity. }
  assert (Hacc : ~ noneAccepts (canMoveToFoundation aceOfHearts) (foundation game0)).
  { intros Hnone. specialize (Hnone 0%nat [] eq_refl). discriminate Hnone. }
  assert (Hnorun : ~ sourceHasRun game0 "tableau" 0 1).
  { intros [[H _] | [[_ (cards & Hget & _ & Hlt)] | [H _]]]; try discriminate H.
    vm_compute in Hget. injection Hget as <-. vm_compute in Hlt. discriminate Hlt. }
  split; [exact Hsrc|]. split; [exact Htgt|].
  split.
  { exact (proj1 (proj2 (handlers_return game0)) "tableau"%string 1 1 "tableau"%string 3
             Hsrc Htgt). }
  split; [exact Hmissing|]. split; [exact Hnof|]. split; [exact Hnot|].
  split.
  { exact (proj1 (proj2 (proj2 (proj2 (proj2 (proj2 (proj2 (proj2
             (handlers_return game0))))))))
             fiveOfHearts "tableau"%string 7 0 (or_intror Hnof) Hnot). }
  split; [exact Hacc|].
  split.
  { apply (proj2 (proj2 (proj2 (proj2 (proj2 (proj2 (proj2 (proj2
             (handlers_return game0))))))))).
    - left. split; [reflexivity | exact Hmissing].
    - left. split; [discriminate | exact Hacc]. }
  split; [exact Hnorun|].
  apply (proj1 (proj2 (proj2 (proj2 (proj2 (proj2 (proj2
           (handlers_return game0)))))))).
  - right. by left.
  - left. exact Hnorun.
Defined.

(** C5, as stated, fails: in the freshly dealt game a drop from the pile id
    "tableau-7", a drop onto "foundation-4", a drop from a start index past
    the end of the pile, and a click with the pile id "tableau-7" all throw
    instead of returning a state. *)
Lemma handlers_throw_out_of_range :
  reachable game0
  /\ moveCards game0 "tableau" 7 0 "foundation" 0 = TypeError
  /\ moveCards game0 "tableau" 0 0 "foundation" 4 = TypeError
  /\ moveCards game0 "tableau" 0 5 "foundation" 0 = TypeError
  /\ handleCardClick game0 aceOfHearts "tableau" 7 0 = TypeError.
Proof.
  split; [exact game0_reachable|].
  repeat split; vm_compute; reflexivity.
Qed.

Lemma relStart_negative (len : nat) (start : Z) :
  start < 0 ->
  JsArray.relStart len start
  = JsArray.relStart len (Z.max (Z.of_nat len + start) 0).
Proof.
  intros Hneg. unfold JsArray.relStart.
  destruct (start <? 0) eqn:E1; [|lia].
  destruct (Z.max (Z.of_nat len + start) 0 <? 0) eqn:E2; lia.
Qed.

(** A move from a tableau pile reads the start index through the start
    position of [slice] and [splice] only. *)
Lemma moveCards_relStart game srcIdx idx idx' tgtType tgtIdx cards :
  JsArray.get (tableau game) srcIdx = Some cards ->
  JsArray.relStart (length cards) idx = JsArray.relStart (length cards) idx' ->
  moveCards game "tableau" srcIdx idx tgtType tgtIdx
  = moveCards game "tableau" srcIdx idx' tgtType tgtIdx.
Proof.
  intros Hget Hstart. unfold moveCards, cardsOf.
  cbn [String.eqb Ascii.eqb Bool.eqb orb].
  rewrite Hget. cbn [defined mbind completion_bind].
  rewrite !(updateCards_Some _ _ cards) by done.
  unfold JsArray.slice, JsArray.splice. rewrite Hstart. reflexivity.
Qed.

Lemma moveCards_other_target game srcType srcIdx idx tgtType tgtIdx :
  tgtType <> "foundation"%string ->
  moveCards game srcType srcIdx idx tgtType tgtIdx
  = moveCards game srcType srcIdx idx "tableau" tgtIdx.
Proof.
  intros Hne. unfold moveCards.
  destruct (String.eqb_spec tgtType "foundation") as [->|_]; [done|].
  reflexivity.
Qed.

(** C6 (amended): there is no InvalidArgument outcome.  A move from an
    unknown source type returns without a state update, the very outcome of
    a well-formed move that the rule rejects.  A tableau or foundation source
    pile index that does not exist, a start index at or past the end of the
    tableau source pile, or, for a source of type waste, tableau or
    foundation, a target pile index that does not exist makes [moveCards]
    throw a TypeError.  A target type other than "foundation" is read as a
    tableau pile, and a negative start index counts from the end of the
    tableau source pile: it acts as the length of the pile plus the index,
    or as 0 when that is negative. *)
Theorem moveCards_malformed (game : GameState)
    (srcType : string) (srcIdx idx : Z) (tgtType : string) (tgtIdx : Z) :
  (~ knownSource srcType ->
     moveCards game srcType srcIdx idx tgtType tgtIdx = NoUpdate)
  /\ (forall first tgtPile,
        firstOfRun game srcType srcIdx idx = Some first ->
        targetPile game tgtType tgtIdx = Some tgtPile ->
        legal tgtType first tgtPile = false ->
        moveCards game srcType srcIdx idx tgtType tgtIdx = NoUpdate)
  /\ (srcType = "tableau"%string -> ~ pileIndex (tableau game) srcIdx ->
      moveCards game srcType srcIdx idx tgtType tgtIdx = TypeError)
  /\ (srcType = "foundation"%string -> ~ pileIndex (foundation game) srcIdx ->
      moveCards game srcType srcIdx idx tgtType tgtIdx = TypeError)
  /\ (srcType = "tableau"%string ->
      forall cards, JsArray.get (tableau game) srcIdx = Some cards ->
                    Z.of_nat (length cards) <= idx ->
      moveCards game srcType srcIdx idx tgtType tgtIdx = TypeError)
  /\ (knownSource srcType -> ~ targetExists game tgtType tgtIdx ->
      moveCards game srcType srcIdx idx tgtType tgtIdx = TypeError)
  /\ (tgtType <> "foundation"%string ->
      moveCards game srcType srcIdx idx tgtType tgtIdx
      = moveCards game srcType srcIdx idx "tableau" tgtIdx)
  /\ (srcType = "tableau"%string ->
      forall cards, JsArray.get (tableau game) srcIdx = Some cards ->
                    idx < 0 ->
      moveCards game srcType srcIdx idx tgtType tgtIdx
      = moveCards game srcType srcIdx (Z.max (Z.of_nat (length cards) + idx) 0)
          tgtType tgtIdx).
Proof.
  split; [apply moveCards_unknown_source|].
  split.
  { intros first tgtPile Hfirst Htgt Hillegal.
    by destruct (moveCards_decided _ _ _ _ _ _ _ _ Hfirst Htgt) as [-> _]. }
  split.
  { intros -> Hsrc. apply moveCards_throws; [right; by left|]. left.
    unfold firstOfRun. cbn. by rewrite get_out_of_range. }
  split.
  { intros -> Hsrc. apply moveCards_throws; [right; by right|]. left.
    unfold firstOfRun. cbn. by rewrite get_out_of_range. }
  split.
  { intros -> cards Hget Hidx. apply moveCards_throws; [right; by left|]. left.
    unfold firstOfRun. cbn. by rewrite Hget, slice_beyond. }
  split.
  { intros Hknown Htgt. apply moveCards_throws; [done|]. right.
    destruct (targetPile game tgtType tgtIdx) eqn:E; [|done].
    destruct Htgt. apply targetPile_exists. eauto. }
  split; [apply moveCards_other_target|].
  intros -> cards Hget Hneg.
  apply (moveCards_relStart _ _ _ _ _ _ cards Hget).
  by apply relStart_negative.
Qed.

Lemma moveCards_malformed_witness :
  ~ knownSource "stock"
  /\ moveCards game0 "stock" 0 0 "foundation" 0 = NoUpdate
  /\ JsArray.get (tableau game2) 1
     = Some [queenOfSpades false; twoOfHearts; aceOfSpades]
  /\ moveCards game2 "tableau" 1 (-2) "foundation" 0
     = moveCards game2 "tableau" 1 1 "foundation" 0
  /\ moveCards game2 "tableau" 1 (-2) "foundation" 0 = SetGame game3.
Proof.
  assert (Hunknown : ~ knownSource "stock").
  { intros [H | [H | H]]; discriminate H. }
  assert (Hget : JsArray.get (tableau game2) 1
                 = Some [queenOfSpades false; twoOfHearts; aceOfSpades])
    by (vm_compute; reflexivity).
  assert (Hneg : moveCards game2 "tableau" 1 (-2) "foundation" 0
                 = moveCards game2 "tableau" 1 1 "foundation" 0).
  { exact (proj2 (proj2 (proj2 (proj2 (proj2 (proj2 (proj2
             (moveCards_malformed game2 "tableau" 1 (-2) "foundation" 0)))))))
             eq_refl _ Hget eq_refl). }
  split; [exact Hunknown|].
  split; [exact (proj1 (moveCards_malformed game0 "stock" 0 0 "foundation" 0) Hunknown)|].
  split; [exact Hget|]. split; [exact Hneg|].
  rewrite Hneg. vm_compute. reflexivity.
Defined.

(** C6, as stated, fails: the unknown pile id "stock-0" and the out-of-range
    start index [-9] give the outcome of a rejected move (here the Two of
    hearts dropped on the empty foundation 0), so a caller cannot tell the
    bad request from the illegal move. *)
Lemma malformed_move_looks_rejected :
  firstOfRun game0 "tableau" 1 1 = Some twoOfHearts
  /\ targetPile game0 "foundation" 0 = Some []
  /\ legal "foundation" twoOfHearts [] = false
  /\ moveCards game0 "tableau" 1 1 "foundation" 0 = NoUpdate
  /\ moveCards game0 "stock" 0 0 "foundation" 0 = NoUpdate
  /\ moveCards game0 "tableau" 1 (-9) "foundation" 0 = NoUpdate.
Proof. repeat split; vm_compute; reflexivity. Qed.

(** ** A run dropped on a foundation pile *)

(** C2 at the failing input: tableau pile 1 holds the face-up run Two of
    hearts, Ace of spades above a face-down Queen, and foundation 0 holds the
    Ace of hearts.  Dropping the run on foundation 0 passes the rule for its
    first card; the whole run leaves the tableau pile, and only the first
    card arrives on the foundation pile. *)
Theorem drop_run_on_foundation :
  tableau game2 !! 1%nat = Some [queenOfSpades false; twoOfHearts; aceOfSpades]
  /\ foundation game2 !! 0%nat = Some [aceOfHearts]
  /\ JsArray.slice [queenOfSpades false; twoOfHearts; aceOfSpades] 1
     = [twoOfHearts; aceOfSpades]
  /\ canMoveToFoundation twoOfHearts [aceOfHearts] = true
  /\ moveCards game2 "tableau" 1 1 "foundation" 0 = SetGame game3
  /\ tableau game3 !! 1%nat = Some [queenOfSpades true]
  /\ foundation game3 !! 0%nat = Some [aceOfHearts; twoOfHearts]
  /\ foundation game3 !! 0%nat <> Some ([aceOfHearts] ++ [twoOfHearts; aceOfSpades]).
Proof.
  repeat split; try (vm_compute; reflexivity).
  vm_compute. discriminate.
Qed.

(** C1 at the failing input: a deal and three drops, each of a face-up card
    or run onto a pile that accepts its first card.  The table holds all 52
    cards up to the last drop and 51 cards after it: the Ace of spades is in
    no pile. *)
Theorem dragged_run_loses_a_card :
  initializeGame acesOnTop = Some game0
  /\ dropCards game0 "tableau" 0 0 "foundation" 0 = SetGame game1
  /\ dropCards game1 "tableau" 2 2 "tableau" 1 = SetGame game2
  /\ dropCards game2 "tableau" 1 1 "foundation" 0 = SetGame game3
  /\ reachable game3
  /\ (map face (allCards game0) ≡ₚ map face createDeck)
  /\ (map face (allCards game2) ≡ₚ map face createDeck)
  /\ length (allCards game3) = 51%nat
  /\ ((SPADES, Ace) ∉ map face (allCards game3))
  /\ ~ (map face (allCards game3) ≡ₚ map face createDeck).
Proof.
  split; [exact game0_dealt|].
  split; [exact game1_dropped|].
  split; [exact game2_dropped|].
  split; [exact game3_dropped|].
  split; [exact game3_reachable|].
  split.
  { apply (bool_decide_unpack _). vm_compute. reflexivity. }
  split.
  { apply (bool_decide_unpack _). vm_compute. reflexivity. }
  split; [vm_compute; reflexivity|].
  split.
  { apply (bool_decide_unpack _). vm_compute. reflexivity. }
  intros Hperm. apply Permutation_length in Hperm.
  vm_compute in Hperm. discriminate Hperm.
Qed.

(** ** What an accepted drop does *)

#[local] Arguments JsArray.get : simpl never.

Lemma renderedCard_inv game srcType srcIdx index card :
  renderedCard game srcType srcIdx index = Some card ->
  exists src,
    clickedAt game src card
    /\ srcType = srcTypeOf src
    /\ index = clickIndexOf game src
    /\ (srcType = "waste"%string \/ srcIdx = srcIdxOf src).
Proof.
  unfold renderedCard.
  destruct (String.eqb_spec srcType "waste") as [->|_].
  { case_decide; [|done]. intros Hlast. exists OnWaste. cbn. auto. }
  destruct (String.eqb_spec srcType "foundation") as [->|_].
  { destruct (JsArray.get (foundation game) srcIdx) as [cards|] eqn:Hget; [|done].
    case_decide; [|done]. intros Hlast.
    apply get_Some_inv in Hget as [Hk Hget].
    exists (OnFoundation (Z.to_nat srcIdx)). cbn.
    split; [eauto|]. split; [done|]. split; [done|]. right. lia. }
  destruct (String.eqb_spec srcType "tableau") as [->|_]; [|done].
  destruct (JsArray.get (tableau game) srcIdx) as [cards|] eqn:Hget; [|done].
  intros Hcard.
  apply get_Some_inv in Hget as [Hk Hget].
  apply get_Some_inv in Hcard as [Hi Hcard].
  exists (OnTableau (Z.to_nat srcIdx) (Z.to_nat index)). cbn.
  split; [eauto|]. split; [done|]. split; [lia|]. right. lia.
Qed.

Lemma moveCards_waste_args game k idx k' idx' tgtType tgtIdx :
  moveCards game "waste" k idx tgtType tgtIdx
  = moveCards game "waste" k' idx' tgtType tgtIdx.
Proof. reflexivity. Qed.

Lemma handleCardClick_waste_args game card k index k' index' :
  handleCardClick game card "waste" k index
  = handleCardClick game card "waste" k' index'.
Proof. reflexivity. Qed.

Lemma firstOfRun_clickedAt game src card :
  clickedAt game src card ->
  firstOfRun game (srcTypeOf src) (srcIdxOf src) (clickIndexOf game src) = Some card.
Proof.
  unfold firstOfRun. destruct src as [|s n|s]; cbn.
  - done.
  - intros (col & Hcol & Hn). rewrite get_of_nat, Hcol, slice_nat.
    by rewrite head_lookup, lookup_drop, Nat.add_0_r.
  - intros (col & Hcol & Hlast). by rewrite get_of_nat, Hcol.
Qed.

(** An accepted move takes the run out of its pile, turning a newly exposed
    tableau card face-up.  On a tableau target the run is appended as it
    lies; on a foundation target the first card of the run is appended. *)
Lemma moveCards_accepted game src card tgtType (t : nat) tgtPile :
  clickedAt game src card ->
  targetPile game tgtType (Z.of_nat t) = Some tgtPile ->
  legal tgtType card tgtPile = true ->
  moveCards game (srcTypeOf src) (srcIdxOf src) (clickIndexOf game src)
    tgtType (Z.of_nat t)
  = SetGame
      (if String.eqb tgtType "foundation" then
         withFoundation (withoutRun game src)
           (putOn (foundation (withoutRun game src)) t [card])
       else
         withTableau (withoutRun game src)
           (putOn (tableau (withoutRun game src)) t (dragged game src card))).
Proof.
  intros Hat Htgt Hlegal.
  pose proof (firstOfRun_clickedAt _ _ _ Hat) as Hfirst.
  unfold firstOfRun in Hfirst. unfold targetPile in Htgt. unfold legal in Hlegal.
  unfold moveCards, cardsOf.
  revert Htgt Hlegal.
  destruct (String.eqb tgtType "foundation"); intros Htgt Hlegal;
    destruct src as [|s n|s]; cbn [srcTypeOf srcIdxOf clickIndexOf] in *;
    cbn [String.eqb Ascii.eqb Bool.eqb orb] in *; cbn.
  - (* waste to foundation *)
    rewrite Hfirst, Htgt. cbn. rewrite Hlegal. cbn.
    rewrite get_of_nat in Htgt. by rewrite (updateCards_nat _ _ tgtPile).
  - (* tableau to foundation *)
    destruct Hat as (col & Hcol & Hn).
    rewrite (get_of_nat (tableau game) s), Hcol in Hfirst |- *. cbn.
    rewrite Htgt. cbn. rewrite Hfirst. cbn. rewrite Hlegal. cbn.
    rewrite get_of_nat in Htgt.
    rewrite (updateCards_nat _ _ col) by done. cbn.
    rewrite (updateCards_nat _ _ tgtPile) by done. cbn.
    assert (Ht : alter (fun c => flipTop (JsArray.splice c (Z.of_nat n))) s (tableau game)
                 = alter (fun c => flipTop (take n c)) s (tableau game)).
    { apply list_alter_ext; [|done]. intros c _. by rewrite splice_nat. }
    by rewrite Ht.
  - (* foundation to foundation *)
    destruct Hat as (col & Hcol & Hlast).
    rewrite (get_of_nat (foundation game) s), Hcol in Hfirst |- *. cbn.
    rewrite Htgt. cbn. rewrite Hfirst. cbn. rewrite Hlegal. cbn.
    rewrite (updateCards_nat _ _ col) by done. cbn.
    destruct (lookup_lt_is_Some_2 (alter JsArray.pop s (foundation game)) t)
      as [ct Hct].
    { rewrite length_alter. rewrite get_of_nat in Htgt. by eapply lookup_lt_Some. }
    by rewrite (updateCards_nat _ _ ct).
  - (* waste to tableau *)
    rewrite Hfirst, Htgt. cbn. rewrite Hlegal. cbn.
    rewrite get_of_nat in Htgt. by rewrite (updateCards_nat _ _ tgtPile).
  - (* tableau to tableau *)
    destruct Hat as (col & Hcol & Hn).
    rewrite (get_of_nat (tableau game) s), Hcol in Hfirst |- *. cbn.
    rewrite Htgt. cbn. rewrite Hfirst. cbn. rewrite Hlegal. cbn.
    rewrite (updateCards_nat _ _ col) by done. cbn.
    assert (Ht : alter (fun c => flipTop (JsArray.splice c (Z.of_nat n))) s (tableau game)
                 = alter (fun c => flipTop (take n c)) s (tableau game)).
    { apply list_alter_ext; [|done]. intros c _. by rewrite splice_nat. }
    rewrite Ht, slice_nat.
    destruct (lookup_lt_is_Some_2
                (alter (fun c => flipTop (take n c)) s (tableau game)) t) as [ct Hct].
    { rewrite length_alter. rewrite get_of_nat in Htgt. by eapply lookup_lt_Some. }
    by rewrite (updateCards_nat _ _ ct).
  - (* foundation to tableau *)
    destruct Hat as (col & Hcol & Hlast).
    rewrite (get_of_nat (foundation game) s), Hcol in Hfirst |- *. cbn.
    rewrite Htgt. cbn. rewrite Hfirst. cbn. rewrite Hlegal. cbn.
    rewrite get_of_nat in Htgt.
    rewrite (updateCards_nat _ _ col) by done. cbn.
    by rewrite (updateCards_nat _ _ tgtPile).
Qed.

(** ** The cards on the table *)

Lemma map_face_withFace b (l : list CardType) :
  map face (map (withFace b) l) = map face l.
Proof. rewrite map_map. by apply map_ext. Qed.

Lemma map_face_flipTop (col : Pile) : map face (flipTop col) = map face col.
Proof.
  unfold flipTop. destruct (length col =? 0)%nat; [done|].
  change (map face) with (fmap (M := list) face).
  rewrite (list_fmap_alter face (withFace true) id).
  - apply list_eq. intros k.
    destruct (decide (k = (length col - 1)%nat)) as [->|Hk].
    + rewrite list_lookup_alter_eq. by destruct (_ !! _).
    + by rewrite list_lookup_alter_ne.
  - by apply Forall_true.
Qed.

Lemma map_face_allCards (g : GameState) :
  map face (allCards g)
  = map face (stock g) ++ map face (waste g)
      ++ faces (foundation g) ++ faces (tableau g).
Proof. unfold allCards, faces. by rewrite !map_app. Qed.

Lemma pop_last {T} (l : list T) (x : T) : last l = Some x -> JsArray.pop l ++ [x] = l.
Proof. intros [l' ->]%last_Some. by rewrite pop_snoc. Qed.

Section Faces.
Implicit Types piles : list Pile.

Lemma faces_lookup piles i x :
  piles !! i = Some x ->
  faces piles ≡ₚ map face x ++ faces (take i piles ++ drop (S i) piles).
Proof.
  intros Hi. unfold faces.
  rewrite <- (take_drop_middle piles i x Hi) at 1.
  rewrite !concat_app, concat_cons, !map_app. solve_Permutation.
Qed.

Lemma faces_alter piles i x f :
  piles !! i = Some x ->
  faces (alter f i piles)
  ≡ₚ map face (f x) ++ faces (take i piles ++ drop (S i) piles).
Proof.
  intros Hi.
  assert (Hlt : (i < length piles)%nat) by (by eapply lookup_lt_Some).
  rewrite (faces_lookup (alter f i piles) i (f x)).
  - by rewrite take_alter_ge, drop_alter_lt by lia.
  - by rewrite list_lookup_alter_eq, Hi.
Qed.

(** A pile that gains the cards [a]. *)
Lemma faces_gain piles i x f a :
  piles !! i = Some x ->
  map face (f x) ≡ₚ map face x ++ a ->
  faces (alter f i piles) ≡ₚ faces piles ++ a.
Proof.
  intros Hi Hf.
  rewrite (faces_alter _ _ _ _ Hi), (faces_lookup piles i x Hi), Hf.
  solve_Permutation.
Qed.

(** A pile that loses the cards [d]. *)
Lemma faces_lose piles i x f d :
  piles !! i = Some x ->
  map face x ≡ₚ map face (f x) ++ d ->
  faces (alter f i piles) ++ d ≡ₚ faces piles.
Proof.
  intros Hi Hf.
  rewrite (faces_alter _ _ _ _ Hi), (faces_lookup piles i x Hi), Hf.
  solve_Permutation.
Qed.

Lemma faces_putOn piles i x cards :
  piles !! i = Some x ->
  faces (putOn piles i cards) ≡ₚ faces piles ++ map face cards.
Proof.
  intros Hi. unfold putOn. apply (faces_gain _ _ x); [done|].
  by rewrite map_app.
Qed.
End Faces.

(** Drawing a card or recycling the waste keeps the cards. *)
Lemma handleStock_sameCards game ng :
  handleStock game = SetGame ng -> sameCards ng game.
Proof.
  unfold handleStock, sameCards.
  destruct (last (stock game)) as [c|] eqn:Hlast; intros [= <-];
    rewrite !map_face_allCards; cbn [stock waste foundation tableau].
  - rewrite <- (pop_last _ _ Hlast) at 2.
    unfold JsArray.push. rewrite !map_app. cbn [map]. solve_Permutation.
  - apply last_None in Hlast. rewrite Hlast. cbn [map app].
    rewrite map_face_withFace.
    change (map face (reverse (waste game))) with (face <$> reverse (waste game)).
    by rewrite fmap_reverse, reverse_Permutation.
Qed.

(** The clicked card alone leaves the table. *)
Lemma withoutCard_faces game src card :
  clickedAt game src card ->
  map face (allCards (withoutCard game src)) ++ [face card]
  ≡ₚ map face (allCards game).
Proof.
  intros Hat. rewrite !map_face_allCards.
  destruct src as [|s n|s]; cbn [withoutCard clickedAt] in *;
    cbn [stock waste foundation tableau withWaste withTableau withFoundation].
  - rewrite <- (pop_last _ _ Hat) at 2. rewrite map_app. cbn [map].
    solve_Permutation.
  - destruct Hat as (col & Hcol & Hn).
    rewrite <- (faces_lose (tableau game) s col
                  (fun c => flipTop (take n c ++ drop (S n) c)) [face card] Hcol).
    + solve_Permutation.
    + rewrite map_face_flipTop.
      rewrite <- (take_drop_middle col n card Hn) at 1.
      rewrite !map_app. cbn [map]. solve_Permutation.
  - destruct Hat as (col & Hcol & Hlast).
    rewrite <- (faces_lose (foundation game) s col JsArray.pop [face card] Hcol).
    + solve_Permutation.
    + rewrite <- (pop_last _ _ Hlast) at 1. by rewrite map_app.
Qed.

(** The dragged run leaves the table. *)
Lemma withoutRun_faces game src card :
  clickedAt game src card ->
  map face (allCards (withoutRun game src)) ++ map face (dragged game src card)
  ≡ₚ map face (allCards game).
Proof.
  intros Hat. rewrite !map_face_allCards.
  destruct src as [|s n|s]; cbn [withoutRun dragged clickedAt] in *;
    cbn [stock waste foundation tableau withWaste withTableau withFoundation].
  - rewrite <- (pop_last _ _ Hat) at 2. rewrite map_app. cbn [map].
    solve_Permutation.
  - destruct Hat as (col & Hcol & Hn). rewrite Hcol. unfold default, id.
    rewrite <- (faces_lose (tableau game) s col
                  (fun c => flipTop (take n c)) (map face (drop n col)) Hcol).
    + solve_Permutation.
    + rewrite map_face_flipTop.
      rewrite <- (take_drop n col) at 1. by rewrite map_app.
  - destruct Hat as (col & Hcol & Hlast).
    rewrite <- (faces_lose (foundation game) s col JsArray.pop [face card] Hcol).
    + cbn [map]. solve_Permutation.
    + rewrite <- (pop_last _ _ Hlast) at 1. by rewrite map_app.
Qed.

Lemma put_tableau_faces g i x cards :
  tableau g !! i = Some x ->
  map face (allCards (withTableau g (putOn (tableau g) i cards)))
  ≡ₚ map face (allCards g) ++ map face cards.
Proof.
  intros Hi. rewrite !map_face_allCards.
  cbn [stock waste foundation tableau withTableau].
  rewrite (faces_putOn _ _ x) by done. solve_Permutation.
Qed.

Lemma put_foundation_faces g i x cards :
  foundation g !! i = Some x ->
  map face (allCards (withFoundation g (putOn (foundation g) i cards)))
  ≡ₚ map face (allCards g) ++ map face cards.
Proof.
  intros Hi. rewrite !map_face_allCards.
  cbn [stock waste foundation tableau withFoundation].
  rewrite (faces_putOn _ _ x) by done. solve_Permutation.
Qed.

Lemma withoutCard_foundation game src :
  ~ fromFoundation src -> foundation (withoutCard game src) = foundation game.
Proof. destruct src; [done | done | intros []; by eexists]. Qed.

Lemma withoutRun_lengths game src :
  length (foundation (withoutRun game src)) = length (foundation game)
  /\ length (tableau (withoutRun game src)) = length (tableau game).
Proof. destruct src; cbn; by rewrite ?length_alter. Qed.

(** The two results of a click keep the cards. *)
Lemma click_to_foundation_sameCards game src card i cards :
  clickedAt game src card ->
  ~ fromFoundation src ->
  foundation game !! i = Some cards ->
  sameCards (withFoundation (withoutCard game src)
               (putOn (foundation game) i [card])) game.
Proof.
  intros Hat Hsrc Hi. unfold sameCards.
  rewrite <- (withoutCard_foundation game src Hsrc) in Hi |- *.
  rewrite (put_foundation_faces _ _ cards) by done.
  by apply withoutCard_faces.
Qed.

Lemma click_to_tableau_sameCards game src card i :
  clickedAt game src card ->
  (i < length (tableau game))%nat ->
  sameCards (withTableau (withoutRun game src)
               (putOn (tableau (withoutRun game src)) i (runFrom game src card))) game.
Proof.
  intros Hat Hi. unfold sameCards.
  destruct (lookup_lt_is_Some_2 (tableau (withoutRun game src)) i) as [x Hx].
  { by rewrite (proj2 (withoutRun_lengths game src)). }
  rewrite (put_tableau_faces _ _ x) by done.
  rewrite <- (withoutRun_faces game src card Hat).
  apply Permutation_app_head.
  destruct src; cbn [runFrom dragged]; by rewrite ?map_face_withFace.
Qed.

(** A run dropped on a tableau pile keeps the cards; so does a single card
    dropped on a foundation pile. *)
Lemma drop_on_tableau_sameCards game src card t :
  clickedAt game src card ->
  (t < length (tableau game))%nat ->
  sameCards (withTableau (withoutRun game src)
               (putOn (tableau (withoutRun game src)) t (dragged game src card))) game.
Proof.
  intros Hat Ht. unfold sameCards.
  destruct (lookup_lt_is_Some_2 (tableau (withoutRun game src)) t) as [x Hx].
  { by rewrite (proj2 (withoutRun_lengths game src)). }
  rewrite (put_tableau_faces _ _ x) by done.
  by apply withoutRun_faces.
Qed.

Lemma drop_on_foundation_sameCards game src card t :
  clickedAt game src card ->
  dragged game src card = [card] ->
  (t < length (foundation game))%nat ->
  sameCards (withFoundation (withoutRun game src)
               (putOn (foundation (withoutRun game src)) t [card])) game.
Proof.
  intros Hat Hone Ht. unfold sameCards.
  destruct (lookup_lt_is_Some_2 (foundation (withoutRun game src)) t) as [x Hx].
  { by rewrite (proj1 (withoutRun_lengths game src)). }
  rewrite (put_foundation_faces _ _ x) by done.
  rewrite <- Hone. by apply withoutRun_faces.
Qed.

(** ** Every transition but one keeps the cards *)

Lemma clickToFoundation_Some_inv game card srcType srcIdx index i o :
  (i < length (foundation game))%nat ->
  clickToFoundation game card srcType srcIdx index i = Some o ->
  exists cards, foundation game !! i = Some cards
                /\ canMoveToFoundation card cards = true.
Proof.
  intros Hlt. unfold clickToFoundation.
  destruct (lookup_lt_is_Some_2 _ _ Hlt) as [cards Hi]. rewrite Hi.
  destruct (canMoveToFoundation card cards) eqn:Hacc; [eauto | discriminate].
Qed.

Lemma clickToTableau_Some_inv game card srcType srcIdx index i o :
  (i < length (tableau game))%nat ->
  clickToTableau game card srcType srcIdx index i = Some o ->
  exists cards, tableau game !! i = Some cards
                /\ canMoveToTableau card cards = true.
Proof.
  intros Hlt. unfold clickToTableau.
  destruct (lookup_lt_is_Some_2 _ _ Hlt) as [cards Hi]. rewrite Hi.
  destruct (canMoveToTableau card cards) eqn:Hacc; [eauto | discriminate].
Qed.

Lemma tableau_loop_sameCards game card src ng :
  clickedAt game src card ->
  match JsArray.forReturn 0 (length (tableau game))
          (clickToTableau game card (srcTypeOf src) (srcIdxOf src)
             (clickIndexOf game src)) with
  | Some o => o
  | None => NoUpdate
  end = SetGame ng ->
  sameCards ng game.
Proof.
  intros Hat.
  destruct (JsArray.forReturn _ _ _) as [o|] eqn:Hloop; [|done].
  intros ->.
  apply forReturn_Some_inv in Hloop as (i & Hi & Hbody).
  assert (Hlt : (i < length (tableau game))%nat) by lia.
  destruct (clickToTableau_Some_inv _ _ _ _ _ _ _ Hlt Hbody)
    as (cards & Hcards & Hacc).
  rewrite (clickToTableau_at game card src i cards Hat Hcards Hacc) in Hbody.
  injection Hbody as <-.
  apply click_to_tableau_sameCards; [done | lia].
Qed.

Lemma handleCardClick_sameCards game src card ng :
  clickedAt game src card ->
  handleCardClick game card (srcTypeOf src) (srcIdxOf src) (clickIndexOf game src)
  = SetGame ng ->
  sameCards ng game.
Proof.
  intros Hat.
  destruct (String.eqb (srcTypeOf src) "foundation") eqn:Hsrc.
  - rewrite handleCardClick_tableau_loop
      by (left; by apply srcTypeOf_foundation).
    by apply tableau_loop_sameCards.
  - rewrite handleCardClick_other by done.
    destruct (JsArray.forReturn _ _ (clickToFoundation _ _ _ _ _)) as [o|] eqn:Hloop.
    + intros ->.
      apply forReturn_Some_inv in Hloop as (i & Hi & Hbody).
      assert (Hlt : (i < length (foundation game))%nat) by lia.
      destruct (clickToFoundation_Some_inv _ _ _ _ _ _ _ Hlt Hbody)
        as (cards & Hcards & Hacc).
      assert (Hnf : ~ fromFoundation src).
      { intros Hf%srcTypeOf_foundation. congruence. }
      rewrite (clickToFoundation_at game card src i cards Hnf Hat Hcards Hacc) in Hbody.
      injection Hbody as <-.
      by apply (click_to_foundation_sameCards _ _ _ _ cards).
    + by apply tableau_loop_sameCards.
Qed.

Lemma srcTypeOf_waste src : srcTypeOf src = "waste"%string -> src = OnWaste.
Proof. by destruct src. Qed.

(** A click on a rendered card keeps the cards. *)
Lemma clickCard_sameCards game srcType srcIdx index ng :
  clickCard game srcType srcIdx index = SetGame ng -> sameCards ng game.
Proof.
  unfold clickCard.
  destruct (renderedCard game srcType srcIdx index) as [card|] eqn:Hr; [|done].
  destruct (isFaceUp card); [|done].
  apply renderedCard_inv in Hr as (src & Hat & -> & -> & Hidx).
  intros Hclick. apply (handleCardClick_sameCards game src card); [done|].
  destruct Hidx as [Hw | ->]; [|done].
  apply srcTypeOf_waste in Hw as ->. exact Hclick.
Qed.

Lemma moveCards_SetGame_legal game srcType srcIdx idx tgtType tgtIdx ng :
  moveCards game srcType srcIdx idx tgtType tgtIdx = SetGame ng ->
  exists first tgtPile,
    firstOfRun game srcType srcIdx idx = Some first
    /\ targetPile game tgtType tgtIdx = Some tgtPile
    /\ legal tgtType first tgtPile = true.
Proof.
  intros Hmove.
  destruct (knownSource_cases srcType) as [Hknown | (Ew & Et & Ef)].
  2:{ unfold moveCards in Hmove. by rewrite Ew, Et, Ef in Hmove. }
  destruct (firstOfRun game srcType srcIdx idx) as [first|] eqn:Hfirst.
  2:{ rewrite moveCards_throws in Hmove by auto. discriminate. }
  destruct (targetPile game tgtType tgtIdx) as [tgtPile|] eqn:Htgt.
  2:{ rewrite moveCards_throws in Hmove by auto. discriminate. }
  destruct (moveCards_decided _ _ _ _ _ _ _ _ Hfirst Htgt) as [Hno _].
  destruct (legal tgtType first tgtPile) eqn:Hlegal; [eauto|].
  rewrite Hno in Hmove by done. discriminate.
Qed.

(** A drop keeps the cards when the target is no foundation pile or the
    drag takes a single card. *)
Lemma dropCards_sameCards game srcType srcIdx idx tgtType tgtIdx ng :
  tgtType <> "foundation"%string \/ singleCardDrag game srcType srcIdx idx ->
  dropCards game srcType srcIdx idx tgtType tgtIdx = SetGame ng ->
  sameCards ng game.
Proof.
  intros Hsafe. unfold dropCards.
  destruct (renderedCard game srcType srcIdx idx) as [card|] eqn:Hr; [|done].
  destruct (_ && _); [|done].
  apply renderedCard_inv in Hr as (src & Hat & -> & -> & Hidx).
  intros Hmove.
  assert (Hmove' :
    moveCards game (srcTypeOf src) (srcIdxOf src) (clickIndexOf game src)
      tgtType tgtIdx = SetGame ng).
  { destruct Hidx as [Hw | ->]; [|done].
    apply srcTypeOf_waste in Hw as ->. exact Hmove. }
  assert (Hsafe' : tgtType <> "foundation"%string \/ dragged game src card = [card]).
  { destruct Hsafe as [Hne | Hone]; [by left | right].
    destruct src as [|s n|s]; [done | | done].
    destruct Hat as (col & Hcol & Hn). cbn [dragged]. rewrite Hcol. unfold default, id.
    destruct Hidx as [[=] | ->].
    specialize (Hone eq_refl col). cbn [srcIdxOf clickIndexOf] in Hone.
    rewrite get_of_nat in Hone. specialize (Hone Hcol).
    rewrite (drop_S _ _ _ Hn), drop_ge by lia. done. }
  clear Hmove Hsafe Hidx.
  destruct (moveCards_SetGame_legal _ _ _ _ _ _ _ Hmove')
    as (first & tgtPile & Hfirst & Htgt & Hlegal).
  rewrite (firstOfRun_clickedAt _ _ _ Hat) in Hfirst. injection Hfirst as <-.
  assert (Ht : exists t : nat, tgtIdx = Z.of_nat t /\ is_Some (JsArray.get
             (if String.eqb tgtType "foundation" then foundation game else tableau game)
             (Z.of_nat t))).
  { unfold targetPile in Htgt.
    exists (Z.to_nat tgtIdx).
    destruct (String.eqb tgtType "foundation");
      pose proof (get_Some_range _ _ _ Htgt); rewrite Z2Nat.id by lia; eauto. }
  destruct Ht as (t & -> & [x Hx]).
  rewrite (moveCards_accepted _ _ _ _ _ _ Hat Htgt Hlegal) in Hmove'.
  injection Hmove' as <-.
  rewrite get_of_nat in Hx. apply lookup_lt_Some in Hx.
  destruct (String.eqb_spec tgtType "foundation") as [->|Hne].
  - destruct Hsafe' as [? | Hone]; [done|].
    by apply drop_on_foundation_sameCards.
  - by apply drop_on_tableau_sameCards.
Qed.

Lemma for_invariant {S : Type} (P : S -> Prop) (body : nat -> S -> S) lo n s :
  (forall k s', (lo <= k < lo + n)%nat -> P s' -> P (body k s')) ->
  P s -> P (JsArray.for_ lo n body s).
Proof.
  revert lo s. induction n as [|n IH]; intros lo s Hbody Hs; [done|].
  cbn [JsArray.for_]. apply IH.
  - intros k s' Hk. apply Hbody. lia.
  - apply Hbody; [lia | done].
Qed.

Lemma dealCard_dealt orig i j st :
  (j < 7)%nat -> dealt orig st -> dealt orig (dealCard i j st).
Proof.
  intros Hj. destruct st as [[deck tab]|]; [|done].
  intros [Hlen Hperm]. unfold dealCard.
  destruct (last deck) as [c|] eqn:Hlast; [|done].
  split; [by rewrite length_alter|].
  destruct (lookup_lt_is_Some_2 tab j) as [x Hx]; [lia|].
  rewrite (faces_gain tab j x _ [face c] Hx).
  - rewrite <- Hperm. rewrite <- (pop_last _ _ Hlast) at 2.
    rewrite map_app. cbn [map]. solve_Permutation.
  - unfold JsArray.push. by rewrite map_app.
Qed.

(** The deal puts every card of the deck in the stock or on a pile. *)
Lemma deal_cards (deck rest : list CardType) (tab : list Pile) :
  deal deck = Some (rest, tab) ->
  map face (rest ++ concat tab) ≡ₚ map face deck.
Proof.
  intros Hdeal.
  assert (Hinv : dealt (map face deck) (deal deck)).
  { unfold deal. apply for_invariant.
    - intros i st Hi Hst. apply for_invariant; [|done].
      intros j st' Hj. apply dealCard_dealt. lia.
    - split; [done|]. by rewrite app_nil_r. }
  rewrite Hdeal in Hinv. destruct Hinv as [_ Hperm].
  by rewrite map_app.
Qed.

Lemma initializeGame_cards rnd g :
  initializeGame rnd = Some g ->
  map face (allCards g) ≡ₚ map face createDeck.
Proof.
  intros Hinit.
  transitivity (map face (shuffleDeck rnd createDeck)).
  2:{ apply Permutation_map, shuffleDeck_Permutation. }
  revert Hinit. unfold initializeGame.
  generalize (shuffleDeck rnd createDeck). intros deck.
  destruct (deal deck) as [[rest tab]|] eqn:Hdeal; [|done].
  intros [= <-]. unfold allCards. cbn [stock waste foundation tableau].
  change (concat (replicate 4 [])) with (@nil CardType). cbn [app].
  by apply deal_cards.
Qed.

Lemma createDeck_NoDup : NoDup (map face createDeck).
Proof. apply (bool_decide_unpack _). vm_compute. reflexivity. Qed.

Lemma reachableBySingleDrops_cards (g : GameState) :
  reachableBySingleDrops g -> map face (allCards g) ≡ₚ map face createDeck.
Proof.
  induction 1 as [rnd g Hinit | g ng _ IH Hstock
                 | g srcType srcIdx idx tgtType tgtIdx ng _ IH Hsafe Hdrop
                 | g srcType srcIdx index ng _ IH Hclick].
  - by eapply initializeGame_cards.
  - rewrite <- IH. by apply handleStock_sameCards.
  - rewrite <- IH. by eapply dropCards_sameCards.
  - rewrite <- IH. by eapply clickCard_sameCards.
Qed.

Lemma flipTop_exposed (below : Pile) : exposed below (flipTop below).
Proof.
  unfold exposed. split; [apply map_face_flipTop|].
  unfold flipTop. destruct (length below =? 0)%nat eqn:Hlen.
  - apply Nat.eqb_eq in Hlen. destruct below; [|cbn in Hlen; lia]. split; [done|]. by intros c [=].
  - apply Nat.eqb_neq in Hlen. split.
    + intros k Hk. apply list_lookup_alter_ne. lia.
    + intros c. rewrite last_lookup, length_alter.
      replace (Nat.pred (length below)) with (length below - 1)%nat by lia.
      rewrite list_lookup_alter_eq.
      intros Hc. apply fmap_Some in Hc as (c0 & _ & ->). reflexivity.
Qed.

(** What a drop that the rule accepts does to the piles, for the card
    [card] dragged from position [n] of tableau pile [s] with the cards
    [above] on it, and dropped on another pile: the source pile keeps the
    cards [below] the run, in their order, and its new top card is face-up;
    a tableau target receives the whole run as it lies, a foundation target
    receives the first card of the run alone; the stock, the waste and every
    other pile stay as they were. *)
Theorem accepted_drop (game : GameState) (s n : nat)
    (below : list CardType) (card : CardType) (above : list CardType)
    (tgtType : string) (t : nat) (tgtPile : Pile) :
  tableau game !! s = Some (below ++ card :: above) ->
  length below = n ->
  targetPile game tgtType (Z.of_nat t) = Some tgtPile ->
  legal tgtType card tgtPile = true ->
  tgtType = "foundation"%string \/ t <> s ->
  exists ng left,
    moveCards game "tableau" (Z.of_nat s) (Z.of_nat n) tgtType (Z.of_nat t) = SetGame ng
    /\ stock ng = stock game /\ waste ng = waste game
    /\ tableau ng !! s = Some left /\ exposed below left
    /\ (tgtType = "foundation"%string ->
        foundation ng !! t = Some (tgtPile ++ [card])
        /\ (forall k, k <> t -> foundation ng !! k = foundation game !! k)
        /\ (forall k, k <> s -> tableau ng !! k = tableau game !! k))
    /\ (tgtType <> "foundation"%string ->
        tableau ng !! t = Some (tgtPile ++ card :: above)
        /\ foundation ng = foundation game
        /\ (forall k, k <> s -> k <> t -> tableau ng !! k = tableau game !! k)).
Proof.
  intros Hs Hn Htgt Hlegal Hother.
  assert (Hat : clickedAt game (OnTableau s n) card).
  { exists (below ++ card :: above). split; [done|].
    rewrite lookup_app_r by lia. by replace (n - length below)%nat with 0%nat by lia. }
  pose proof (moveCards_accepted game (OnTableau s n) card tgtType t tgtPile
                Hat Htgt Hlegal) as Hmove.
  cbn [srcTypeOf srcIdxOf clickIndexOf] in Hmove.
  assert (Htake : take n (below ++ card :: above) = below).
  { subst n. by rewrite take_app_length. }
  assert (Hdrop : drop n (below ++ card :: above) = card :: above).
  { subst n. by rewrite drop_app_length. }
  assert (Hleft : tableau (withoutRun game (OnTableau s n)) !! s = Some (flipTop below)).
  { cbn [withoutRun withTableau tableau]. rewrite list_lookup_alter_eq, Hs. cbn.
    by rewrite Htake. }
  eexists _, (flipTop below). split; [exact Hmove|].
  unfold targetPile in Htgt.
  destruct (String.eqb_spec tgtType "foundation") as [->|Hne].
  - rewrite get_of_nat in Htgt.
    split; [done|]. split; [done|]. split; [exact Hleft|].
    split; [apply flipTop_exposed|]. split; [|done].
    intros _. cbn [withFoundation withoutRun withTableau foundation tableau].
    unfold putOn. split; [by rewrite list_lookup_alter_eq, Htgt|].
    split; intros k Hk; by rewrite list_lookup_alter_ne.
  - destruct Hother as [->|Hts]; [done|].
    rewrite get_of_nat in Htgt.
    cbn [withFoundation withoutRun withTableau stock waste foundation tableau dragged].
    unfold putOn. rewrite Hs. unfold default, id. rewrite Hdrop.
    split; [done|]. split; [done|].
    split.
    { rewrite list_lookup_alter_ne by done. exact Hleft. }
    split; [apply flipTop_exposed|]. split; [done|].
    intros _. split.
    + by rewrite list_lookup_alter_eq, list_lookup_alter_ne, Htgt by done.
    + split; [done|]. intros k Hks Hkt. by rewrite !list_lookup_alter_ne.
Qed.

Lemma accepted_drop_witness :
  tableau game1 !! 2%nat
  = Some ([jackOfSpades false; fiveOfSpades false] ++ aceOfSpades :: [])
  /\ targetPile game1 "tableau" (Z.of_nat 1) = Some [queenOfSpades false; twoOfHearts]
  /\ legal "tableau" aceOfSpades [queenOfSpades false; twoOfHearts] = true
  /\ exists ng left,
       moveCards game1 "tableau" (Z.of_nat 2) (Z.of_nat 2) "tableau" (Z.of_nat 1)
       = SetGame ng
       /\ tableau ng !! 2%nat = Some left
       /\ exposed [jackOfSpades false; fiveOfSpades false] left
       /\ tableau ng !! 1%nat = Some [queenOfSpades false; twoOfHearts; aceOfSpades].
Proof.
  assert (Hs : tableau game1 !! 2%nat
               = Some ([jackOfSpades false; fiveOfSpades false] ++ aceOfSpades :: []))
    by (vm_compute; reflexivity).
  assert (Htgt : targetPile game1 "tableau" (Z.of_nat 1)
                 = Some [queenOfSpades false; twoOfHearts])
    by (vm_compute; reflexivity).
  assert (Hlegal : legal "tableau" aceOfSpades [queenOfSpades false; twoOfHearts] = true)
    by reflexivity.
  split; [exact Hs|]. split; [exact Htgt|]. split; [exact Hlegal|].
  assert (Hother : "tableau"%string = "foundation"%string \/ 1%nat <> 2%nat)
    by (right; discriminate).
  pose proof (accepted_drop game1 2 2 [jackOfSpades false; fiveOfSpades false]
                aceOfSpades [] "tableau" 1 [queenOfSpades false; twoOfHearts]
                Hs eq_refl Htgt Hlegal Hother) as Hdrop.
  destruct Hdrop as (ng & left & Hmove & _ & _ & Hleft & Hexp & _ & Htab).
  exists ng, left. split; [exact Hmove|]. split; [exact Hleft|]. split; [exact Hexp|].
  exact (proj1 (Htab ltac:(discriminate))).
Defined.

(** Card conservation where it holds: in every game in which no run of
    several cards is dropped on a foundation pile, the cards of the stock,
    the waste, the foundation piles and the tableau piles are the 52 cards of
    the deck, each once. *)
Theorem cards_kept_by_single_drops (g : GameState) :
  reachableBySingleDrops g ->
  map face (allCards g) ≡ₚ map face createDeck
  /\ NoDup (map face (allCards g))
  /\ length (allCards g) = 52%nat.
Proof.
  intros Hperm%reachableBySingleDrops_cards.
  split; [done|]. split.
  - rewrite Hperm. exact createDeck_NoDup.
  - rewrite <- (length_map face), Hperm. reflexivity.
Qed.

Lemma cards_kept_by_single_drops_witness :
  reachableBySingleDrops game2
  /\ map face (allCards game2) ≡ₚ map face createDeck
  /\ NoDup (map face (allCards game2))
  /\ length (allCards game2) = 52%nat.
Proof.
  assert (Hreach : reachableBySingleDrops game2).
  { apply (single_drop game1 "tableau" 2 2 "tableau" 1);
      [ | by left | exact game2_dropped].
    apply (single_drop game0 "tableau" 0 0 "foundation" 0);
      [ | | exact game1_dropped].
    - apply (single_new acesOnTop). exact game0_dealt.
    - right. intros _ cards Hget. vm_compute in Hget.
      injection Hget as <-. reflexivity. }
  split; [exact Hreach|].
  exact (cards_kept_by_single_drops game2 Hreach).
Defined.

(** ** The shape of the piles *)

Lemma Forall_sublist {T} (P : T -> Prop) (l k : list T) :
  l `sublist_of` k -> Forall P k -> Forall P l.
Proof.
  induction 1 as [|x l k _ IH|x l k _ IH]; intros Hk; [done| |].
  - apply Forall_cons in Hk as [Hx Hk]. constructor; auto.
  - apply Forall_cons in Hk as [_ Hk]. auto.
Qed.

Lemma faceUp_faceDown (c : CardType) : faceUp c -> faceDown c -> False.
Proof. unfold faceUp, faceDown. congruence. Qed.

(** Face-down cards followed by face-up cards become a tableau pile once the
    top card is turned up. *)
Lemma flipTop_shaped (down up : list CardType) :
  Forall faceDown down -> Forall faceUp up -> tableauShaped (flipTop (down ++ up)).
Proof.
  intros Hdown Hup.
  destruct (last up) as [top|] eqn:Htop.
  - rewrite (flipTop_faceUp _ top).
    + exists down, up. repeat split; try done. intros _ ->. discriminate.
    + by rewrite last_app, Htop.
    + rewrite Forall_forall in Hup. apply Hup.
      apply last_Some in Htop as [l' ->].
      apply elem_of_app. right. by apply list_elem_of_singleton.
  - apply last_None in Htop as ->. rewrite app_nil_r.
    destruct (last down) as [c|] eqn:Hc.
    + apply last_Some in Hc as [d' ->].
      apply Forall_app in Hdown as [Hd' _].
      exists d', [withFace true c]. unfold flipTop.
      rewrite length_app. cbn [length].
      replace (length d' + 1 =? 0)%nat with false by (symmetry; apply Nat.eqb_neq; lia).
      replace (length d' + 1 - 1)%nat with (length d' + 0)%nat by lia.
      rewrite alter_app_r. cbn.
      repeat split; try done. by repeat constructor.
    + apply last_None in Hc as ->. exists [], []. by repeat split.
Qed.

Lemma shaped_sublist_flipTop (pile l : Pile) :
  tableauShaped pile -> l `sublist_of` pile -> tableauShaped (flipTop l).
Proof.
  intros (down & up & -> & Hdown & Hup & _) Hsub.
  apply sublist_app_r in Hsub as (d' & u' & -> & Hd' & Hu').
  apply flipTop_shaped; by eapply Forall_sublist.
Qed.

(** What is left of a tableau pile when a run or a card is taken. *)
Lemma shaped_take (pile : Pile) n :
  tableauShaped pile -> tableauShaped (flipTop (take n pile)).
Proof. intros H. eapply shaped_sublist_flipTop; [done | apply sublist_take]. Qed.

Lemma shaped_remove (pile : Pile) n :
  tableauShaped pile -> tableauShaped (flipTop (take n pile ++ drop (S n) pile)).
Proof.
  intros H. eapply shaped_sublist_flipTop; [done|].
  rewrite <- delete_take_drop. apply sublist_delete.
Qed.

(** Face-up cards put on a tableau pile. *)
Lemma shaped_app (pile run : list CardType) :
  tableauShaped pile -> Forall faceUp run -> tableauShaped (pile ++ run).
Proof.
  intros (down & up & -> & Hdown & Hup & Htop) Hrun.
  exists down, (up ++ run). rewrite app_assoc.
  repeat split; try done.
  - by apply Forall_app.
  - intros Hne Hnil. apply app_eq_nil in Hnil as [-> ->].
    rewrite !app_nil_r in *. destruct down; [done|]. by apply Htop.
Qed.

(** From a face-up card of a tableau pile upwards, every card is face-up. *)
Lemma shaped_drop (pile : Pile) n c :
  tableauShaped pile -> pile !! n = Some c -> faceUp c ->
  Forall faceUp (drop n pile).
Proof.
  intros (down & up & -> & Hdown & Hup & _) Hn Hc.
  destruct (decide (n < length down)%nat) as [Hlt|Hge].
  - rewrite lookup_app_l in Hn by done.
    rewrite Forall_forall in Hdown. destruct (faceUp_faceDown c Hc).
    apply Hdown. by eapply list_elem_of_lookup_2.
  - rewrite drop_app_ge by lia. by apply Forall_drop.
Qed.

Lemma onlyTopFaceUp_shaped (pile : Pile) : onlyTopFaceUp pile -> tableauShaped pile.
Proof.
  unfold onlyTopFaceUp. intros Hfaces.
  destruct (last pile) as [c|] eqn:Hlast.
  - apply last_Some in Hlast as [down ->].
    rewrite map_app, length_app in Hfaces. cbn in Hfaces.
    replace (length down + 1 - 1)%nat with (length down) in Hfaces by lia.
    apply app_inj_tail in Hfaces as [Hdown Hc].
    exists down, [c]. repeat split; try done.
    + apply Forall_forall. intros x Hx.
      apply list_elem_of_lookup in Hx as [k Hk].
      assert (Hb : map isFaceUp down !! k = Some (isFaceUp x)).
      { change (map isFaceUp down) with (isFaceUp <$> down).
        by rewrite list_lookup_fmap, Hk. }
      rewrite Hdown in Hb. apply lookup_replicate in Hb as [Hb _]. done.
    + by repeat constructor.
  - apply last_None in Hlast as ->. discriminate Hfaces.
Qed.

(** ** The order of the foundation piles *)

Lemma ordered_nil : foundationOrdered [].
Proof.
  split; [intros k c Hk; by rewrite lookup_nil in Hk|].
  intros c c' Hc. by apply not_elem_of_nil in Hc.
Qed.

Lemma ordered_push (pile : Pile) (card : CardType) :
  foundationOrdered pile ->
  canMoveToFoundation card pile = true ->
  foundationOrdered (pile ++ [card]).
Proof.
  intros [Hranks Hsuits] Hacc. unfold canMoveToFoundation in Hacc.
  destruct (last pile) as [top|] eqn:Htop.
  - apply andb_true_iff in Hacc as [Hs Hr].
    apply bool_decide_eq_true in Hs. apply Z.eqb_eq in Hr.
    rewrite !indexOf_RANKS in Hr.
    assert (Hin : top ∈ pile).
    { apply last_Some in Htop as [l' ->].
      apply elem_of_app. right. by apply list_elem_of_singleton. }
    assert (Htoprank : rankValue (rank top) = Z.of_nat (length pile)).
    { rewrite last_lookup in Htop. apply Hranks in Htop as Hk.
      apply lookup_lt_Some in Htop. lia. }
    split.
    + intros k c Hk.
      destruct (decide (k < length pile)%nat) as [Hlt|Hge].
      * rewrite lookup_app_l in Hk by done. by apply Hranks.
      * rewrite lookup_app_r in Hk by lia.
        destruct (k - length pile)%nat as [|m] eqn:Hm; [|by destruct m].
        injection Hk as <-. lia.
    + intros c c' Hc Hc'.
      assert (Hall : forall x, x ∈ pile ++ [card] -> suit x = suit top).
      { intros x [Hx | Hx%list_elem_of_singleton]%elem_of_app.
        - by apply Hsuits.
        - by subst x. }
      by rewrite (Hall c), (Hall c').
  - apply last_None in Htop as ->. apply bool_decide_eq_true in Hacc.
    split.
    + intros [|k] c Hk; [|by destruct k].
      injection Hk as <-. by rewrite Hacc.
    + intros c c' Hc%list_elem_of_singleton Hc'%list_elem_of_singleton. congruence.
Qed.

Lemma ordered_pop (pile : Pile) : foundationOrdered pile -> foundationOrdered (JsArray.pop pile).
Proof.
  intros [Hranks Hsuits]. unfold JsArray.pop. split.
  - intros k c Hk. apply Hranks. by apply lookup_take_Some in Hk as [Hk _].
  - intros c c' Hc Hc'.
    apply Hsuits; eapply (sublist_subseteq _ _ (sublist_take pile _)); eassumption.
Qed.

(** ** The steps of a game *)

(** A click that sets a state: a face-up card shown at [src] went to the
    first accepting foundation pile, alone, or with its run to the first
    accepting tableau pile. *)
Lemma clickCard_inv game srcType srcIdx index ng :
  clickCard game srcType srcIdx index = SetGame ng ->
  exists src card,
    clickedAt game src card /\ faceUp card
    /\ ((~ fromFoundation src
         /\ exists i cards,
              foundation game !! i = Some cards
              /\ canMoveToFoundation card cards = true
              /\ ng = withFoundation (withoutCard game src)
                        (putOn (foundation game) i [card]))
        \/ (exists i cards,
              tableau game !! i = Some cards
              /\ canMoveToTableau card cards = true
              /\ ng = withTableau (withoutRun game src)
                        (putOn (tableau (withoutRun game src)) i
                           (runFrom game src card)))).
Proof.
  unfold clickCard.
  destruct (renderedCard game srcType srcIdx index) as [card|] eqn:Hr; [|done].
  destruct (isFaceUp card) eqn:Hup; [|done].
  apply renderedCard_inv in Hr as (src & Hat & -> & -> & Hidx).
  intros Hclick. exists src, card. split; [done|]. split; [done|].
  assert (Hclick' :
    handleCardClick game card (srcTypeOf src) (srcIdxOf src) (clickIndexOf game src)
    = SetGame ng).
  { destruct Hidx as [Hw | ->]; [|done].
    apply srcTypeOf_waste in Hw as ->. exact Hclick. }
  clear Hclick Hidx. revert Hclick'.
  assert (Htab :
    match JsArray.forReturn 0 (length (tableau game))
            (clickToTableau game card (srcTypeOf src) (srcIdxOf src)
               (clickIndexOf game src)) with
    | Some o => o
    | None => NoUpdate
    end = SetGame ng ->
    exists i cards,
      tableau game !! i = Some cards
      /\ canMoveToTableau card cards = true
      /\ ng = withTableau (withoutRun game src)
                (putOn (tableau (withoutRun game src)) i (runFrom game src card))).
  { destruct (JsArray.forReturn _ _ _) as [o|] eqn:Hloop; [|done].
    intros ->.
    apply forReturn_Some_inv in Hloop as (i & Hi & Hbody).
    assert (Hlt : (i < length (tableau game))%nat) by lia.
    destruct (clickToTableau_Some_inv _ _ _ _ _ _ _ Hlt Hbody)
      as (cards & Hcards & Hacc).
    rewrite (clickToTableau_at game card src i cards Hat Hcards Hacc) in Hbody.
    injection Hbody as <-. by exists i, cards. }
  destruct (String.eqb (srcTypeOf src) "foundation") eqn:Hsrc.
  - rewrite handleCardClick_tableau_loop
      by (left; by apply srcTypeOf_foundation).
    intros H. right. by apply Htab.
  - rewrite handleCardClick_other by done.
    destruct (JsArray.forReturn _ _ (clickToFoundation _ _ _ _ _)) as [o|] eqn:Hloop.
    + intros ->. left.
      apply forReturn_Some_inv in Hloop as (i & Hi & Hbody).
      assert (Hlt : (i < length (foundation game))%nat) by lia.
      destruct (clickToFoundation_Some_inv _ _ _ _ _ _ _ Hlt Hbody)
        as (cards & Hcards & Hacc).
      assert (Hnf : ~ fromFoundation src).
      { intros Hf%srcTypeOf_foundation. congruence. }
      rewrite (clickToFoundation_at game card src i cards Hnf Hat Hcards Hacc) in Hbody.
      injection Hbody as <-. split; [done|]. by exists i, cards.
    + intros H. right. by apply Htab.
Qed.

(** A drop that sets a state: a dragged card shown at [src], face-up unless
    it is the waste card, went with its run to the target pile, whose rule
    accepted it. *)
Lemma dropCards_inv game srcType srcIdx idx tgtType tgtIdx ng :
  dropCards game srcType srcIdx idx tgtType tgtIdx = SetGame ng ->
  exists src card t tgtPile,
    clickedAt game src card
    /\ (src = OnWaste \/ faceUp card)
    /\ ((foundation game !! t = Some tgtPile
         /\ canMoveToFoundation card tgtPile = true
         /\ ng = withFoundation (withoutRun game src)
                   (putOn (foundation (withoutRun game src)) t [card]))
        \/ (tableau game !! t = Some tgtPile
            /\ canMoveToTableau card tgtPile = true
            /\ ng = withTableau (withoutRun game src)
                      (putOn (tableau (withoutRun game src)) t
                         (dragged game src card)))).
Proof.
  unfold dropCards.
  destruct (renderedCard game srcType srcIdx idx) as [card|] eqn:Hr; [|done].
  destruct (_ && _) eqn:Hguard; [|done].
  apply andb_true_iff in Hguard as [Hdrag _].
  apply renderedCard_inv in Hr as (src & Hat & -> & -> & Hidx).
  intros Hmove.
  assert (Hmove' :
    moveCards game (srcTypeOf src) (srcIdxOf src) (clickIndexOf game src)
      tgtType tgtIdx = SetGame ng).
  { destruct Hidx as [Hw | ->]; [|done].
    apply srcTypeOf_waste in Hw as ->. exact Hmove. }
  clear Hmove Hidx.
  destruct (moveCards_SetGame_legal _ _ _ _ _ _ _ Hmove')
    as (first & tgtPile & Hfirst & Htgt & Hlegal).
  rewrite (firstOfRun_clickedAt _ _ _ Hat) in Hfirst. injection Hfirst as <-.
  assert (Ht : tgtIdx = Z.of_nat (Z.to_nat tgtIdx)).
  { unfold targetPile in Htgt.
    destruct (String.eqb tgtType "foundation");
      pose proof (get_Some_range _ _ _ Htgt); lia. }
  rewrite Ht in Htgt, Hmove'.
  rewrite (moveCards_accepted _ _ _ _ _ _ Hat Htgt Hlegal) in Hmove'.
  injection Hmove' as <-.
  exists src, card, (Z.to_nat tgtIdx), tgtPile. split; [done|]. split.
  { apply orb_true_iff in Hdrag as [Hw | Hup]; [left | by right].
    apply String.eqb_eq in Hw. by apply srcTypeOf_waste. }
  unfold targetPile, legal in *.
  destruct (String.eqb tgtType "foundation"); rewrite get_of_nat in Htgt;
    [left | right]; done.
Qed.

(** ** The invariants hold in every reachable state *)

Lemma Forall_pop {T} (P : T -> Prop) (l : list T) : Forall P l -> Forall P (JsArray.pop l).
Proof. apply Forall_take. Qed.

Lemma initializeGame_tidy rnd g : initializeGame rnd = Some g -> tidy g.
Proof.
  unfold initializeGame.
  assert (Hlen : length (shuffleDeck rnd createDeck) = 52%nat).
  { by rewrite length_shuffleDeck. }
  assert (Hdown : Forall faceDown (shuffleDeck rnd createDeck)).
  { apply Forall_shuffleLoop, createDeck_faceDown. }
  revert Hlen Hdown. generalize (shuffleDeck rnd createDeck). intros deck Hlen Hdown.
  destruct (deal_52 deck Hlen) as (tab & -> & _ & Htop).
  intros [= <-]. unfold tidy. cbn [stock waste foundation tableau].
  split; [by apply Forall_take|]. split; [done|].
  split; [by repeat constructor|].
  split; [repeat constructor; apply ordered_nil|].
  eapply Forall_impl; [exact Htop | apply onlyTopFaceUp_shaped].
Qed.

Lemma handleStock_tidy game ng :
  tidy game -> handleStock game = SetGame ng -> tidy ng.
Proof.
  intros (Hs & Hw & Hfu & Hfo & Ht). unfold handleStock.
  destruct (last (stock game)) as [c|] eqn:Hlast; intros [= <-];
    unfold tidy; cbn [stock waste foundation tableau]; repeat split; try done.
  - by apply Forall_pop.
  - apply Forall_app. split; [done|]. by repeat constructor.
  - apply Forall_forall. intros c Hc.
    apply list_elem_of_fmap in Hc as (x & -> & _). reflexivity.
Qed.

Lemma withoutCard_tidy game src : tidy game -> tidy (withoutCard game src).
Proof.
  intros (Hs & Hw & Hfu & Hfo & Ht).
  destruct src as [|s n|s]; unfold tidy; cbn; repeat split; try done.
  - by apply Forall_pop.
  - apply Forall_alter; [done|]. intros col _. apply shaped_remove.
  - apply Forall_alter; [done|]. intros col _. apply Forall_pop.
  - apply Forall_alter; [done|]. intros col _. apply ordered_pop.
Qed.

Lemma withoutRun_tidy game src : tidy game -> tidy (withoutRun game src).
Proof.
  intros (Hs & Hw & Hfu & Hfo & Ht).
  destruct src as [|s n|s]; unfold tidy; cbn; repeat split; try done.
  - by apply Forall_pop.
  - apply Forall_alter; [done|]. intros col _. apply shaped_take.
  - apply Forall_alter; [done|]. intros col _. apply Forall_pop.
  - apply Forall_alter; [done|]. intros col _. apply ordered_pop.
Qed.

Lemma put_foundation_tidy g i cards card :
  tidy g ->
  foundation g !! i = Some cards ->
  faceUp card ->
  foundationOrdered (cards ++ [card]) ->
  tidy (withFoundation g (putOn (foundation g) i [card])).
Proof.
  intros (Hs & Hw & Hfu & Hfo & Ht) Hi Hup Hord.
  unfold tidy, putOn. cbn. repeat split; try done.
  - apply Forall_alter; [done|]. intros col _ Hcol.
    apply Forall_app. split; [done|]. by repeat constructor.
  - apply Forall_alter; [done|]. intros col Hcol _. congruence.
Qed.

Lemma put_tableau_tidy g i run :
  tidy g -> Forall faceUp run ->
  tidy (withTableau g (putOn (tableau g) i run)).
Proof.
  intros (Hs & Hw & Hfu & Hfo & Ht) Hrun.
  unfold tidy, putOn. cbn. repeat split; try done.
  apply Forall_alter; [done|]. intros col _ Hcol. by apply shaped_app.
Qed.

Lemma clickCard_tidy game srcType srcIdx index ng :
  tidy game -> clickCard game srcType srcIdx index = SetGame ng -> tidy ng.
Proof.
  intros Htidy Hclick.
  apply clickCard_inv in Hclick
    as (src & card & Hat & Hup
        & [(Hnf & i & cards & Hi & Hacc & ->) | (i & cards & Hi & Hacc & ->)]).
  - rewrite <- (withoutCard_foundation game src Hnf).
    apply (put_foundation_tidy _ _ cards).
    + by apply withoutCard_tidy.
    + by rewrite withoutCard_foundation.
    + done.
    + apply ordered_push; [|done].
      destruct Htidy as (_ & _ & _ & Hfo & _).
      rewrite Forall_forall in Hfo. apply Hfo. by eapply list_elem_of_lookup_2.
  - apply put_tableau_tidy; [by apply withoutRun_tidy|].
    destruct src; cbn [runFrom]; try by repeat constructor.
    apply Forall_forall. intros c Hc.
    apply list_elem_of_fmap in Hc as (x & -> & _). reflexivity.
Qed.

Lemma dropCards_tidy game srcType srcIdx idx tgtType tgtIdx ng :
  tidy game -> dropCards game srcType srcIdx idx tgtType tgtIdx = SetGame ng -> tidy ng.
Proof.
  intros Htidy Hdrop.
  apply dropCards_inv in Hdrop
    as (src & card & t & tgtPile & Hat & Hdrag
        & [(Ht & Hacc & ->) | (Ht & Hacc & ->)]).
  - assert (Hup : faceUp card).
    { destruct Hdrag as [-> | Hup]; [|done].
      destruct Htidy as (_ & Hw & _). rewrite Forall_forall in Hw. apply Hw.
      cbn in Hat. apply last_Some in Hat as [l' ->].
      apply elem_of_app. right. by apply list_elem_of_singleton. }
    assert (Hord : foundationOrdered tgtPile).
    { destruct Htidy as (_ & _ & _ & Hfo & _).
      rewrite Forall_forall in Hfo. apply Hfo. by eapply list_elem_of_lookup_2. }
    destruct (decide (src = OnFoundation t)) as [-> | Hne].
    + destruct Hat as (col & Hcol & Hlast).
      assert (col = tgtPile) as -> by congruence.
      apply (put_foundation_tidy _ _ (JsArray.pop tgtPile)).
      * by apply withoutRun_tidy.
      * cbn. by rewrite list_lookup_alter_eq, Ht.
      * done.
      * by rewrite (pop_last _ _ Hlast).
    + apply (put_foundation_tidy _ _ tgtPile).
      * by apply withoutRun_tidy.
      * destruct src as [|s n|s]; cbn; try done.
        rewrite list_lookup_alter_ne; [done | congruence].
      * done.
      * by apply ordered_push.
  - apply put_tableau_tidy; [by apply withoutRun_tidy|].
    destruct src as [|s n|s]; cbn [dragged].
    + destruct Hdrag as [_ | Hup]; [|by repeat constructor].
      destruct Htidy as (_ & Hw & _). rewrite Forall_forall in Hw.
      repeat constructor. apply Hw.
      cbn in Hat. apply last_Some in Hat as [l' ->].
      apply elem_of_app. right. by apply list_elem_of_singleton.
    + destruct Hdrag as [[=] | Hup].
      destruct Hat as (col & Hcol & Hn). rewrite Hcol. unfold default, id.
      apply (shaped_drop col n card); [|done|done].
      destruct Htidy as (_ & _ & _ & _ & Htab).
      rewrite Forall_forall in Htab. apply Htab. by eapply list_elem_of_lookup_2.
    + destruct Hdrag as [[=] | Hup]. by repeat constructor.
Qed.

Lemma reachable_tidy (g : GameState) : reachable g -> tidy g.
Proof.
  induction 1 as [rnd g Hinit | g ng _ IH Hstock
                 | g srcType srcIdx idx tgtType tgtIdx ng _ IH Hdrop
                 | g srcType srcIdx index ng _ IH Hclick].
  - by eapply initializeGame_tidy.
  - by eapply handleStock_tidy.
  - by eapply dropCards_tidy.
  - by eapply clickCard_tidy.
Qed.

Lemma gameDrawn_reachable : reachable gameDrawn.
Proof.
  apply (reach_stock game0); [exact game0_reachable|].
  vm_compute. reflexivity.
Qed.

(** In every reachable state all stock cards are face-down and all waste
    cards are face-up. *)
Theorem stock_and_waste_faces (g : GameState) :
  reachable g -> Forall faceDown (stock g) /\ Forall faceUp (waste g).
Proof.
  intros (Hs & Hw & _)%reachable_tidy. by split.
Qed.

Lemma stock_and_waste_faces_witness :
  reachable gameDrawn
  /\ Forall faceDown (stock gameDrawn) /\ Forall faceUp (waste gameDrawn).
Proof.
  split; [exact gameDrawn_reachable|].
  exact (stock_and_waste_faces gameDrawn gameDrawn_reachable).
Defined.

(** In every reachable state each foundation pile holds cards of a single
    suit whose ranks ascend one by one from the Ace at the bottom. *)
Theorem foundation_monotone (g : GameState) (i : nat) (pile : Pile) :
  reachable g ->
  foundation g !! i = Some pile ->
  (forall (k : nat) c, pile !! k = Some c -> rankValue (rank c) = Z.of_nat k + 1)
  /\ (forall c c', c ∈ pile -> c' ∈ pile -> suit c = suit c').
Proof.
  intros (_ & _ & _ & Hfo & _)%reachable_tidy Hi.
  rewrite Forall_forall in Hfo. apply Hfo. by eapply list_elem_of_lookup_2.
Qed.

Lemma foundation_monotone_witness :
  reachable game3
  /\ foundation game3 !! 0%nat = Some [aceOfHearts; twoOfHearts]
  /\ (forall (k : nat) c, [aceOfHearts; twoOfHearts] !! k = Some c ->
        rankValue (rank c) = Z.of_nat k + 1)
  /\ (forall c c', c ∈ [aceOfHearts; twoOfHearts] -> c' ∈ [aceOfHearts; twoOfHearts] ->
        suit c = suit c').
Proof.
  assert (H0 : foundation game3 !! 0%nat = Some [aceOfHearts; twoOfHearts]).
  { vm_compute. reflexivity. }
  split; [exact game3_reachable|]. split; [exact H0|].
  exact (foundation_monotone game3 0 [aceOfHearts; twoOfHearts] game3_reachable H0).
Defined.

(** In every reachable state each tableau pile is a prefix of face-down
    cards followed by a suffix of face-up cards, with its top card face-up. *)
Theorem tableau_face_state (g : GameState) (i : nat) (pile : Pile) :
  reachable g ->
  tableau g !! i = Some pile ->
  exists down up,
    pile = down ++ up /\ Forall faceDown down /\ Forall faceUp up
    /\ (pile <> [] -> up <> []).
Proof.
  intros (_ & _ & _ & _ & Ht)%reachable_tidy Hi.
  rewrite Forall_forall in Ht. apply (Ht pile). by eapply list_elem_of_lookup_2.
Qed.

Lemma tableau_face_state_witness :
  reachable game2
  /\ tableau game2 !! 1%nat = Some [queenOfSpades false; twoOfHearts; aceOfSpades]
  /\ exists down up,
       [queenOfSpades false; twoOfHearts; aceOfSpades] = down ++ up
       /\ Forall faceDown down /\ Forall faceUp up
       /\ ([queenOfSpades false; twoOfHearts; aceOfSpades] <> [] -> up <> []).
Proof.
  assert (H1 : tableau game2 !! 1%nat
               = Some [queenOfSpades false; twoOfHearts; aceOfSpades]).
  { vm_compute. reflexivity. }
  split; [exact game2_reachable|]. split; [exact H1|].
  exact (tableau_face_state game2 1 _ game2_reachable H1).
Defined.

(** ** The orderings a shuffle produces *)

Section ShuffleFacts.
Context {T : Type}.
Implicit Types arr : list T.

Lemma swap_app_l arr k i j :
  (i < length arr)%nat -> (j < length arr)%nat ->
  JsArray.swap (arr ++ k) i j = JsArray.swap arr i j ++ k.
Proof.
  intros Hi Hj. unfold JsArray.swap.
  rewrite !lookup_app_l by done.
  destruct (arr !! i) as [x|] eqn:Ei; [|by apply lookup_ge_None in Ei; lia].
  destruct (arr !! j) as [y|] eqn:Ej; [|by apply lookup_ge_None in Ej; lia].
  rewrite insert_app_l by done.
  rewrite insert_app_l by (by rewrite length_insert).
  done.
Qed.

(** After the exchange, position [i] holds what position [j] held. *)
Lemma swap_lookup_i arr i j y :
  (i < length arr)%nat -> arr !! j = Some y -> JsArray.swap arr i j !! i = Some y.
Proof.
  intros Hi Hj. unfold JsArray.swap.
  destruct (lookup_lt_is_Some_2 arr i Hi) as [x Hx]. rewrite Hx, Hj.
  destruct (decide (i = j)) as [->|Hne].
  - assert (x = y) as -> by congruence.
    rewrite list_lookup_insert_eq; [done|]. by rewrite length_insert.
  - rewrite list_lookup_insert_ne by done.
    by rewrite list_lookup_insert_eq.
Qed.
End ShuffleFacts.

Lemma shuffleLoop_app rnd i (arr k : list CardType) :
  (i < length arr)%nat ->
  shuffleLoop rnd i (arr ++ k) = shuffleLoop rnd i arr ++ k.
Proof.
  revert arr. induction i as [|i IH]; intros arr Hi; [done|].
  cbn [shuffleLoop].
  assert (Hj : (rnd (S i) mod (S i + 1) < length arr)%nat).
  { pose proof (Nat.mod_upper_bound (rnd (S i)) (S i + 1)). lia. }
  rewrite swap_app_l by done.
  apply IH. rewrite length_swap. lia.
Qed.

Lemma shuffleLoop_ext rnd rnd' i (arr : list CardType) :
  (forall k, (1 <= k <= i)%nat -> rnd k = rnd' k) ->
  shuffleLoop rnd i arr = shuffleLoop rnd' i arr.
Proof.
  revert arr. induction i as [|i IH]; intros arr Hext; [done|].
  cbn [shuffleLoop]. rewrite (Hext (S i)) by lia.
  apply IH. intros k Hk. apply Hext. lia.
Qed.

(** The loop at index [i] fixes the last card and goes on with the cards
    before it. *)
Lemma shuffleLoop_step rnd i (arr : list CardType) :
  length arr = S (S i) ->
  exists before y,
    arr !! (rnd (S i) mod (S i + 1))%nat = Some y
    /\ JsArray.swap arr (S i) (rnd (S i) mod (S i + 1))%nat = before ++ [y]
    /\ length before = S i
    /\ before ++ [y] ≡ₚ arr
    /\ shuffleLoop rnd (S i) arr = shuffleLoop rnd i before ++ [y].
Proof.
  intros Hlen.
  set (j := (rnd (S i) mod (S i + 1))%nat).
  assert (Hj : (j < length arr)%nat).
  { pose proof (Nat.mod_upper_bound (rnd (S i)) (S i + 1)). lia. }
  destruct (lookup_lt_is_Some_2 arr j Hj) as [y Hy].
  pose proof (swap_lookup_i arr (S i) j y ltac:(lia) Hy) as Hlast.
  pose proof (length_swap arr (S i) j) as Hslen.
  exists (take (S i) (JsArray.swap arr (S i) j)), y.
  assert (Hsplit : JsArray.swap arr (S i) j
                   = take (S i) (JsArray.swap arr (S i) j) ++ [y]).
  { rewrite <- (take_drop (S i) (JsArray.swap arr (S i) j)) at 1. f_equal.
    rewrite (drop_S _ _ _ Hlast), drop_ge by lia. done. }
  split; [done|]. split; [done|].
  split; [rewrite length_take; lia|].
  split; [rewrite <- Hsplit; apply swap_Permutation|].
  cbn [shuffleLoop]. fold j. rewrite Hsplit at 1.
  apply shuffleLoop_app. rewrite length_take. lia.
Qed.

(** Every ordering of the cards comes out of some sequence of draws. *)
Lemma shuffleLoop_onto n (arr t : list CardType) :
  length arr = S n -> t ≡ₚ arr -> exists rnd, shuffleLoop rnd n arr = t.
Proof.
  revert arr t. induction n as [|n IH]; intros arr t Hlen Hperm.
  - exists (fun i => i). cbn.
    destruct arr as [|x [|? ?]]; try discriminate.
    by apply Permutation_singleton_r in Hperm.
  - assert (Htlen : length t = S (S n)) by (by rewrite Hperm).
    destruct (last t) as [y|] eqn:Hy.
    2:{ apply last_None in Hy. subst t. discriminate. }
    apply last_Some in Hy as [t' ->].
    assert (Hin : y ∈ arr).
    { rewrite <- Hperm. apply elem_of_app. right. by apply list_elem_of_singleton. }
    apply list_elem_of_lookup in Hin as [j Hj].
    assert (Hjlt : (j < S (S n))%nat).
    { apply lookup_lt_Some in Hj. lia. }
    set (pick := fun i : nat => if (i =? S n)%nat then j else 0%nat).
    destruct (shuffleLoop_step pick n arr Hlen)
      as (before & y' & Hy' & Hswap & Hblen & Hbperm & Hloop).
    assert (Hpick : (pick (S n) mod (S n + 1))%nat = j).
    { unfold pick. rewrite Nat.eqb_refl. apply Nat.mod_small. lia. }
    rewrite Hpick in Hy'. assert (y' = y) as -> by congruence.
    assert (Hperm' : t' ≡ₚ before).
    { apply (Permutation_app_inv_r [y]). by rewrite Hbperm. }
    destruct (IH before t' Hblen Hperm') as [rnd' Hrnd'].
    exists (fun i => if (i =? S n)%nat then j else rnd' i).
    destruct (shuffleLoop_step (fun i => if (i =? S n)%nat then j else rnd' i) n arr Hlen)
      as (before2 & y2 & Hy2 & Hswap2 & _ & _ & Hloop2).
    cbn beta in *. rewrite Nat.eqb_refl in *.
    rewrite Nat.mod_small in Hy2, Hswap2 by lia.
    rewrite Hpick in Hswap.
    rewrite Hswap in Hswap2. apply app_inj_tail in Hswap2 as [<- <-].
    rewrite Hloop2. f_equal. rewrite <- Hrnd'.
    apply shuffleLoop_ext. intros k Hk.
    destruct (Nat.eqb_spec k (S n)); [lia | done].
Qed.

(** On distinct cards, the ordering tells every draw. *)
Lemma shuffleLoop_draws n (arr : list CardType) rnd rnd' :
  length arr = S n -> NoDup arr ->
  shuffleLoop rnd n arr = shuffleLoop rnd' n arr ->
  forall i, (1 <= i <= n)%nat ->
            (rnd i mod (i + 1) = rnd' i mod (i + 1))%nat.
Proof.
  revert arr. induction n as [|n IH]; intros arr Hlen Hnd Heq i Hi; [lia|].
  destruct (shuffleLoop_step rnd n arr Hlen)
    as (b1 & y1 & Hy1 & Hs1 & Hb1 & Hp1 & Hl1).
  destruct (shuffleLoop_step rnd' n arr Hlen)
    as (b2 & y2 & Hy2 & Hs2 & Hb2 & Hp2 & Hl2).
  rewrite Hl1, Hl2 in Heq. apply app_inj_tail in Heq as [Heq <-].
  assert (Hj : (rnd (S n) mod (S n + 1) = rnd' (S n) mod (S n + 1))%nat).
  { by eapply NoDup_lookup. }
  destruct (decide (i = S n)) as [->|Hne]; [done|].
  rewrite <- Hj, Hs1 in Hs2. apply app_inj_tail in Hs2 as [<- _].
  apply (IH b1); [done | | done | lia].
  rewrite <- Hp1 in Hnd. by apply NoDup_app in Hnd as [Hnd _].
Qed.

(** The orderings [shuffleDeck] can return are exactly the rearrangements of
    the deck it is given: it adds, drops and repeats nothing, and no
    rearrangement is out of its reach. *)
Theorem shuffle_orderings (deck t : list CardType) :
  (exists rnd, shuffleDeck rnd deck = t) <-> t ≡ₚ deck.
Proof.
  split.
  - intros [rnd <-]. apply shuffleDeck_Permutation.
  - intros Hperm. unfold shuffleDeck.
    destruct (length deck) as [|n] eqn:Hlen.
    + apply nil_length_inv in Hlen. subst deck.
      apply Permutation_nil_r in Hperm. subst t. by exists (fun i => i).
    + replace (S n - 1)%nat with n by lia. by apply shuffleLoop_onto.
Qed.

(** On a deck of distinct cards the ordering returned by [shuffleDeck] fixes
    every index the loop drew: two runs that return the same ordering drew
    the same index [j] in [0 .. i] at every [i], so each ordering comes from
    exactly one sequence of draws. *)
Theorem shuffle_draws_unique (deck : list CardType) (rnd rnd' : nat -> nat) :
  NoDup deck ->
  shuffleDeck rnd deck = shuffleDeck rnd' deck ->
  forall i, (1 <= i < length deck)%nat ->
            (rnd i mod (i + 1) = rnd' i mod (i + 1))%nat.
Proof.
  intros Hnd Heq i Hi. unfold shuffleDeck in Heq.
  destruct (length deck) as [|n] eqn:Hlen; [lia|].
  replace (S n - 1)%nat with n in Heq by lia.
  apply (shuffleLoop_draws n deck rnd rnd'); [done | done | done | lia].
Qed.

Lemma createDeck_distinct : NoDup createDeck.
Proof. apply (bool_decide_unpack _). vm_compute. reflexivity. Qed.

Lemma shuffle_draws_unique_witness :
  NoDup createDeck
  /\ shuffleDeck acesOnTop createDeck = shuffleDeck acesOnTopAgain createDeck
  /\ forall i, (1 <= i < length createDeck)%nat ->
               (acesOnTop i mod (i + 1) = acesOnTopAgain i mod (i + 1))%nat.
Proof.
  assert (Heq : shuffleDeck acesOnTop createDeck
                = shuffleDeck acesOnTopAgain createDeck).
  { vm_compute. reflexivity. }
  split; [exact createDeck_distinct|]. split; [exact Heq|].
  exact (shuffle_draws_unique createDeck acesOnTop acesOnTopAgain
           createDeck_distinct Heq).
Defined.

(** ** Going through the stock *)




(** ** No card is ever duplicated *)

Lemma submseteq_NoDup {T} (l k : list T) : l ⊆+ k -> NoDup k -> NoDup l.
Proof.
  induction 1 as [|x l k Hlk IH|x y l|x l k Hlk IH|l k m _ IH1 _ IH2]; intros Hk.
  - done.
  - apply NoDup_cons in Hk as [Hx Hk]. apply NoDup_cons. split; [|auto].
    intros Hin. apply Hx. by eapply elem_of_submseteq.
  - apply NoDup_cons in Hk as [Hx Hk]. apply NoDup_cons in Hk as [Hy Hk].
    apply NoDup_cons. split.
    + intros [->|Hin]%elem_of_cons; [|done].
      apply Hx. by left.
    + apply NoDup_cons. split; [|done].
      intros Hin. apply Hx. by right.
  - apply NoDup_cons in Hk as [_ Hk]. auto.
  - auto.
Qed.

(** The dragged cards begin with the dragged card. *)
Lemma dragged_head game src card :
  clickedAt game src card -> exists rest, dragged game src card = card :: rest.
Proof.
  destruct src as [|s n|s]; cbn [dragged clickedAt]; [by exists [] | | by exists []].
  intros (col & Hcol & Hn). rewrite Hcol. unfold default, id.
  exists (drop (S n) col). by apply drop_S.
Qed.

(** A drop never adds a card: what the new state holds, the old one held. *)
Lemma dropCards_subCards game srcType srcIdx idx tgtType tgtIdx ng :
  dropCards game srcType srcIdx idx tgtType tgtIdx = SetGame ng ->
  map face (allCards ng) ⊆+ map face (allCards game).
Proof.
  intros Hdrop.
  apply dropCards_inv in Hdrop
    as (src & card & t & tgtPile & Hat & _
        & [(Ht & _ & ->) | (Ht & _ & ->)]).
  - destruct (lookup_lt_is_Some_2 (foundation (withoutRun game src)) t) as [x Hx].
    { rewrite (proj1 (withoutRun_lengths game src)). by eapply lookup_lt_Some. }
    rewrite (put_foundation_faces _ _ x) by done.
    rewrite <- (withoutRun_faces game src card Hat).
    apply submseteq_skips_l.
    destruct (dragged_head game src card Hat) as [rest ->].
    cbn [map]. apply submseteq_skip, submseteq_nil_l.
  - apply Permutation_submseteq.
    apply drop_on_tableau_sameCards; [done|]. by eapply lookup_lt_Some.
Qed.

Lemma reachable_subCards (g : GameState) :
  reachable g -> map face (allCards g) ⊆+ map face createDeck.
Proof.
  induction 1 as [rnd g Hinit | g ng _ IH Hstock
                 | g srcType srcIdx idx tgtType tgtIdx ng _ IH Hdrop
                 | g srcType srcIdx index ng _ IH Hclick].
  - apply Permutation_submseteq. by eapply initializeGame_cards.
  - rewrite <- IH. apply Permutation_submseteq. by apply handleStock_sameCards.
  - rewrite <- IH. by eapply dropCards_subCards.
  - rewrite <- IH. apply Permutation_submseteq. by eapply clickCard_sameCards.
Qed.

(** In every reachable state the cards on the table are cards of the deck,
    each at most once: a card can leave the table (with a run dropped on a
    foundation pile) but no card is ever created or duplicated. *)
Theorem cards_never_duplicated (g : GameState) :
  reachable g ->
  map face (allCards g) ⊆+ map face createDeck
  /\ NoDup (map face (allCards g))
  /\ (length (allCards g) <= 52)%nat.
Proof.
  intros Hsub%reachable_subCards.
  split; [done|]. split.
  - eapply submseteq_NoDup; [done | exact createDeck_NoDup].
  - apply submseteq_length in Hsub. by rewrite !length_map in Hsub.
Qed.

Lemma cards_never_duplicated_witness :
  reachable game3
  /\ map face (allCards game3) ⊆+ map face createDeck
  /\ NoDup (map face (allCards game3))
  /\ (length (allCards game3) <= 52)%nat.
Proof.
  split; [exact game3_reachable|].
  exact (cards_never_duplicated game3 game3_reachable).
Defined.

(** ** What the rules never accept *)

Lemma rankValue_inj (r r' : Rank) : rankValue r = rankValue r' -> r = r'.
Proof. destruct r, r'; cbn; intros H; try reflexivity; discriminate H. Qed.

(** A foundation pile topped by a King and a tableau pile topped by an Ace
    accept no card; no pile accepts a card of the rank of its top card, so a
    card put back on the pile it tops is rejected; and the cards a non-empty
    pile accepts agree in rank, and in suit (foundation) or in colour
    (tableau). *)
Theorem legality_edges (pile : Pile) (top : CardType) :
  last pile = Some top ->
  (rank top = King -> forall card, canMoveToFoundation card pile = false)
  /\ (rank top = Ace -> forall card, canMoveToTableau card pile = false)
  /\ (forall card, rank card = rank top ->
        canMoveToFoundation card pile = false /\ canMoveToTableau card pile = false)
  /\ (forall c c', canMoveToFoundation c pile = true ->
                   canMoveToFoundation c' pile = true ->
                   suit c = suit c' /\ rank c = rank c')
  /\ (forall c c', canMoveToTableau c pile = true ->
                   canMoveToTableau c' pile = true ->
                   color (suit c) = color (suit c') /\ rank c = rank c').
Proof.
  intros Htop. unfold canMoveToFoundation, canMoveToTableau. rewrite Htop.
  repeat split.
  - intros HK card. rewrite HK. apply andb_false_iff. right.
    apply Z.eqb_neq. rewrite !indexOf_RANKS. destruct (rank card); cbn; lia.
  - intros HA card. rewrite HA. apply andb_false_iff. right.
    apply Z.eqb_neq. rewrite !indexOf_RANKS. destruct (rank card); cbn; lia.
  - rewrite H. apply andb_false_iff. right. apply Z.eqb_neq. lia.
  - rewrite H. apply andb_false_iff. right. apply Z.eqb_neq. lia.
  - apply andb_true_iff in H as [Hs _]. apply andb_true_iff in H0 as [Hs' _].
    apply bool_decide_eq_true in Hs, Hs'. congruence.
  - apply andb_true_iff in H as [_ Hr]. apply andb_true_iff in H0 as [_ Hr'].
    apply Z.eqb_eq in Hr, Hr'. rewrite !indexOf_RANKS in Hr, Hr'.
    apply rankValue_inj. lia.
  - apply andb_true_iff in H as [Hc _]. apply andb_true_iff in H0 as [Hc' _].
    apply red_differs in Hc, Hc'.
    destruct (suit c), (suit c'), (suit top); cbn in *; congruence.
  - apply andb_true_iff in H as [_ Hr]. apply andb_true_iff in H0 as [_ Hr'].
    apply Z.eqb_eq in Hr, Hr'. rewrite !indexOf_RANKS in Hr, Hr'.
    apply rankValue_inj. lia.
Qed.

Lemma legality_edges_witness :
  last [aceOfHearts] = Some aceOfHearts
  /\ forall card, canMoveToTableau card [aceOfHearts] = false.
Proof.
  split; [reflexivity|].
  exact (proj1 (proj2 (legality_edges [aceOfHearts] aceOfHearts eq_refl)) eq_refl).
Defined.

(** ** Complete foundation piles *)

Lemma ordered_length (pile : Pile) :
  foundationOrdered pile -> (length pile <= 13)%nat.
Proof.
  intros [Hranks _].
  destruct (decide (length pile <= 13)%nat) as [|Hgt]; [done|].
  destruct (lookup_lt_is_Some_2 pile 13) as [c Hc]; [lia|].
  apply Hranks in Hc. destruct (rank c); cbn in Hc; lia.
Qed.

Lemma ordered_full_top (pile : Pile) :
  foundationOrdered pile -> length pile = 13%nat ->
  exists top, last pile = Some top /\ rank top = King.
Proof.
  intros [Hranks _] Hlen.
  destruct (lookup_lt_is_Some_2 pile 12) as [c Hc]; [lia|].
  exists c. split.
  - rewrite last_lookup, Hlen. exact Hc.
  - apply Hranks in Hc. apply rankValue_inj. cbn. lia.
Qed.

(** In every reachable state a foundation pile holds at most 13 cards, and a
    pile of 13 cards, Ace to King, accepts no further card. *)
Theorem foundation_complete (g : GameState) (i : nat) (pile : Pile) :
  reachable g ->
  foundation g !! i = Some pile ->
  (length pile <= 13)%nat
  /\ (length pile = 13%nat -> forall card, canMoveToFoundation card pile = false).
Proof.
  intros (_ & _ & _ & Hfo & _)%reachable_tidy Hi.
  rewrite Forall_forall in Hfo.
  assert (Hord : foundationOrdered pile).
  { apply Hfo. by eapply list_elem_of_lookup_2. }
  split; [by apply ordered_length|].
  intros Hlen card.
  destruct (ordered_full_top pile Hord Hlen) as (top & Htop & HK).
  unfold canMoveToFoundation. rewrite Htop, HK.
  apply andb_false_iff. right. apply Z.eqb_neq.
  rewrite !indexOf_RANKS. destruct (rank card); cbn; lia.
Qed.

Lemma foundation_complete_witness :
  reachable game3
  /\ foundation game3 !! 0%nat = Some [aceOfHearts; twoOfHearts]
  /\ (length [aceOfHearts; twoOfHearts] <= 13)%nat.
Proof.
  assert (H0 : foundation game3 !! 0%nat = Some [aceOfHearts; twoOfHearts]).
  { vm_compute. reflexivity. }
  split; [exact game3_reachable|]. split; [exact H0|].
  exact (proj1 (foundation_complete game3 0 _ game3_reachable H0)).
Defined.

(** ** A click is a drop on the first accepting pile *)

Lemma withoutCard_top game src card :
  clickedAt game src card -> dragged game src card = [card] ->
  withoutCard game src = withoutRun game src.
Proof.
  destruct src as [|s n|s]; [done | | done].
  intros (col & Hcol & Hn) Hone. cbn [dragged] in Hone.
  rewrite Hcol in Hone. unfold default, id in Hone.
  cbn [withoutCard withoutRun]. f_equal.
  apply list_alter_ext; [|done]. intros x Hx.
  assert (x = col) as -> by congruence.
  rewrite (drop_S _ _ _ Hn) in Hone. injection Hone as ->.
  by rewrite app_nil_r.
Qed.

Lemma withoutRun_foundation game src :
  ~ fromFoundation src -> foundation (withoutRun game src) = foundation game.
Proof. destruct src; [done | done | intros []; by eexists]. Qed.

(** Clicking a card does what dragging it to the first accepting pile does:
    for a top card that a foundation pile accepts, the drop on the first
    accepting foundation pile; else, for a card whose run is face-up, the
    drop on the first accepting tableau pile. *)
Theorem click_is_drop (game : GameState) (src : clickSource) (card : CardType) :
  clickedAt game src card ->
  (forall i,
      ~ fromFoundation src ->
      dragged game src card = [card] ->
      firstAccepting (canMoveToFoundation card) (foundation game) i ->
      handleCardClick game card (srcTypeOf src) (srcIdxOf src) (clickIndexOf game src)
      = moveCards game (srcTypeOf src) (srcIdxOf src) (clickIndexOf game src)
          "foundation" (Z.of_nat i))
  /\ (forall i,
        fromFoundation src \/ noneAccepts (canMoveToFoundation card) (foundation game) ->
        Forall faceUp (dragged game src card) ->
        firstAccepting (canMoveToTableau card) (tableau game) i ->
        handleCardClick game card (srcTypeOf src) (srcIdxOf src) (clickIndexOf game src)
        = moveCards game (srcTypeOf src) (srcIdxOf src) (clickIndexOf game src)
            "tableau" (Z.of_nat i)).
Proof.
  intros Hat. split.
  - intros i Hnf Hone Hfirst.
    rewrite handleCardClick_other.
    2:{ destruct (String.eqb (srcTypeOf src) "foundation") eqn:E; [|done].
        by apply srcTypeOf_foundation in E. }
    rewrite (foundation_loop_first _ _ _ _ _ i Hfirst).
    destruct Hfirst as [(cards & Hi & Hacc) _].
    rewrite (clickToFoundation_at _ _ _ _ cards) by done.
    rewrite (moveCards_accepted game src card "foundation" i cards); [|done| |done].
    + cbn [String.eqb Ascii.eqb Bool.eqb].
      by rewrite (withoutCard_top _ _ _ Hat Hone), withoutRun_foundation.
    + unfold targetPile. cbn [String.eqb Ascii.eqb Bool.eqb].
      by rewrite get_of_nat.
  - intros i Hskip Hup Hfirst.
    rewrite handleCardClick_tableau_loop by done.
    rewrite (tableau_loop_first _ _ _ _ _ i Hfirst).
    destruct Hfirst as [(cards & Hi & Hacc) _].
    rewrite (clickToTableau_at _ _ _ _ cards) by done.
    rewrite (moveCards_accepted game src card "tableau" i cards); [|done| |done].
    + cbn [String.eqb Ascii.eqb Bool.eqb]. do 3 f_equal.
      destruct src as [|s n|s]; cbn [runFrom dragged] in *; try done.
      by apply map_withFace_faceUp.
    + unfold targetPile. cbn [String.eqb Ascii.eqb Bool.eqb].
      by rewrite get_of_nat.
Qed.

Lemma click_is_drop_witness :
  clickedAt game0 (OnTableau 0 0) aceOfHearts
  /\ dragged game0 (OnTableau 0 0) aceOfHearts = [aceOfHearts]
  /\ firstAccepting (canMoveToFoundation aceOfHearts) (foundation game0) 0
  /\ handleCardClick game0 aceOfHearts "tableau" (Z.of_nat 0) (Z.of_nat 0)
     = moveCards game0 "tableau" (Z.of_nat 0) (Z.of_nat 0) "foundation" (Z.of_nat 0).
Proof.
  assert (Hat : clickedAt game0 (OnTableau 0 0) aceOfHearts).
  { eexists. split; vm_compute; reflexivity. }
  assert (Hone : dragged game0 (OnTableau 0 0) aceOfHearts = [aceOfHearts]).
  { vm_compute. reflexivity. }
  assert (Hfirst : firstAccepting (canMoveToFoundation aceOfHearts) (foundation game0) 0).
  { split; [eexists; split; vm_compute; reflexivity | intros k cards Hk; lia]. }
  split; [exact Hat|]. split; [exact Hone|]. split; [exact Hfirst|].
  apply (proj1 (click_is_drop game0 (OnTableau 0 0) aceOfHearts Hat) 0%nat);
    [intros [s Hs]; discriminate Hs | exact Hone | exact Hfirst].
Defined.

(** ** What a move leaves alone *)

(** A click or a drop that sets a state never changes the stock or the
    number of piles, and the waste is as before or without its top card. *)
Theorem moves_leave_stock (game ng : GameState) :
  (exists srcType srcIdx index,
      clickCard game srcType srcIdx index = SetGame ng)
  \/ (exists srcType srcIdx idx tgtType tgtIdx,
        dropCards game srcType srcIdx idx tgtType tgtIdx = SetGame ng) ->
  stock ng = stock game
  /\ length (foundation ng) = length (foundation game)
  /\ length (tableau ng) = length (tableau game)
  /\ (waste ng = waste game \/ waste ng = JsArray.pop (waste game)).
Proof.
  assert (Hwaste : forall src,
    waste (withoutRun game src) = waste game
    \/ waste (withoutRun game src) = JsArray.pop (waste game)).
  { intros [|s n|s]; cbn; auto. }
  assert (Hwaste' : forall src,
    waste (withoutCard game src) = waste game
    \/ waste (withoutCard game src) = JsArray.pop (waste game)).
  { intros [|s n|s]; cbn; auto. }
  assert (Hstock : forall src, stock (withoutRun game src) = stock game).
  { by intros [|s n|s]. }
  assert (Hstock' : forall src, stock (withoutCard game src) = stock game).
  { by intros [|s n|s]. }
  assert (Hlen' : forall src,
    length (tableau (withoutCard game src)) = length (tableau game)).
  { intros [|s n|s]; cbn; by rewrite ?length_alter. }
  intros [(srcType & srcIdx & index & Hclick)
         | (srcType & srcIdx & idx & tgtType & tgtIdx & Hdrop)].
  - apply clickCard_inv in Hclick
      as (src & card & Hat & Hup
          & [(Hnf & i & cards & Hi & Hacc & ->) | (i & cards & Hi & Hacc & ->)]).
    + cbn [stock waste foundation tableau withFoundation]. unfold putOn.
      rewrite length_alter. auto.
    + cbn [stock waste foundation tableau withTableau]. unfold putOn.
      rewrite length_alter.
      destruct (withoutRun_lengths game src) as [Hf Ht]. auto.
  - apply dropCards_inv in Hdrop
      as (src & card & t & tgtPile & Hat & Hdrag
          & [(Ht & Hacc & ->) | (Ht & Hacc & ->)]);
      cbn [stock waste foundation tableau withFoundation withTableau];
      unfold putOn; rewrite length_alter;
      destruct (withoutRun_lengths game src) as [Hf Htl]; auto.
Qed.

Lemma moves_leave_stock_witness :
  ((exists srcType srcIdx index,
       clickCard game0 srcType srcIdx index = SetGame game1)
   \/ (exists srcType srcIdx idx tgtType tgtIdx,
         dropCards game0 srcType srcIdx idx tgtType tgtIdx = SetGame game1))
  /\ stock game1 = stock game0
  /\ length (tableau game1) = length (tableau game0).
Proof.
  assert (Hdrop : exists srcType srcIdx idx tgtType tgtIdx,
             dropCards game0 srcType srcIdx idx tgtType tgtIdx = SetGame game1).
  { exists "tableau"%string, 0, 0, "foundation"%string, 0. exact game1_dropped. }
  split; [right; exact Hdrop|].
  destruct (moves_leave_stock game0 game1 (or_intror Hdrop)) as (Hs & _ & Ht & _).
  split; [exact Hs | exact Ht].
Defined.

(** * The photo editor *)

Section EditorFacts.
Import Editor.
Context {Image : Type} (jsonCopy : list Edit -> list Edit).
Implicit Types (s p : EditorState Image) (ev : Event Image).

Lemma sliceTo_snoc {T : Type} (h : list T) (e : T) : sliceTo (h ++ [e]) (-1) = h.
Proof.
  unfold sliceTo.
  assert (JsArray.relStart (length (h ++ [e])) (-1) = length h) as ->.
  { unfold JsArray.relStart. rewrite length_app. cbn [length Z.ltb Z.compare]. lia. }
  by rewrite take_app_length.
Qed.

Lemma undo_pushSnapshot s p :
  undo (pushSnapshot jsonCopy s p)
  = setHistory (history p) (setEdits (jsonCopy (edits s)) (setImage (image s) p)).
Proof.
  unfold undo, pushSnapshot. cbn [history setHistory].
  rewrite last_snoc, sliceTo_snoc. reflexivity.
Qed.

(** ** One tool at a time *)

(** The tool flags after each handler. *)
Lemma handle_tools ev s s' :
  handle jsonCopy ev s = Some s' ->
  let tools p := (isAddingText p, isAddingCircle p, isHighlighting p, isCropping p) in
  tools s' = tools s
  \/ tools s' = (isAddingText s, false, false, isCropping s) /\ isAddingText s = true
  \/ tools s' = (false, isAddingCircle s, false, isCropping s) /\ isAddingText s = false
  \/ tools s' = (false, false, isHighlighting s, false)
  \/ tools s' = (false, false, false, isCropping s)
  \/ (exists b, tools s' = (b, false, false, false))
  \/ tools s' = (false, true, false, false)
  \/ tools s' = (false, false, true, false)
  \/ tools s' = (false, false, false, true).
Proof.
  intros Hs' tools. subst tools. cbv beta.
  destruct ev; cbn [handle] in Hs'.
  - injection Hs' as <-. by left.
  - injection Hs' as <-. unfold handleEscape.
    destruct (String.eqb key "Escape"); [|by left]. do 3 right. by left.
  - injection Hs' as <-. unfold handleStageClick.
    destruct (isAddingText s) eqn:Htext.
    + destruct (getUnscaledPointer stageRef).
      * do 4 right. by left.
      * right. left. split; [cbn; by rewrite Htext | done].
    + destruct (isAddingCircle s) eqn:Hcircle; [|left; by rewrite Htext, Hcircle].
      destruct (getUnscaledPointer stageRef).
      * do 4 right. by left.
      * do 2 right. left. split; [cbn; by rewrite Hcircle | done].
  - injection Hs' as <-. left. unfold stageMouseDown.
    destruct (negb _); [done|]. by destruct (getUnscaledPointer _).
  - injection Hs' as <-. left. unfold stageMouseMove.
    destruct (_ || _); [done|]. by destruct (getUnscaledPointer _).
  - injection Hs' as <-. left. unfold stageMouseUp. by destruct (_ || _).
  - left. unfold updateText in Hs'.
    destruct (updateData _ _ _); [|done]. by injection Hs' as <-.
  - injection Hs' as <-. left. unfold undo. by destruct (last _).
  - injection Hs' as <-. do 5 right. left. by eexists.
  - injection Hs' as <-. do 6 right. by left.
  - injection Hs' as <-. do 7 right. by left.
  - injection Hs' as <-. do 8 right. done.
  - injection Hs' as <-. left. unfold textClick. by destruct (decide _).
  - injection Hs' as <-. by left.
  - left. unfold circleDragEnd in Hs'.
    destruct (updateData _ _ _); [|done]. by injection Hs' as <-.
  - left. unfold circleTransformEnd in Hs'.
    destruct (updateData _ _ _); [|done]. by injection Hs' as <-.
  - injection Hs' as <-. by left.
  - injection Hs' as <-. by left.
Qed.

Lemma handle_exclusive ev s s' :
  exclusive s -> handle jsonCopy ev s = Some s' -> exclusive s'.
Proof.
  intros Hex Hs'. apply handle_tools in Hs'. cbv zeta in Hs'.
  unfold exclusive, activeTools in *.
  destruct Hs' as [H|[[H Ht]|[[H Ht]|[H|[H|[[b H]|[H|[H|H]]]]]]]];
    injection H as -> -> -> ->; try rewrite Ht in *;
    try destruct b;
    destruct (isAddingText s), (isAddingCircle s), (isHighlighting s), (isCropping s);
    cbn in *; lia.
Qed.
(** In every state the editor reaches through these handlers at most one
    of the four tools (add text, add circle, highlight, crop) is switched
    on. *)
Theorem one_tool_at_a_time (s : EditorState Image) :
  reachable jsonCopy s -> exclusive s.
Proof.
  induction 1 as [|s ev s' _ IH Hstep].
  - cbv. lia.
  - exact (handle_exclusive ev s s' IH Hstep).
Qed.

(** ** Snapshots and undo *)

Lemma handle_history ev s s' :
  ev <> Undo -> handle jsonCopy ev s = Some s' ->
  s' = pushSnapshot jsonCopy s (setHistory (history s) s')
  \/ history s' = history s.
Proof.
  intros Hev Hs'. destruct ev; try done; cbn in Hs'.
  - injection Hs' as <-. by right.
  - injection Hs' as <-. right. unfold handleEscape. by destruct (String.eqb _ _).
  - injection Hs' as <-. unfold handleStageClick.
    destruct (isAddingText s); [|destruct (isAddingCircle s)];
      try destruct (getUnscaledPointer stageRef); auto.
  - injection Hs' as <-. right. unfold stageMouseDown.
    destruct (negb _); [done|]. by destruct (getUnscaledPointer _).
  - injection Hs' as <-. right. unfold stageMouseMove.
    destruct (_ || _); [done|]. by destruct (getUnscaledPointer _).
  - injection Hs' as <-. unfold stageMouseUp.
    destruct (_ || _); auto.
  - right. unfold updateText in Hs'.
    destruct (updateData _ _ _); [|done]. by injection Hs' as <-.
  - injection Hs' as <-. by right.
  - injection Hs' as <-. by right.
  - injection Hs' as <-. by right.
  - injection Hs' as <-. by right.
  - injection Hs' as <-. right. unfold textClick. by destruct (decide _).
  - injection Hs' as <-. by right.
  - left. unfold circleDragEnd in Hs'.
    destruct (updateData _ _ _); [|done]. by injection Hs' as <-.
  - left. unfold circleTransformEnd in Hs'.
    destruct (updateData _ _ _); [|done]. by injection Hs' as <-.
  - injection Hs' as <-. by right.
  - injection Hs' as <-. by right.
Qed.

(** A handler other than undo leaves the history alone or appends one
    snapshot, of the image and the edits as they were before the handler
    ran; and undo right after a handler that took a snapshot puts that
    image and the copy of those edits back, restores the history, and
    leaves every other cell as the handler set it. *)
Theorem snapshot_then_undo (ev : Event Image) (s s' : EditorState Image) :
  ev <> Undo -> handle jsonCopy ev s = Some s' ->
  (history s' = history s
   \/ history s' = history s
                   ++ [ {| snapImage := image s; snapEdits := jsonCopy (edits s) |} ])
  /\ (history s' <> history s ->
      undo s'
      = setHistory (history s) (setEdits (jsonCopy (edits s)) (setImage (image s) s'))).
Proof.
  intros Hev Hs'.
  destruct (handle_history ev s s' Hev Hs') as [Hpush | Hsame].
  - split.
    + right. rewrite Hpush at 1. reflexivity.
    + intros _. rewrite Hpush at 1. rewrite undo_pushSnapshot. reflexivity.
  - split; [by left | done].
Qed.

(** ** What happens to the edits *)

Lemma updateData_None idx f eds :
  updateData idx f eds = None <-> (length eds <= idx)%nat.
Proof.
  unfold updateData. destruct (eds !! idx) eqn:E.
  - apply lookup_lt_Some in E. split; [done | lia].
  - apply lookup_ge_None in E. done.
Qed.

Lemma updateData_Some idx f eds copy :
  updateData idx f eds = Some copy ->
  map type copy = map type eds
  /\ (forall j, j <> idx -> copy !! j = eds !! j).
Proof.
  unfold updateData. destruct (eds !! idx) as [e|] eqn:E; [|done].
  intros [= <-]. split.
  - change (map type) with (fmap (M:=list) type).
    rewrite list_fmap_insert. cbn [type].
    apply list_insert_id. by rewrite list_lookup_fmap, E.
  - intros j Hj. by apply list_lookup_insert_ne.
Qed.

(** Apart from undo and the load of a new image, no handler removes or
    reorders an edit: the kinds of the edits stay as they were, with at most
    one new edit at the end, and every edit but the one the handler rewrites
    is left as it was.  A handler that rewrites an edit and returns was
    given an index inside the array (it throws otherwise). *)
Theorem edits_kept (ev : Event Image) (s s' : EditorState Image) :
  ev <> Undo -> (forall img, ev <> ImageLoaded img) ->
  handle jsonCopy ev s = Some s' ->
  (exists added,
      map type (edits s') = map type (edits s) ++ map type added
      /\ (length added <= 1)%nat)
  /\ (forall j, updates ev <> Some j ->
        (j < length (edits s))%nat -> edits s' !! j = edits s !! j)
  /\ (forall i, updates ev = Some i -> (i < length (edits s))%nat).
Proof.
  intros Hundo Hload Hs'.
  rewrite (and_assoc _ _ _). split; [|
    intros i Hi; apply Nat.lt_nge; intros Hout;
    destruct ev; try discriminate Hi; injection Hi as ->; cbn [handle] in Hs';
    unfold updateText, circleDragEnd, circleTransformEnd in Hs';
    match type of Hs' with
    | context [updateData i ?f (edits s)] =>
        apply (updateData_None i f (edits s)) in Hout; by rewrite Hout in Hs'
    end ].
  assert (Hsame : edits s' = edits s ->
    (exists added, map type (edits s') = map type (edits s) ++ map type added
                   /\ (length added <= 1)%nat)
    /\ (forall j, updates ev <> Some j ->
          (j < length (edits s))%nat -> edits s' !! j = edits s !! j)).
  { intros ->. split; [exists []; split; [by rewrite app_nil_r | cbn; lia] | done]. }
  assert (Hadd : forall e, edits s' = edits s ++ [e] ->
    (exists added, map type (edits s') = map type (edits s) ++ map type added
                   /\ (length added <= 1)%nat)
    /\ (forall j, updates ev <> Some j ->
          (j < length (edits s))%nat -> edits s' !! j = edits s !! j)).
  { intros e ->. split; [exists [e]; split; [by rewrite map_app | cbn; lia] |].
    intros j _ Hj. by apply lookup_app_l. }
  assert (Hupd : forall i f copy, updates ev = Some i ->
    updateData i f (edits s) = Some copy -> edits s' = copy ->
    (exists added, map type (edits s') = map type (edits s) ++ map type added
                   /\ (length added <= 1)%nat)
    /\ (forall j, updates ev <> Some j ->
          (j < length (edits s))%nat -> edits s' !! j = edits s !! j)).
  { intros i f copy Hev Hcopy ->.
    destruct (updateData_Some _ _ _ _ Hcopy) as [Htypes Hothers]. split.
    - exists []. split; [by rewrite app_nil_r, Htypes | cbn; lia].
    - intros j Hj _. apply Hothers. intros ->. by apply Hj. }
  destruct ev; try done; cbn [handle] in Hs'.
  - by destruct (Hload img).
  - injection Hs' as Hs'. unfold handleEscape in Hs'.
    destruct (String.eqb _ _); subst s'; by apply Hsame.
  - injection Hs' as Hs'. unfold handleStageClick in Hs'.
    destruct (isAddingText s); [|destruct (isAddingCircle s)];
      try destruct (getUnscaledPointer stageRef); subst s';
      first [apply Hsame; reflexivity | eapply Hadd; reflexivity].
  - injection Hs' as Hs'. unfold stageMouseDown in Hs'.
    destruct (negb _); [|destruct (getUnscaledPointer _)]; subst s'; by apply Hsame.
  - injection Hs' as Hs'. unfold stageMouseMove in Hs'.
    destruct (_ || _); [|destruct (getUnscaledPointer _)]; subst s'; by apply Hsame.
  - injection Hs' as Hs'. unfold stageMouseUp in Hs'.
    destruct (_ || _); subst s';
      first [apply Hsame; reflexivity | eapply Hadd; reflexivity].
  - unfold updateText in Hs'.
    destruct (updateData _ _ _) as [copy|] eqn:Hcopy; [|done]. injection Hs' as <-.
    by eapply Hupd.
  - injection Hs' as <-. by apply Hsame.
  - injection Hs' as <-. by apply Hsame.
  - injection Hs' as <-. by apply Hsame.
  - injection Hs' as <-. by apply Hsame.
  - injection Hs' as Hs'. unfold textClick in Hs'.
    destruct (decide _); subst s'; by apply Hsame.
  - injection Hs' as <-. by apply Hsame.
  - unfold circleDragEnd in Hs'.
    destruct (updateData _ _ _) as [copy|] eqn:Hcopy; [|done]. injection Hs' as <-.
    by eapply Hupd.
  - unfold circleTransformEnd in Hs'.
    destruct (updateData _ _ _) as [copy|] eqn:Hcopy; [|done]. injection Hs' as <-.
    by eapply Hupd.
  - injection Hs' as <-. by apply Hsame.
  - injection Hs' as <-. by apply Hsame.
Qed.

(** ** The highlighter *)

Lemma moves_points moves s :
  isHighlighting s = true -> isDrawingHighlight s = true ->
  foldl (fun p m => stageMouseMove m p) s moves
  = setCurrentStroke
      (currentStroke s
       ++ concat (map (fun pos => [x pos; y pos]) (omap getUnscaledPointer moves))) s.
Proof.
  revert s. induction moves as [|m moves IH]; intros s Hhl Hdraw.
  - cbn. rewrite app_nil_r. by destruct s.
  - cbn [foldl omap list_omap]. unfold stageMouseMove at 2. rewrite Hhl, Hdraw. cbn [negb orb].
    destruct (getUnscaledPointer m) as [pos|]; cbn [map concat].
    + rewrite IH by done. cbn [currentStroke setCurrentStroke].
      rewrite <- app_assoc. by destruct s.
    + by apply IH.
Qed.

(** With the highlighter off a press, moves and a release change nothing.
    With it on, a press over the stage followed by moves and a release
    adds one highlight edit whose points are the press and the moves that
    had a pointer, in order, takes one snapshot and ends the stroke. *)
Theorem highlighter_stroke (down : option Stage) (moves : list (option Stage))
    (s : EditorState Image) :
  (isHighlighting s = false -> stroke jsonCopy down moves s = s)
  /\ (forall pos0,
        isHighlighting s = true ->
        getUnscaledPointer down = Some pos0 ->
        stroke jsonCopy down moves s
        = setIsDrawingHighlight false
            (setCurrentStroke []
               (setEdits
                  (edits s
                   ++ [newHighlight
                         (concat (map (fun pos => [x pos; y pos])
                                    (pos0 :: omap getUnscaledPointer moves)))])
                  (pushSnapshot jsonCopy s s)))).
Proof.
  split.
  - intros Hoff. unfold stroke, stageMouseDown. rewrite Hoff. cbn [negb].
    assert (Hmoves : foldl (fun p m => stageMouseMove m p) s moves = s).
    { induction moves as [|m moves IH]; [done|].
      cbn [foldl]. unfold stageMouseMove at 2. by rewrite Hoff. }
    rewrite Hmoves. unfold stageMouseUp. by rewrite Hoff.
  - intros pos0 Hon Hdown. unfold stroke, stageMouseDown.
    rewrite Hon, Hdown. cbn [negb].
    rewrite moves_points by done.
    unfold stageMouseUp. cbn. rewrite Hon. cbn.
    destruct s; cbn in *. reflexivity.
Qed.

End EditorFacts.

Lemma one_tool_at_a_time_witness :
  Editor.reachable id Editor.textMode /\ Editor.exclusive Editor.textMode.
Proof.
  assert (Hreach : Editor.reachable id Editor.textMode).
  { apply (Editor.reach_handle id Editor.initial Editor.ToolText);
      [apply Editor.reach_initial | reflexivity]. }
  split; [exact Hreach|].
  exact (one_tool_at_a_time id Editor.textMode Hreach).
Defined.

Lemma snapshot_then_undo_witness :
  @Editor.StageClick nat (Editor.stageAt 10 20 2) <> Editor.Undo
  /\ Editor.handle id (Editor.StageClick (Editor.stageAt 10 20 2)) Editor.textMode
     = Some Editor.textAdded
  /\ Editor.history Editor.textAdded <> Editor.history Editor.textMode
  /\ Editor.edits (Editor.undo Editor.textAdded) = Editor.edits Editor.textMode.
Proof.
  assert (Hev : @Editor.StageClick nat (Editor.stageAt 10 20 2) <> Editor.Undo)
    by discriminate.
  assert (Hstep : Editor.handle id (Editor.StageClick (Editor.stageAt 10 20 2))
                    Editor.textMode = Some Editor.textAdded) by reflexivity.
  assert (Hpush : Editor.history Editor.textAdded <> Editor.history Editor.textMode)
    by (vm_compute; discriminate).
  split; [exact Hev|]. split; [exact Hstep|]. split; [exact Hpush|].
  rewrite (proj2 (snapshot_then_undo id _ _ _ Hev Hstep) Hpush). reflexivity.
Defined.

Lemma highlighter_stroke_witness :
  Editor.isHighlighting Editor.highlightMode = true
  /\ Editor.getUnscaledPointer (Editor.stageAt 10 20 2)
     = Some {| Editor.x := 5; Editor.y := 10 |}
  /\ Editor.edits
       (Editor.stroke id (Editor.stageAt 10 20 2)
          [Editor.stageAt 30 40 2; None; Editor.stageAt 50 60 2]
          Editor.highlightMode)
     = [Editor.newHighlight [5; 10; 15; 20; 25; 30]%float].
Proof.
  assert (Hon : Editor.isHighlighting Editor.highlightMode = true) by reflexivity.
  assert (Hdown : Editor.getUnscaledPointer (Editor.stageAt 10 20 2)
                  = Some {| Editor.x := 5; Editor.y := 10 |}) by (vm_compute; reflexivity).
  split; [exact Hon|]. split; [exact Hdown|].
  rewrite (proj2 (highlighter_stroke id (Editor.stageAt 10 20 2)
                    [Editor.stageAt 30 40 2; None; Editor.stageAt 50 60 2]
                    Editor.highlightMode) _ Hon Hdown).
  vm_compute. reflexivity.
Defined.

Lemma edits_kept_witness :
  @Editor.StageClick nat (Editor.stageAt 10 20 2) <> Editor.Undo
  /\ (forall img, @Editor.StageClick nat (Editor.stageAt 10 20 2)
                  <> Editor.ImageLoaded img)
  /\ Editor.handle id (Editor.StageClick (Editor.stageAt 10 20 2)) Editor.textMode
     = Some Editor.textAdded
  /\ exists added,
       map Editor.type (Editor.edits Editor.textAdded)
       = map Editor.type (Editor.edits Editor.textMode) ++ map Editor.type added
       /\ (length added <= 1)%nat.
Proof.
  assert (Hundo : @Editor.StageClick nat (Editor.stageAt 10 20 2) <> Editor.Undo)
    by discriminate.
  assert (Hload : forall img, @Editor.StageClick nat (Editor.stageAt 10 20 2)
                              <> Editor.ImageLoaded img) by discriminate.
  assert (Hstep : Editor.handle id (Editor.StageClick (Editor.stageAt 10 20 2))
                    Editor.textMode = Some Editor.textAdded) by reflexivity.
  split; [exact Hundo|]. split; [exact Hload|]. split; [exact Hstep|].
  exact (proj1 (edits_kept id _ _ _ Hundo Hload Hstep)).
Defined.
